(** * AeyeGuard analysis pipeline: a shallow embedding and its properties

    The development follows the Python sources of the service:
    - [src/models/data_models.py]         (module [Models])
    - [src/services/language_detector.py] (module [LanguageDetector])
    - [src/services/llm_service.py]       (modules [LLMService], [LLMSetup])
    - [src/analyzers/base_analyzer.py]    (module [BaseAnalyzer])
    - [src/AeyeGuard_mcp.py]              (module [Service])

    Library code the sources call, [str] methods, [re] and [json], is
    modelled in the modules [Str], [Re] and [Json]; exceptions and the
    interpreter's limits are in [Py].  Text is a list of bytes (the UTF-8
    encoding of a Python [str]).  On ASCII text the case mapping and the
    classes [\s], [\w], [\d] are defined here; what Python does with
    characters beyond ASCII in [str.upper] and in the classes of [re]
    depends on the Unicode database of the interpreter and is taken from
    it: see [Str.upper], [BaseAnalyzer.Runtime] and
    [LanguageDetector.Detector].  A computation that may raise has type
    [M A]: it returns a value or an exception.

    The module [Spec] holds definitions written after the words of the
    specification, to be compared with the code; the properties follow the
    definitions. *)

From Stdlib Require Import Ascii String Bool Arith ZArith Lia List.
From Stdlib Require Import Decimal DecimalString.
Import ListNotations.
Open Scope list_scope.
Open Scope char_scope.

(** ** Python [str] *)

Module Str.

Definition str := list ascii.

Definition lit (s : string) : str := list_ascii_of_string s.
Arguments lit s%_string.

Definition of_codes (l : list nat) : str := map ascii_of_nat l.

Definition nl : ascii := "010".
Definition dquote : ascii := "034".

Definition code (c : ascii) : nat := nat_of_ascii c.

Definition between (lo hi : nat) (c : ascii) : bool :=
  Nat.leb lo (code c) && Nat.leb (code c) hi.

(* is [c] an ASCII character?  The bytes from 128 on encode the
   characters beyond ASCII. *)
Definition is_ascii_char (c : ascii) : bool := Nat.ltb (code c) 128.

(* [s.isascii()] *)
Definition isascii (s : str) : bool := forallb is_ascii_char s.

Definition is_digit (c : ascii) : bool := between 48 57 c.
Definition is_upper (c : ascii) : bool := between 65 90 c.
Definition is_lower (c : ascii) : bool := between 97 122 c.
(* [\w] on an ASCII character *)
Definition is_word (c : ascii) : bool :=
  is_digit c || is_upper c || is_lower c || Ascii.eqb c "_".
(* [\s] on an ASCII character: tab, LF, VT, FF, CR, the separators
   0x1c..0x1f and the space *)
Definition is_space (c : ascii) : bool :=
  between 9 13 c || between 28 31 c || Ascii.eqb c " ".

Definition lower_char (c : ascii) : ascii :=
  if is_upper c then ascii_of_nat (code c + 32) else c.
Definition upper_char (c : ascii) : ascii :=
  if is_lower c then ascii_of_nat (code c - 32) else c.

Definition lower (s : str) : str := map lower_char s.

(* [s.upper()] for a text [s] of ASCII characters *)
Definition upper_ascii (s : str) : str := map upper_char s.

(* what [upper] gives for the run of characters beyond ASCII read so far *)
Definition upper_of_run (beyond : str -> str) (run : str) : str :=
  match run with
  | [] => []
  | _ => beyond run
  end.

(* [s.upper()].  Python puts a text in upper case character by character.
   An ASCII character is mapped by [upper_char]; a run of characters beyond
   ASCII is mapped by [beyond], the upper-casing of such a run in the
   Unicode database of the interpreter, where the dotless i becomes I and
   the long s becomes S. *)
Fixpoint upper_runs (beyond : str -> str) (run s : str) : str :=
  match s with
  | [] => upper_of_run beyond run
  | c :: t =>
      if is_ascii_char c
      then upper_of_run beyond run ++ upper_char c :: upper_runs beyond [] t
      else upper_runs beyond (run ++ [c]) t
  end.

Definition upper (beyond : str -> str) (s : str) : str :=
  upper_runs beyond [] s.

Fixpoint eqb (a b : str) : bool :=
  match a, b with
  | [], [] => true
  | x :: a', y :: b' => Ascii.eqb x y && eqb a' b'
  | _, _ => false
  end.

(* [s.find(c)] for a one-character needle: first index, or -1 *)
Fixpoint find_from (c : ascii) (s : str) (i : Z) : Z :=
  match s with
  | [] => (-1)%Z
  | x :: t => if Ascii.eqb x c then i else find_from c t (i + 1)%Z
  end.
Definition find (s : str) (c : ascii) : Z := find_from c s 0%Z.

(* [s.rfind(c)]: last index, or -1 *)
Fixpoint rfind_from (c : ascii) (s : str) (i last : Z) : Z :=
  match s with
  | [] => last
  | x :: t => rfind_from c t (i + 1)%Z (if Ascii.eqb x c then i else last)
  end.
Definition rfind (s : str) (c : ascii) : Z := rfind_from c s 0%Z (-1)%Z.

(* [s[a:b]] for non-negative bounds *)
Definition slice (s : str) (a b : Z) : str :=
  firstn (Z.to_nat (b - a)) (skipn (Z.to_nat a) s).

(* [s.endswith(suffix)] *)
Definition endswith (s suffix : str) : bool :=
  Nat.leb (length suffix) (length s)
  && eqb (skipn (length s - length suffix) s) suffix.

(* [s.count(c)] for a one-character needle *)
Definition count (c : ascii) (s : str) : nat :=
  length (filter (Ascii.eqb c) s).

(* [sep.join(parts)] *)
Fixpoint join (sep : str) (parts : list str) : str :=
  match parts with
  | [] => []
  | [p] => p
  | p :: rest => p ++ sep ++ join sep rest
  end.

(* [c * n] *)
Definition times (s : str) (n : nat) : str := concat (repeat s n).

(* [str(n)] for a non-negative integer *)
Definition of_nat (n : nat) : str :=
  lit (NilZero.string_of_uint (Nat.to_uint n)).

End Str.
Import Str.

(** ** Python [re]: the part of the pattern language the sources use *)

Module Re.

Record flags := { multiline : bool; dotall : bool }.
Definition NOFLAG := {| multiline := false; dotall := false |}.
Definition MULTILINE := {| multiline := true; dotall := false |}.
Definition DOTALL := {| multiline := false; dotall := true |}.

Inductive cclass := Digit | Word | Space.

Inductive citem :=
| One (c : ascii)
| Range (lo hi : ascii)
| Cls (k : cclass).

Inductive re :=
| Eps
| Chr (c : ascii)
| Any
| Set_ (neg : bool) (items : list citem)
| Bnd
| Bol
| Eol
| Seq (a b : re)
| Alt (a b : re)
| Star (greedy : bool) (a : re).

Definition Plus (greedy : bool) (a : re) : re := Seq a (Star greedy a).
Definition Opt (greedy : bool) (a : re) : re :=
  if greedy then Alt a Eps else Alt Eps a.

(** *** Pattern syntax *)

Definition is_quant (c : ascii) : bool :=
  Ascii.eqb c "*" || Ascii.eqb c "+" || Ascii.eqb c "?".

Definition class_of_letter (c : ascii) : option (bool * cclass) :=
  if Ascii.eqb c "d" then Some (false, Digit)
  else if Ascii.eqb c "w" then Some (false, Word)
  else if Ascii.eqb c "s" then Some (false, Space)
  else if Ascii.eqb c "D" then Some (true, Digit)
  else if Ascii.eqb c "W" then Some (true, Word)
  else if Ascii.eqb c "S" then Some (true, Space)
  else None.

Definition control_of_letter (c : ascii) : option ascii :=
  if Ascii.eqb c "n" then Some "010"
  else if Ascii.eqb c "t" then Some "009"
  else if Ascii.eqb c "r" then Some "013"
  else None.

(* what follows a backslash, outside a character class *)
Definition escape (c : ascii) : option re :=
  if Ascii.eqb c "b" then Some Bnd
  else match class_of_letter c with
       | Some (neg, k) => Some (Set_ neg [Cls k])
       | None =>
         match control_of_letter c with
         | Some x => Some (Chr x)
         | None => if is_word c then None else Some (Chr c)
         end
       end.

(* one member of a character class; [None] on what is not supported *)
Definition class_char (s : str) : option (citem * str) :=
  match s with
  | "\" :: c :: t =>
      match class_of_letter c with
      | Some (false, k) => Some (Cls k, t)
      | Some (true, _) => None
      | None =>
        match control_of_letter c with
        | Some x => Some (One x, t)
        | None => if is_word c then None else Some (One c, t)
        end
      end
  | "\" :: [] => None
  | c :: t => Some (One c, t)
  | [] => None
  end.

(* the members of a class up to the closing bracket *)
Fixpoint class_items (n : nat) (first : bool) (s : str)
  : option (list citem * str) :=
  match n with
  | 0 => None
  | S n' =>
    match s with
    | [] => None
    | "]" :: t =>
        if first then
          match class_items n' false t with
          | Some (l, t') => Some (One "]" :: l, t')
          | None => None
          end
        else Some ([], t)
    | _ =>
      match class_char s with
      | Some (One lo, "-" :: c :: t) =>
          if Ascii.eqb c "]" then
            match class_items n' false ("-" :: c :: t) with
            | Some (l, t') => Some (One lo :: l, t')
            | None => None
            end
          else
            match class_char (c :: t) with
            | Some (One hi, t') =>
                match class_items n' false t' with
                | Some (l, t'') => Some (Range lo hi :: l, t'')
                | None => None
                end
            | _ => None
            end
      | Some (i, t) =>
          match class_items n' false t with
          | Some (l, t') => Some (i :: l, t')
          | None => None
          end
      | None => None
      end
    end
  end.

Definition quantify (a : re) (s : str) : option (re * str) :=
  match s with
  | q :: t =>
    if is_quant q then
      let (greedy, t') :=
        match t with
        | "?" :: t1 => (false, t1)
        | _ => (true, t)
        end in
      match t' with
      | q' :: _ => if is_quant q' then None
                   else Some ((if Ascii.eqb q "*" then Star greedy a
                               else if Ascii.eqb q "+" then Plus greedy a
                               else Opt greedy a), t')
      | [] => Some ((if Ascii.eqb q "*" then Star greedy a
                     else if Ascii.eqb q "+" then Plus greedy a
                     else Opt greedy a), t')
      end
    else Some (a, s)
  | [] => Some (a, s)
  end.

Definition mkseq (a b : re) : re :=
  match b with
  | Eps => a
  | _ => Seq a b
  end.

(* alternation level; [fuel] bounds the nesting of groups *)
Fixpoint parse_alt (fuel : nat) (s : str) : option (re * str) :=
  match fuel with
  | 0 => None
  | S f =>
    let atom (s : str) : option (re * str) :=
      match s with
      | "(" :: "?" :: _ => None
      | "(" :: t =>
          match parse_alt f t with
          | Some (r, ")" :: t') => Some (r, t')
          | _ => None
          end
      | "[" :: "^" :: t =>
          match class_items (S (length t)) true t with
          | Some (l, t') => Some (Set_ true l, t')
          | None => None
          end
      | "[" :: t =>
          match class_items (S (length t)) true t with
          | Some (l, t') => Some (Set_ false l, t')
          | None => None
          end
      | "\" :: c :: t =>
          match escape c with
          | Some r => Some (r, t)
          | None => None
          end
      | "." :: t => Some (Any, t)
      | "^" :: t => Some (Bol, t)
      | "$" :: t => Some (Eol, t)
      | c :: t =>
          if is_quant c || Ascii.eqb c "{" || Ascii.eqb c "\" then None
          else Some (Chr c, t)
      | [] => None
      end in
    let fix seq (n : nat) (s : str) : option (re * str) :=
      match n with
      | 0 => None
      | S n' =>
        match s with
        | [] => Some (Eps, s)
        | "|" :: _ => Some (Eps, s)
        | ")" :: _ => Some (Eps, s)
        | _ =>
          match atom s with
          | Some (a, t) =>
            match quantify a t with
            | Some (a', t') =>
              match seq n' t' with
              | Some (r, t'') => Some (mkseq a' r, t'')
              | None => None
              end
            | None => None
            end
          | None => None
          end
        end
      end in
    match seq (S (length s)) s with
    | Some (r, "|" :: t) =>
        match parse_alt f t with
        | Some (r2, t') => Some (Alt r r2, t')
        | None => None
        end
    | other => other
    end
  end.

(* [re.compile(pattern)]; [None] stands for [re.error] and for syntax
   outside the modelled fragment *)
Definition compile (pattern : str) : option re :=
  match parse_alt (S (length pattern)) pattern with
  | Some (r, []) => Some r
  | _ => None
  end.

(** *** Matching: backtracking in the order of the [re] module *)

(* the classes on an ASCII character.  The sources apply a pattern that
   has a class to a subject with characters beyond ASCII in one place, the
   detection of the language, and [LanguageDetector.re_search] takes the
   answer for such a subject from the interpreter. *)
Definition in_class (k : cclass) (c : ascii) : bool :=
  match k with
  | Digit => is_digit c
  | Word => is_word c
  | Space => is_space c
  end.

Definition in_item (c : ascii) (i : citem) : bool :=
  match i with
  | One x => Ascii.eqb c x
  | Range lo hi => between (code lo) (code hi) c
  | Cls k => in_class k c
  end.

Definition in_items (c : ascii) (l : list citem) : bool :=
  existsb (in_item c) l.

Definition word_at (o : option ascii) : bool :=
  match o with
  | Some c => is_word c
  | None => false
  end.

(* a continuation receives the character before the position and the
   rest of the subject; the answer is the rest after the whole match *)
Definition cont := option ascii -> str -> option str.

(* the iterations of a starred pattern: [step] matches the body once; an
   iteration that consumes nothing is not repeated *)
Fixpoint star_loop (step : option ascii -> str -> cont -> option str)
  (greedy : bool) (k : cont) (n : nat) (prev : option ascii) (s : str)
  : option str :=
  match n with
  | 0 => k prev s
  | S n' =>
    let again : cont :=
      fun p' s' => if Nat.ltb (length s') (length s)
                   then star_loop step greedy k n' p' s' else None in
    if greedy then
      match step prev s again with
      | Some x => Some x
      | None => k prev s
      end
    else
      match k prev s with
      | Some x => Some x
      | None => step prev s again
      end
  end.

Fixpoint run (fl : flags) (r : re) (prev : option ascii) (s : str)
  (k : cont) {struct r} : option str :=
  match r with
  | Eps => k prev s
  | Chr c =>
      match s with
      | x :: t => if Ascii.eqb x c then k (Some x) t else None
      | [] => None
      end
  | Any =>
      match s with
      | x :: t => if dotall fl || negb (Ascii.eqb x nl)
                  then k (Some x) t else None
      | [] => None
      end
  | Set_ neg items =>
      match s with
      | x :: t => if xorb neg (in_items x items) then k (Some x) t else None
      | [] => None
      end
  | Bnd =>
      if xorb (word_at prev) (word_at (hd_error s)) then k prev s else None
  | Bol =>
      match prev with
      | None => k prev s
      | Some c => if multiline fl && Ascii.eqb c nl then k prev s else None
      end
  | Eol =>
      match s with
      | [] => k prev s
      | x :: t =>
          if Ascii.eqb x nl
             && (multiline fl || match t with [] => true | _ => false end)
          then k prev s else None
      end
  | Seq a b => run fl a prev s (fun p' s' => run fl b p' s' k)
  | Alt a b =>
      match run fl a prev s k with
      | Some x => Some x
      | None => run fl b prev s k
      end
  | Star greedy a => star_loop (run fl a) greedy k (S (length s)) prev s
  end.

(* a match that starts exactly here: the rest of the subject after it *)
Definition match_here (fl : flags) (r : re) (prev : option ascii) (s : str)
  : option str :=
  run fl r prev s (fun _ rest => Some rest).

(* [re.search(r, s, flags)], as a truth value *)
Fixpoint search_from (fl : flags) (r : re) (prev : option ascii) (s : str)
  : bool :=
  match match_here fl r prev s with
  | Some _ => true
  | None =>
      match s with
      | [] => false
      | c :: t => search_from fl r (Some c) t
      end
  end.

Definition search (r : re) (s : str) (fl : flags) : bool :=
  search_from fl r None s.

(* [re.sub(r, repl, s, flags=fl)] with a callable [repl] that receives the
   matched text.  [skip] counts the characters still covered by the match
   that was replaced last.  A match of no characters is replaced and the
   scan moves one character on; the patterns of the sources match two
   characters at least. *)
Fixpoint sub_loop (fl : flags) (r : re) (repl : str -> str)
  (prev : option ascii) (s : str) (skip : nat) : str :=
  match s with
  | [] =>
      match skip with
      | 0 => match match_here fl r prev [] with
             | Some _ => repl []
             | None => []
             end
      | S _ => []
      end
  | c :: t =>
      match skip with
      | S n => sub_loop fl r repl (Some c) t n
      | 0 =>
          match match_here fl r prev s with
          | Some rest =>
              let len := length s - length rest in
              repl (firstn len s)
              ++ match len with
                 | 0 => c :: sub_loop fl r repl (Some c) t 0
                 | S n => sub_loop fl r repl (Some c) t n
                 end
          | None => c :: sub_loop fl r repl (Some c) t 0
          end
      end
  end.

Definition sub (r : re) (repl : str -> str) (s : str) (fl : flags) : str :=
  sub_loop fl r repl None s 0.

(* a pattern of the sources, compiled once; the patterns in use all
   compile, see [patterns_compile] *)
Definition pattern (p : str) : re :=
  match compile p with
  | Some r => r
  | None => Set_ false []
  end.

(* no character that [r] consumes is a line feed *)
Fixpoint nl_free (fl : flags) (r : re) : bool :=
  match r with
  | Eps | Bnd | Bol | Eol => true
  | Chr c => negb (Ascii.eqb c nl)
  | Any => negb (dotall fl)
  | Set_ neg items => negb (xorb neg (in_items nl items))
  | Seq a b | Alt a b => nl_free fl a && nl_free fl b
  | Star _ a => nl_free fl a
  end.

End Re.

(** ** Exceptions and the interpreter settings the sources depend on *)

Module Py.

Inductive exc_class :=
| JSONDecodeError      (* json.JSONDecodeError, a ValueError *)
| ValueError
| RecursionError
| AttributeError
| ValidationError      (* pydantic.ValidationError *)
| OtherException.      (* any other subclass of Exception *)

(* an exception object: its class and [str(e)] *)
Record Exception := mkExc { exc_class_of : exc_class; exc_str : str }.

(* is [e] caught by [except cls]? *)
Definition isinstance (e : Exception) (cls : exc_class) : bool :=
  match cls, exc_class_of e with
  | JSONDecodeError, JSONDecodeError => true
  | ValueError, (JSONDecodeError | ValueError) => true
  | RecursionError, RecursionError => true
  | AttributeError, AttributeError => true
  | ValidationError, ValidationError => true
  | OtherException, OtherException => true
  | _, _ => false
  end.

(* a computation that returns or raises *)
Definition M (A : Type) : Type := (Exception + A)%type.

Definition ret {A} (a : A) : M A := inr a.
Definition raise {A} (e : Exception) : M A := inl e.
Definition bind {A B} (m : M A) (f : A -> M B) : M B :=
  match m with
  | inl e => inl e
  | inr a => f a
  end.

(* [try: body  except Exception as e: handler(e)] *)
Definition try_except {A} (body : M A) (handler : Exception -> M A) : M A :=
  match body with
  | inl e => handler e
  | inr a => inr a
  end.

(* [try: body  except cls: handler] *)
Definition try_except_class {A} (cls : exc_class) (body handler : M A)
  : M A :=
  match body with
  | inl e => if isinstance e cls then handler else inl e
  | inr a => inr a
  end.

(* [sys.getrecursionlimit()] as the nesting left to a C-level recursion,
   and [sys.get_int_max_str_digits()] ([None] before Python 3.11) *)
Record limits := { recursion_limit : nat; int_max_str_digits : option nat }.

Definition default_limits : limits :=
  {| recursion_limit := 1000; int_max_str_digits := Some 4300 |}.

End Py.
Import Py.

Declare Scope py_scope.
Delimit Scope py_scope with py.
Notation "x <- m ;; k" := (bind m (fun x => k))
  (at level 61, m at next level, right associativity) : py_scope.
Notation "' p <- m ;; k" := (bind m (fun x => match x with p => k end))
  (at level 61, p pattern, m at next level, right associativity) : py_scope.

(** ** Python [json]: [json.loads] on a [str] *)

Module Json.

#[warnings="-register-all"]
Inductive json :=
| JNull
| JBool (b : bool)
| JInt (z : Z)
| JFloat (text : str)        (* a float, kept as the literal that denotes it *)
| JString (s : str)
| JArray (l : list json)
| JObject (d : list (str * json)).

(** *** dict operations on decoded objects *)

Fixpoint dict_get (k : str) (d : list (str * json)) : option json :=
  match d with
  | [] => None
  | (k', v) :: t => if Str.eqb k' k then Some v else dict_get k t
  end.

(* [d[k] = v]: a repeated key keeps its place and takes the new value *)
Fixpoint dict_set (k : str) (v : json) (d : list (str * json))
  : list (str * json) :=
  match d with
  | [] => [(k, v)]
  | (k', v') :: t =>
      if Str.eqb k' k then (k', v) :: t else (k', v') :: dict_set k v t
  end.

(** *** The decoder *)

(* the decoder returns or raises; [Fuel] is the answer of a loop of the
   model whose counter ran out, which [loads] never gives, see
   [loads_has_fuel] *)
Inductive res (A : Type) :=
| Ok (a : A)
| Raise (e : Exception)
| Fuel.
Arguments Ok {A} a.
Arguments Raise {A} e.
Arguments Fuel {A}.

Definition decode_error {A} (m : string) : res A :=
  Raise (mkExc JSONDecodeError (lit m)).

Definition recursion_error {A} (what : string) : res A :=
  Raise (mkExc RecursionError
    (lit "maximum recursion depth exceeded while decoding a JSON "
     ++ lit what ++ lit " from a unicode string")).

Definition is_ws (c : ascii) : bool :=
  Ascii.eqb c " " || Ascii.eqb c "009" || Ascii.eqb c "010"
  || Ascii.eqb c "013".

Fixpoint skip_ws (s : str) : str :=
  match s with
  | c :: t => if is_ws c then skip_ws t else s
  | [] => []
  end.

Definition hex_val (c : ascii) : option N :=
  if is_digit c then Some (N_of_ascii c - 48)%N
  else if between 97 102 c then Some (N_of_ascii c - 87)%N
  else if between 65 70 c then Some (N_of_ascii c - 55)%N
  else None.

Definition hex4 (a b c d : ascii) : option N :=
  match hex_val a, hex_val b, hex_val c, hex_val d with
  | Some x, Some y, Some z, Some w =>
      Some (((x * 16 + y) * 16 + z) * 16 + w)%N
  | _, _, _, _ => None
  end.

(* the UTF-8 bytes of a code point *)
Definition utf8 (cp : N) : str :=
  (if cp <? 128 then [ascii_of_N cp]
   else if cp <? 2048 then
     [ascii_of_N (192 + cp / 64); ascii_of_N (128 + cp mod 64)]
   else if cp <? 65536 then
     [ascii_of_N (224 + cp / 4096); ascii_of_N (128 + (cp / 64) mod 64);
      ascii_of_N (128 + cp mod 64)]
   else
     [ascii_of_N (240 + cp / 262144);
      ascii_of_N (128 + (cp / 4096) mod 64);
      ascii_of_N (128 + (cp / 64) mod 64); ascii_of_N (128 + cp mod 64)])%N.

Definition simple_escape (c : ascii) : option ascii :=
  if Ascii.eqb c dquote then Some dquote
  else if Ascii.eqb c "\" then Some "\"
  else if Ascii.eqb c "/" then Some "/"
  else if Ascii.eqb c "b" then Some "008"
  else if Ascii.eqb c "f" then Some "012"
  else if Ascii.eqb c "n" then Some "010"
  else if Ascii.eqb c "r" then Some "013"
  else if Ascii.eqb c "t" then Some "009"
  else None.

(* what follows a backslash: the bytes it stands for and the number of
   characters it takes; a high surrogate takes the low one that follows *)
Definition escape (t : str) : option (str * nat) :=
  match t with
  | [] => None
  | e :: t1 =>
    if Ascii.eqb e "u" then
      match t1 with
      | a :: b :: c :: d :: t2 =>
        match hex4 a b c d with
        | None => None
        | Some hi =>
          if ((55296 <=? hi) && (hi <? 56320))%N then
            match t2 with
            | x :: y :: a' :: b' :: c' :: d' :: _ =>
              if Ascii.eqb x "\" && Ascii.eqb y "u" then
                match hex4 a' b' c' d' with
                | Some lo =>
                  if ((56320 <=? lo) && (lo <? 57344))%N then
                    Some (utf8 (65536 + (hi - 55296) * 1024
                                + (lo - 56320))%N, 11)
                  else Some (utf8 hi, 5)
                | None => Some (utf8 hi, 5)
                end
              else Some (utf8 hi, 5)
            | _ => Some (utf8 hi, 5)
            end
          else Some (utf8 hi, 5)
        end
      | _ => None
      end
    else
      match simple_escape e with
      | Some x => Some ([x], 1)
      | None => None
      end
  end.

Definition prepend (bytes : str) (r : res (str * str)) : res (str * str) :=
  match r with
  | Ok (text, rest) => Ok (bytes ++ text, rest)
  | other => other
  end.

(* the characters of a string up to the closing quote; [skip] counts the
   characters that belong to the escape read last *)
Fixpoint scanstring_loop (s : str) (skip : nat) : res (str * str) :=
  match s with
  | [] => decode_error "Unterminated string starting at"
  | c :: t =>
    match skip with
    | S k => scanstring_loop t k
    | 0 =>
      if Ascii.eqb c dquote then Ok ([], t)
      else if Ascii.eqb c "\" then
        match escape t with
        | Some (bytes, k) => prepend bytes (scanstring_loop t k)
        | None => decode_error "Invalid \escape"
        end
      else if Nat.ltb (code c) 32 then
        decode_error "Invalid control character at"
      else prepend [c] (scanstring_loop t 0)
    end
  end.

(* [scanstring], after the opening quote: the text and what follows the
   closing quote *)
Definition scanstring (s : str) : res (str * str) := scanstring_loop s 0.

Fixpoint span_digits (s : str) : str * str :=
  match s with
  | c :: t =>
      if is_digit c then let (d, r) := span_digits t in (c :: d, r)
      else ([], s)
  | [] => ([], [])
  end.

Definition digits_value (d : str) : Z :=
  fold_left (fun acc c => (acc * 10 + Z.of_nat (code c - 48))%Z) d 0%Z.

(* NUMBER_RE of the decoder: an optional minus sign, then 0 or a digit
   string without leading zero, an optional fraction (a dot and digits) and
   an optional exponent (e or E, an optional sign, digits). *)
Definition sign_part (s : str) : bool * str :=
  match s with
  | c :: t => if Ascii.eqb c "-" then (true, t) else (false, s)
  | [] => (false, s)
  end.

Definition int_part (s : str) : option (str * str) :=
  match s with
  | c :: t =>
      if Ascii.eqb c "0" then Some ([c], t)
      else if is_digit c then let (d, r) := span_digits t in Some (c :: d, r)
      else None
  | [] => None
  end.

Definition frac_part (s : str) : str * str :=
  match s with
  | p :: c :: t =>
      if Ascii.eqb p "." && is_digit c
      then let (d, r) := span_digits t in (p :: c :: d, r)
      else ([], s)
  | _ => ([], s)
  end.

Definition exp_part (s : str) : str * str :=
  match s with
  | e :: u =>
      if Ascii.eqb e "e" || Ascii.eqb e "E" then
        let (sg, u') :=
          match u with
          | c :: u1 =>
              if Ascii.eqb c "+" || Ascii.eqb c "-" then ([c], u1)
              else ([], u)
          | [] => ([], u)
          end in
        match u' with
        | c :: t =>
            if is_digit c
            then let (d, r) := span_digits t in (e :: sg ++ c :: d, r)
            else ([], s)
        | [] => ([], s)
        end
      else ([], s)
  | [] => ([], s)
  end.

(* the sign, the integer digits, the fraction and exponent text, the rest *)
Definition match_number (s : str) : option (bool * str * str * str) :=
  let (neg, s1) := sign_part s in
  match int_part s1 with
  | Some (digits, r1) =>
      let (frac, r2) := frac_part r1 in
      let (ex, r3) := exp_part r2 in
      Some (neg, digits, frac ++ ex, r3)
  | None => None
  end.

(* [int(text)] under the interpreter's digit limit *)
Definition make_int (lim : limits) (neg : bool) (digits : str) : res json :=
  let value := digits_value digits in
  let ok := Ok (JInt (if neg then - value else value)%Z) in
  match int_max_str_digits lim with
  | Some n =>
      if Nat.ltb n (length digits) then
        Raise (mkExc ValueError
          (lit "Exceeds the limit (" ++ of_nat n
           ++ lit " digits) for integer string conversion: value has "
           ++ of_nat (length digits)
           ++ lit " digits; use sys.set_int_max_str_digits() to increase the limit"))
      else ok
  | None => ok
  end.

Fixpoint starts_with (p s : str) : option str :=
  match p, s with
  | [], _ => Some s
  | x :: p', y :: s' => if Ascii.eqb x y then starts_with p' s' else None
  | _ :: _, [] => None
  end.

(* the elements of an array after the opening bracket, up to the closing
   one; [scan_once] reads one value *)
Fixpoint elements (scan_once : str -> res (json * str)) (n : nat) (s : str)
  : res (list json * str) :=
  match n with
  | 0 => Fuel
  | S n' =>
    match scan_once s with
    | Ok (v, s1) =>
      match skip_ws s1 with
      | c :: s2 =>
        if Ascii.eqb c "]" then Ok ([v], s2)
        else if Ascii.eqb c "," then
          match elements scan_once n' (skip_ws s2) with
          | Ok (l, s3) => Ok (v :: l, s3)
          | other => other
          end
        else decode_error "Expecting ',' delimiter"
      | [] => decode_error "Expecting ',' delimiter"
      end
    | Raise e => Raise e
    | Fuel => Fuel
    end
  end.

(* the members of an object, from the first key to the closing brace *)
Fixpoint members (scan_once : str -> res (json * str)) (n : nat) (s : str)
  (d : list (str * json)) : res (json * str) :=
  match n with
  | 0 => Fuel
  | S n' =>
    match s with
    | q :: s1 =>
      if Ascii.eqb q dquote then
        match scanstring s1 with
        | Ok (key, s2) =>
          match skip_ws s2 with
          | colon :: s3 =>
            if Ascii.eqb colon ":" then
              match scan_once (skip_ws s3) with
              | Ok (v, s4) =>
                let d' := dict_set key v d in
                match skip_ws s4 with
                | c :: s5 =>
                  if Ascii.eqb c "}" then Ok (JObject d', s5)
                  else if Ascii.eqb c "," then
                    members scan_once n' (skip_ws s5) d'
                  else decode_error "Expecting ',' delimiter"
                | [] => decode_error "Expecting ',' delimiter"
                end
              | other => other
              end
            else decode_error "Expecting ':' delimiter"
          | [] => decode_error "Expecting ':' delimiter"
          end
        | Raise e => Raise e
        | Fuel => Fuel
        end
      else decode_error "Expecting property name enclosed in double quotes"
    | [] => decode_error "Expecting property name enclosed in double quotes"
    end
  end.

(* the constants null, true, false and the numbers *)
Definition scan_atom (lim : limits) (s : str) : res (json * str) :=
  match starts_with (lit "null") s, starts_with (lit "true") s,
        starts_with (lit "false") s with
  | Some rest, _, _ => Ok (JNull, rest)
  | _, Some rest, _ => Ok (JBool true, rest)
  | _, _, Some rest => Ok (JBool false, rest)
  | None, None, None =>
    match match_number s with
    | Some (neg, digits, [], rest) =>
      match make_int lim neg digits with
      | Ok v => Ok (v, rest)
      | Raise e => Raise e
      | Fuel => Fuel
      end
    | Some (neg, digits, tail, rest) =>
      Ok (JFloat ((if neg then ["-"] else []) ++ digits ++ tail), rest)
    | None =>
      match starts_with (lit "NaN") s, starts_with (lit "Infinity") s,
            starts_with (lit "-Infinity") s with
      | Some rest, _, _ => Ok (JFloat (lit "NaN"), rest)
      | _, Some rest, _ => Ok (JFloat (lit "Infinity"), rest)
      | _, _, Some rest => Ok (JFloat (lit "-Infinity"), rest)
      | None, None, None => decode_error "Expecting value"
      end
    end
  end.

(* [scan_once]: one value at the head of [s] and the text after it.
   [depth] is the nesting of arrays and objects still allowed; every array
   and every object inside another takes one level. *)
Fixpoint scan (lim : limits) (depth : nat) (s : str) : res (json * str) :=
  match s with
  | [] => decode_error "Expecting value"
  | c :: t =>
    if Ascii.eqb c dquote then
      match scanstring t with
      | Ok (text, rest) => Ok (JString text, rest)
      | Raise e => Raise e
      | Fuel => Fuel
      end
    else if Ascii.eqb c "{" then
      match depth with
      | 0 => recursion_error "object"
      | S depth' =>
        match skip_ws t with
        | c' :: rest =>
          if Ascii.eqb c' "}" then Ok (JObject [], rest)
          else members (scan lim depth') (S (length t)) (c' :: rest) []
        | [] => decode_error
                  "Expecting property name enclosed in double quotes"
        end
      end
    else if Ascii.eqb c "[" then
      match depth with
      | 0 => recursion_error "array"
      | S depth' =>
        match skip_ws t with
        | c' :: rest =>
          if Ascii.eqb c' "]" then Ok (JArray [], rest)
          else
            match elements (scan lim depth') (S (length t)) (c' :: rest)
            with
            | Ok (l, rest') => Ok (JArray l, rest')
            | Raise e => Raise e
            | Fuel => Fuel
            end
        | [] => decode_error "Expecting value"
        end
      end
    else scan_atom lim s
  end.

(* [json.loads(s)] for a [str] argument *)
Definition loads (lim : limits) (s : str) : res json :=
  match starts_with (of_codes [239; 187; 191]) s with
  | Some _ => decode_error "Unexpected UTF-8 BOM (decode using utf-8-sig)"
  | None =>
    match scan lim (recursion_limit lim) (skip_ws s) with
    | Ok (v, rest) =>
      match skip_ws rest with
      | [] => Ok v
      | _ => decode_error "Extra data"
      end
    | Raise e => Raise e
    | Fuel => Fuel
    end
  end.

End Json.
Import Json.

(** ** src/models/data_models.py *)

Module Models.

Inductive SeverityLevel := LOW | MEDIUM | HIGH | CRITICAL.

Definition SeverityLevel_members : list SeverityLevel :=
  [LOW; MEDIUM; HIGH; CRITICAL].

Definition SeverityLevel_value (s : SeverityLevel) : str :=
  match s with
  | LOW => lit "LOW"
  | MEDIUM => lit "MEDIUM"
  | HIGH => lit "HIGH"
  | CRITICAL => lit "CRITICAL"
  end.

Definition SeverityLevel_eqb (a b : SeverityLevel) : bool :=
  match a, b with
  | LOW, LOW | MEDIUM, MEDIUM | HIGH, HIGH | CRITICAL, CRITICAL => true
  | _, _ => false
  end.

(* [SeverityLevel(value)]: the member with that value, or ValueError *)
Definition SeverityLevel_of_value (v : str) : M SeverityLevel :=
  match List.find (fun s => Str.eqb (SeverityLevel_value s) v)
          SeverityLevel_members with
  | Some s => ret s
  | None =>
      raise (mkExc ValueError
               (lit "'" ++ v ++ lit "' is not a valid SeverityLevel"))
  end.

Inductive LanguageType :=
| CSHARP | REACT_TYPESCRIPT | REACT_JAVASCRIPT | JAVA | UNKNOWN.

(* the members in the order of declaration, as [for lang in LanguageType]
   visits them *)
Definition LanguageType_members : list LanguageType :=
  [CSHARP; REACT_TYPESCRIPT; REACT_JAVASCRIPT; JAVA; UNKNOWN].

Definition LanguageType_value (l : LanguageType) : str :=
  match l with
  | CSHARP => lit "csharp"
  | REACT_TYPESCRIPT => lit "react_typescript"
  | REACT_JAVASCRIPT => lit "react_javascript"
  | JAVA => lit "java"
  | UNKNOWN => lit "unknown"
  end.

Definition LanguageType_eqb (a b : LanguageType) : bool :=
  match a, b with
  | CSHARP, CSHARP | REACT_TYPESCRIPT, REACT_TYPESCRIPT
  | REACT_JAVASCRIPT, REACT_JAVASCRIPT | JAVA, JAVA | UNKNOWN, UNKNOWN => true
  | _, _ => false
  end.

Record SecurityIssue := {
  id : str;
  title : str;
  description : str;
  severity : SeverityLevel;
  line_number : option Z;
  column_number : option Z;
  file_path : option str;
  code_snippet : option str;
  remediation : option str;
  references : option (list str)
}.

(* values of the metadata dictionary *)
Inductive meta := MInt (n : nat) | MStr (s : str).

Record AnalysisResult := {
  language : LanguageType;
  issues : list SecurityIssue;
  summary : str;
  analysis_metadata : list (str * meta)
}.

(** *** Field validation of [SecurityIssue(...)] (pydantic 2, lax mode).
    The arguments are Python values, written as [json]: [JNull] is [None]. *)

Definition validation_error {A} (field : string) (m : string) : M A :=
  raise (mkExc ValidationError
    (lit "1 validation error for SecurityIssue" ++ [nl] ++ lit field
     ++ [nl] ++ lit "  " ++ lit m)).

(* a field of type [str] *)
Definition field_str (field : string) (v : json) : M str :=
  match v with
  | JString s => ret s
  | _ => validation_error field "Input should be a valid string"
  end.

(* a field of type [Optional[str]] *)
Definition field_opt_str (field : string) (v : json) : M (option str) :=
  match v with
  | JNull => ret None
  | JString s => ret (Some s)
  | _ => validation_error field "Input should be a valid string"
  end.

(* a field of type [Optional[int]]; [to_int] is the library's coercion of
   a value other than [None] to [int] *)
Definition field_opt_int (to_int : json -> option Z) (field : string)
  (v : json) : M (option Z) :=
  match v with
  | JNull => ret None
  | _ => match to_int v with
         | Some z => ret (Some z)
         | None => validation_error field "Input should be a valid integer"
         end
  end.

Fixpoint all_str (l : list json) : option (list str) :=
  match l with
  | [] => Some []
  | JString s :: t =>
      match all_str t with
      | Some r => Some (s :: r)
      | None => None
      end
  | _ :: _ => None
  end.

(* a field of type [Optional[List[str]]] *)
Definition field_opt_list_str (field : string) (v : json)
  : M (option (list str)) :=
  match v with
  | JNull => ret None
  | JArray l =>
      match all_str l with
      | Some r => ret (Some r)
      | None => validation_error field "Input should be a valid string"
      end
  | _ => validation_error field "Input should be a valid list"
  end.

(* [SecurityIssue(id=..., ...)] *)
Definition SecurityIssue_new (to_int : json -> option Z)
  (id_ title_ description_ : json) (severity_ : SeverityLevel)
  (line_number_ column_number_ file_path_ code_snippet_ remediation_
     references_ : json) : M SecurityIssue :=
  (i <- field_str "id" id_ ;;
   t <- field_str "title" title_ ;;
   d <- field_str "description" description_ ;;
   ln <- field_opt_int to_int "line_number" line_number_ ;;
   cn <- field_opt_int to_int "column_number" column_number_ ;;
   fp <- field_opt_str "file_path" file_path_ ;;
   cs <- field_opt_str "code_snippet" code_snippet_ ;;
   rm <- field_opt_str "remediation" remediation_ ;;
   rf <- field_opt_list_str "references" references_ ;;
   ret {| id := i; title := t; description := d; severity := severity_;
          line_number := ln; column_number := cn; file_path := fp;
          code_snippet := cs; remediation := rm; references := rf |})%py.

End Models.
Import Models.

(** ** src/services/language_detector.py *)

Module LanguageDetector.

Definition EXTENSION_MAP : list (str * LanguageType) :=
  [ (lit ".cs", CSHARP);
    (lit ".tsx", REACT_TYPESCRIPT);
    (lit ".ts", REACT_TYPESCRIPT);
    (lit ".jsx", REACT_JAVASCRIPT);
    (lit ".js", REACT_JAVASCRIPT);
    (lit ".java", JAVA) ].

(* the signature patterns, as the raw strings of the source *)
Definition LANGUAGE_PATTERNS : list (LanguageType * list str) :=
  [ (CSHARP,
     [ lit "\busing\s+System\b";
       lit "\bnamespace\s+\w+";
       lit "\bpublic\s+class\s+\w+";
       lit "\bprivate\s+\w+\s+\w+\s*\{";
       lit "\[assembly:\s*\w+\]" ]);
    (REACT_TYPESCRIPT,
     [ lit "\bimport\s+.*\s+from\s+['\" ++ [dquote] ++ lit "]react['\"
         ++ [dquote] ++ lit "]";
       lit "\bexport\s+.*React\.FC";
       lit "\binterface\s+\w+Props";
       lit ":\s*React\.ReactNode";
       lit "<.*>\s*\(.*\)\s*=>\s*\{" ]);
    (REACT_JAVASCRIPT,
     [ lit "\bimport\s+.*\s+from\s+['\" ++ [dquote] ++ lit "]react['\"
         ++ [dquote] ++ lit "]";
       lit "\bexport\s+default\s+function";
       lit "\bReact\.createElement";
       lit "<\w+[^>]*>.*<\/\w+>" ]);
    (JAVA,
     [ lit "\bpackage\s+[a-z][a-z0-9_.]*\s*;";
       lit "\bimport\s+(java|javax|org)\.";
       lit "\bpublic\s+(class|interface|enum)\s+\w+";
       lit "@(Override|Autowired|Entity|Controller|Service|Repository)";
       lit "\b(public|private|protected)\s+(static\s+)?(void|int|String|boolean)\s+\w+\s*\(" ]) ].

(* [file_path.lower().endswith(ext)] for each extension in turn.  No
   character beyond ASCII is lowered to a letter of the six extensions, so
   the ASCII mapping [lower] decides the test. *)
Definition _detect_by_extension (file_path : str) : LanguageType :=
  match List.find (fun '(ext, _) => endswith (lower file_path) ext)
          EXTENSION_MAP with
  | Some (_, lang) => lang
  | None => UNKNOWN
  end.

(* [scores[lang] += 1] *)
Definition incr (scores : list (LanguageType * nat)) (lang : LanguageType)
  : list (LanguageType * nat) :=
  map (fun '(l, n) => if LanguageType_eqb l lang then (l, S n) else (l, n))
      scores.

(* [max(items, key=lambda x: x[1])]: the first item with the greatest key *)
Definition max_by_score (first : LanguageType * nat)
  (others : list (LanguageType * nat)) : LanguageType * nat :=
  fold_left (fun best x => if Nat.ltb (snd best) (snd x) then x else best)
            others first.

(* the detector object, with what its methods take from the interpreter:
   [search_unicode pattern code] is the truth value of
   [re.search(pattern, code, re.MULTILINE)] for a code that holds
   characters beyond ASCII, where [\w], [\s] and [\b] follow the Unicode
   database *)
Record Detector := { search_unicode : str -> str -> bool }.

(* [re.search(pattern, code, re.MULTILINE)] as a truth value; on ASCII
   code the classes of [re] are those of module [Re] *)
Definition re_search (self : Detector) (pattern code : str) : bool :=
  if isascii code then Re.search (Re.pattern pattern) code Re.MULTILINE
  else search_unicode self pattern code.

Definition _detect_by_patterns (self : Detector) (code : str)
  : LanguageType :=
  let scores :=
    map (fun lang => (lang, 0))
        (filter (fun lang => negb (LanguageType_eqb lang UNKNOWN))
                LanguageType_members) in
  let scores :=
    fold_left
      (fun scores '(lang, patterns) =>
         fold_left
           (fun scores pattern =>
              if re_search self pattern code
              then incr scores lang else scores)
           patterns scores)
      LANGUAGE_PATTERNS scores in
  match scores with
  | first :: others =>
      let max_lang := max_by_score first others in
      if Nat.ltb 0 (snd max_lang) then fst max_lang else UNKNOWN
  | [] => UNKNOWN
  end.

Definition detect_language (self : Detector) (code : str)
  (file_path : option str) : LanguageType :=
  match file_path with
  | Some (c :: p) =>                       (* [if file_path:] *)
      let lang := _detect_by_extension (c :: p) in
      if negb (LanguageType_eqb lang UNKNOWN) then lang
      else _detect_by_patterns self code
  | _ => _detect_by_patterns self code
  end.

Definition get_supported_extensions (language : LanguageType) : list str :=
  map fst (filter (fun '(_, lang) => LanguageType_eqb lang language)
                  EXTENSION_MAP).

End LanguageDetector.

(** ** src/services/llm_service.py *)

Module LLMService.

(* [json.loads]; the decoder never runs out of fuel, see [loads_has_fuel] *)
Definition json_loads (lim : limits) (s : str) : M json :=
  match Json.loads lim s with
  | Ok v => ret v
  | Raise e => raise e
  | Fuel => raise (mkExc RecursionError [])
  end.

(* [x if isinstance(x, list) else []] *)
Definition list_or_empty (issues : json) : list json :=
  match issues with
  | JArray l => l
  | _ => []
  end.

Definition parse_llm_response (lim : limits) (response : str)
  : M (list json) :=
  try_except_class JSONDecodeError
    (let json_start := find response "[" in
     let json_end := (rfind response "]" + 1)%Z in
     if ((json_start >=? 0) && (json_end >? json_start))%Z then
       let json_str := slice response json_start json_end in
       (issues <- json_loads lim json_str ;;
        ret (list_or_empty issues))%py
     else
       (issues <- json_loads lim response ;;
        ret (list_or_empty issues))%py)
    (ret []).

(* [analyze_code]: [post] is the round trip to the model, which returns
   [choices[0].message.content] or raises *)
Definition analyze_code (post : str -> M str) (code prompt : str) : M str :=
  let full_prompt :=
    prompt ++ [nl; nl] ++ lit "Code to analyze:" ++ [nl] ++ lit "```" ++ [nl]
    ++ code ++ [nl] ++ lit "```" ++ [nl; nl]
    ++ lit "Provide your analysis as a JSON array of security issues." in
  try_except (post full_prompt)
    (fun e => raise (mkExc OtherException
                       (lit "LLM analysis failed: " ++ exc_str e))).

End LLMService.

(** ** src/analyzers/base_analyzer.py *)

Module BaseAnalyzer.

(* what the interpreter and the libraries supply to one call *)
Record Runtime := {
  rt_limits : limits;
  uuid4_hex : nat -> str;       (* [uuid.uuid4().hex] of the n-th call *)
  to_int : json -> option Z;    (* pydantic's coercion to [int] *)
  upper_unicode : str -> str    (* [run.upper()] for a run of characters
                                   beyond ASCII, see [Str.upper] *)
}.

(* the methods that [analyze] reaches through [self] *)
Record Self := {
  class_name : str;             (* [self.__class__.__name__] *)
  get_language_type : LanguageType;
  get_security_rules_prompt : M str;
  self_preprocess_code : str -> M str;
  self_analyze_code : str -> str -> M str;
  self_parse_llm_response : str -> M (list json);
  self_create_security_issues :
    list json -> option str -> M (list SecurityIssue);
  self_generate_summary : list SecurityIssue -> M str
}.

Definition replace_multiline_comment (m : str) : str :=
  times [nl] (count nl m).

Definition preprocess_code (code : str) : str :=
  let code := Re.sub (Re.pattern (lit "//.*?$")) (fun _ => []) code
                     Re.MULTILINE in
  let code := Re.sub (Re.pattern (lit "/\*.*?\*/")) replace_multiline_comment
                     code Re.DOTALL in
  code.

Definition type_name (v : json) : str :=
  match v with
  | JNull => lit "NoneType"
  | JBool _ => lit "bool"
  | JInt _ => lit "int"
  | JFloat _ => lit "float"
  | JString _ => lit "str"
  | JArray _ => lit "list"
  | JObject _ => lit "dict"
  end.

Definition no_attribute {A} (v : json) (attr : string) : M A :=
  raise (mkExc AttributeError
    (lit "'" ++ type_name v ++ lit "' object has no attribute '"
     ++ lit attr ++ lit "'")).

(* [data.get(key, default)] *)
Definition py_get (data : json) (key : string) (default : json) : M json :=
  match data with
  | JObject d =>
      ret (match dict_get (lit key) d with
           | Some v => v
           | None => default
           end)
  | _ => no_attribute data "get"
  end.

(* [value.upper()] *)
Definition py_upper (rt : Runtime) (v : json) : M str :=
  match v with
  | JString s => ret (upper (upper_unicode rt) s)
  | _ => no_attribute v "upper"
  end.

(* [a or b] for an optional path [a] *)
Definition py_or (a : option str) (b : json) : json :=
  match a with
  | Some (c :: p) => JString (c :: p)
  | _ => b
  end.

(* the severity of a record: [SeverityLevel(severity_str)], and MEDIUM on
   ValueError *)
Definition parse_severity (rt : Runtime) (data : json) : M SeverityLevel :=
  (v <- py_get data "severity" (JString (lit "MEDIUM")) ;;
   severity_str <- py_upper rt v ;;
   match SeverityLevel_of_value severity_str with
   | inr s => ret s
   | inl e => if isinstance e ValueError then ret MEDIUM else raise e
   end)%py.

(* the call [SecurityIssue(...)] of the loop body; [fresh] is the value of
   [uuid.uuid4().hex] at this iteration *)
Definition make_issue (rt : Runtime) (fresh : str) (data : json)
  (severity : SeverityLevel) (file_path : option str) : M SecurityIssue :=
  (id_ <- py_get data "id" (JString (lit "SEC-" ++ firstn 8 fresh)) ;;
   title_ <- py_get data "title" (JString (lit "Security Issue")) ;;
   description_ <- py_get data "description"
                     (JString (lit "No description provided")) ;;
   line_number_ <- py_get data "line_number" JNull ;;
   column_number_ <- py_get data "column_number" JNull ;;
   own_path <- py_get data "file_path" JNull ;;
   code_snippet_ <- py_get data "code_snippet" JNull ;;
   remediation_ <- py_get data "remediation" JNull ;;
   references_ <- py_get data "references" (JArray []) ;;
   SecurityIssue_new (to_int rt) id_ title_ description_ severity
     line_number_ column_number_ (py_or file_path own_path)
     code_snippet_ remediation_ references_)%py.

(* the body of the [try] for one record; the state is the number of
   calls of [uuid.uuid4] made so far *)
Definition convert_record (rt : Runtime) (n : nat) (data : json)
  (file_path : option str) : nat * M SecurityIssue :=
  match parse_severity rt data with
  | inl e => (n, inl e)
  | inr severity =>
      (S n, make_issue rt (uuid4_hex rt n) data severity file_path)
  end.

(* the loop of [_create_security_issues] from the n-th call of uuid4 on *)
Fixpoint create_from (rt : Runtime) (n : nat) (issues_data : list json)
  (file_path : option str) : list SecurityIssue :=
  match issues_data with
  | [] => []
  | data :: rest =>
      match convert_record rt n data file_path with
      | (n', inr issue) => issue :: create_from rt n' rest file_path
      | (n', inl _) => create_from rt n' rest file_path   (* [continue] *)
      end
  end.

Definition _create_security_issues (rt : Runtime) (issues_data : list json)
  (file_path : option str) : list SecurityIssue :=
  create_from rt 0 issues_data file_path.

(* [sum(1 for i in issues if i.severity == level)] *)
Definition count_severity (level : SeverityLevel)
  (issues : list SecurityIssue) : nat :=
  length (filter (fun i => SeverityLevel_eqb (severity i) level) issues).

Definition rule70 : str := times ["="] 70.

Definition completion_text (language : LanguageType) (name : str) : str :=
  [nl; nl] ++ rule70 ++ [nl]
  ++ of_codes [195; 176; 197; 184; 197; 189; 194; 175]
  ++ lit " ANALYSIS COMPLETED SUCCESSFULLY "
  ++ of_codes [195; 176; 197; 184; 197; 189; 194; 175] ++ [nl]
  ++ rule70 ++ [nl]
  ++ lit "Language: " ++ upper_ascii (LanguageType_value language) ++ [nl]
  ++ lit "Analyzer: " ++ name ++ [nl]
  ++ lit "Status: " ++ of_codes [195; 162; 197; 147; 226; 128; 166]
  ++ lit " FINISHED" ++ [nl]
  ++ rule70.

Definition _generate_summary (language : LanguageType) (name : str)
  (issues : list SecurityIssue) : str :=
  let summary :=
    match issues with
    | [] => lit "No security issues detected."
    | _ :: _ =>
        let critical := count_severity CRITICAL issues in
        let high := count_severity HIGH issues in
        let medium := count_severity MEDIUM issues in
        let low := count_severity LOW issues in
        let parts := [] in
        let parts := if Nat.ltb 0 critical
                     then parts ++ [of_nat critical ++ lit " critical"]
                     else parts in
        let parts := if Nat.ltb 0 high
                     then parts ++ [of_nat high ++ lit " high"]
                     else parts in
        let parts := if Nat.ltb 0 medium
                     then parts ++ [of_nat medium ++ lit " medium"]
                     else parts in
        let parts := if Nat.ltb 0 low
                     then parts ++ [of_nat low ++ lit " low"]
                     else parts in
        let severity_text :=
          match parts with
          | [] => lit "0"
          | _ => join (lit ", ") parts
          end in
        lit "Found " ++ of_nat (length issues) ++ lit " security issue(s): "
        ++ severity_text ++ lit " severity."
    end in
  summary ++ completion_text language name.

Definition success_metadata (self : Self) (issues : list SecurityIssue)
  : list (str * meta) :=
  [ (lit "total_issues", MInt (length issues));
    (lit "critical_count", MInt (count_severity CRITICAL issues));
    (lit "high_count", MInt (count_severity HIGH issues));
    (lit "medium_count", MInt (count_severity MEDIUM issues));
    (lit "low_count", MInt (count_severity LOW issues));
    (lit "analyzer", MStr (class_name self));
    (lit "status", MStr (lit "COMPLETED"));
    (lit "completion_message",
     MStr (of_codes [195; 162; 197; 147; 226; 128; 166]
           ++ lit " Analysis finished successfully")) ].

(* the result built by the [except] clause *)
Definition error_result (self : Self) (e : Exception) : AnalysisResult :=
  {| language := get_language_type self;
     issues := [];
     summary := lit "Analysis failed: " ++ exc_str e;
     analysis_metadata :=
       [ (lit "error", MStr (exc_str e));
         (lit "analyzer", MStr (class_name self)) ] |}.

(* the body of the [try] of [analyze] *)
Definition analyze_body (self : Self) (code : str) (file_path : option str)
  : M AnalysisResult :=
  (preprocessed_code <- self_preprocess_code self code ;;
   prompt <- get_security_rules_prompt self ;;
   llm_response <- self_analyze_code self preprocessed_code prompt ;;
   issues_data <- self_parse_llm_response self llm_response ;;
   issues_ <- self_create_security_issues self issues_data file_path ;;
   summary_ <- self_generate_summary self issues_ ;;
   ret {| language := get_language_type self;
          issues := issues_;
          summary := summary_;
          analysis_metadata := success_metadata self issues_ |})%py.

Definition analyze (self : Self) (code : str) (file_path : option str)
  : M AnalysisResult :=
  try_except (analyze_body self code file_path)
             (fun e => ret (error_result self e)).

(* an analyzer that inherits every method from the base class: a subclass
   supplies its name, its language and its rules; [post] is the round trip
   of the model gateway *)
Definition BaseSecurityAnalyzer (rt : Runtime) (post : str -> M str)
  (name : str) (language : LanguageType) (rules : str) : Self :=
  {| class_name := name;
     get_language_type := language;
     get_security_rules_prompt := ret rules;
     self_preprocess_code := fun code => ret (preprocess_code code);
     self_analyze_code := LLMService.analyze_code post;
     self_parse_llm_response := LLMService.parse_llm_response (rt_limits rt);
     self_create_security_issues :=
       fun data path => ret (_create_security_issues rt data path);
     self_generate_summary :=
       fun l => ret (_generate_summary language name l) |}.

End BaseAnalyzer.

(** ** The specification's own words, for comparison with the code *)

Module Spec.

Import LanguageDetector.

(* the signature patterns registered for a language *)
Definition patterns_of (lang : LanguageType) : list str :=
  match List.find (fun '(l, _) => LanguageType_eqb l lang)
          LANGUAGE_PATTERNS with
  | Some (_, patterns) => patterns
  | None => []
  end.

(* "score each language by counting regex-signature hits against code" *)
Definition score (self : Detector) (lang : LanguageType) (code : str)
  : nat :=
  length (filter (fun p => re_search self p code) (patterns_of lang)).

(* the place of a language in the declaration of the enumeration *)
Definition declaration_index (lang : LanguageType) : nat :=
  match lang with
  | CSHARP => 0
  | REACT_TYPESCRIPT => 1
  | REACT_JAVASCRIPT => 2
  | JAVA => 3
  | UNKNOWN => 4
  end.

(* "counts per non-zero severity, highest severity first, joined as
   <n> critical, <n> high, ..., prefixed with total count" *)
Definition severity_word (level : SeverityLevel) : str :=
  lower (SeverityLevel_value level).

Definition highest_first : list SeverityLevel := [CRITICAL; HIGH; MEDIUM; LOW].

Definition counts_text (issues : list SecurityIssue) : str :=
  join (lit ", ")
    (map (fun level =>
            of_nat (BaseAnalyzer.count_severity level issues) ++ lit " "
            ++ severity_word level)
         (filter (fun level =>
                    Nat.ltb 0 (BaseAnalyzer.count_severity level issues))
                 highest_first)).

Definition summary_head (issues : list SecurityIssue) : str :=
  lit "Found " ++ of_nat (length issues) ++ lit " security issue(s): "
  ++ counts_text issues ++ lit " severity.".

(* "attempts to decode ... as JSON": the attempt gives the decoded list,
   and fails when the text does not decode (for whatever reason) or
   decodes to a value that is no list *)
Definition attempt (lim : limits) (text : str) : option (list json) :=
  match LLMService.json_loads lim text with
  | inr (JArray l) => Some l
  | _ => None
  end.

(* "locates the first '[' and the last ']' and attempts to decode that
   substring as a JSON array; if that decode fails, it attempts to decode
   the entire raw text as JSON; if every attempt fails, it returns an empty
   sequence" *)
Definition extraction (lim : limits) (response : str) : list json :=
  let first := find response "[" in
  let last := rfind response "]" in
  let bracketed :=
    if ((first >=? 0) && (last >? first))%Z
    then attempt lim (slice response first (last + 1))
    else None in
  match bracketed with
  | Some l => l
  | None =>
      match attempt lim response with
      | Some l => l
      | None => []
      end
  end.

(* the outcome of [parse_llm_response] on [response] is settled by the
   decoding of [text] alone: the decoded list, the empty list for another
   value and for a text that is not JSON, and the exception of the decoder
   when that is no JSONDecodeError *)
Definition settled_by (lim : limits) (response text : str) : Prop :=
  LLMService.parse_llm_response lim response
  = match LLMService.json_loads lim text with
    | inr v => inr (LLMService.list_or_empty v)
    | inl e => if isinstance e JSONDecodeError then inr [] else inl e
    end.

(* "any exception raised during stages 1-3": the pipeline of [analyze]
   runs up to some stage, and that stage raises [e] *)
Inductive stage_raises (self : BaseAnalyzer.Self) (code : str)
  (file_path : option str) (e : Exception) : Prop :=
| raises_in_preprocess :
    BaseAnalyzer.self_preprocess_code self code = inl e ->
    stage_raises self code file_path e
| raises_in_prompt_lookup : forall preprocessed,
    BaseAnalyzer.self_preprocess_code self code = inr preprocessed ->
    BaseAnalyzer.get_security_rules_prompt self = inl e ->
    stage_raises self code file_path e
| raises_in_gateway : forall preprocessed prompt,
    BaseAnalyzer.self_preprocess_code self code = inr preprocessed ->
    BaseAnalyzer.get_security_rules_prompt self = inr prompt ->
    BaseAnalyzer.self_analyze_code self preprocessed prompt = inl e ->
    stage_raises self code file_path e
| raises_in_parse : forall preprocessed prompt response,
    BaseAnalyzer.self_preprocess_code self code = inr preprocessed ->
    BaseAnalyzer.get_security_rules_prompt self = inr prompt ->
    BaseAnalyzer.self_analyze_code self preprocessed prompt = inr response ->
    BaseAnalyzer.self_parse_llm_response self response = inl e ->
    stage_raises self code file_path e
| raises_in_conversion : forall preprocessed prompt response data,
    BaseAnalyzer.self_preprocess_code self code = inr preprocessed ->
    BaseAnalyzer.get_security_rules_prompt self = inr prompt ->
    BaseAnalyzer.self_analyze_code self preprocessed prompt = inr response ->
    BaseAnalyzer.self_parse_llm_response self response = inr data ->
    BaseAnalyzer.self_create_security_issues self data file_path = inl e ->
    stage_raises self code file_path e
| raises_in_summary : forall preprocessed prompt response data found,
    BaseAnalyzer.self_preprocess_code self code = inr preprocessed ->
    BaseAnalyzer.get_security_rules_prompt self = inr prompt ->
    BaseAnalyzer.self_analyze_code self preprocessed prompt = inr response ->
    BaseAnalyzer.self_parse_llm_response self response = inr data ->
    BaseAnalyzer.self_create_security_issues self data file_path
    = inr found ->
    BaseAnalyzer.self_generate_summary self found = inl e ->
    stage_raises self code file_path e.

End Spec.

(** ** Auxiliary definitions of the proofs *)

Module Aux.

Import LanguageDetector.

(* [scores[lang] += k] *)
Definition add_score (scores : list (LanguageType * nat))
  (lang : LanguageType) (k : nat) : list (LanguageType * nat) :=
  map (fun '(l, n) => if LanguageType_eqb l lang then (l, k + n) else (l, n))
      scores.

(* a reader of one value that never runs out of fuel and never returns
   more text than it was given *)
Definition well_behaved (scan_once : str -> Json.res (json * str)) : Prop :=
  forall s,
    scan_once s <> Json.Fuel
    /\ forall v rest, scan_once s = Json.Ok (v, rest) ->
                      length rest <= length s.

(* the number of calls of uuid4 after the loop has gone through [l] *)
Fixpoint calls_after (rt : BaseAnalyzer.Runtime) (n : nat) (l : list json)
  (file_path : option str) : nat :=
  match l with
  | [] => n
  | data :: rest =>
      calls_after rt (fst (BaseAnalyzer.convert_record rt n data file_path))
                  rest file_path
  end.

End Aux.

(** ** Concrete surroundings for the examples *)

Module Examples.

Import BaseAnalyzer.

(* pydantic's strict rule for [int]: only an integer is one *)
Definition strict_int (v : json) : option Z :=
  match v with
  | JInt z => Some z
  | _ => None
  end.

(* the examples hold ASCII text only: the answers of the interpreter for
   characters beyond ASCII are not consulted *)
Definition example_runtime : Runtime :=
  {| rt_limits := default_limits;
     uuid4_hex := fun n => lit "3f2b8c1d9e4a4b7c8d6e5f4a3b2c1d0e";
     to_int := strict_int;
     upper_unicode := fun run => run |}.

Definition example_detector : LanguageDetector.Detector :=
  {| LanguageDetector.search_unicode := fun _ _ => false |}.

(* "public class " followed by E acute, t, e acute *)
Definition accented_class : str :=
  lit "public class " ++ of_codes [195; 137; 116; 195; 169].

(* a detector that answers on [accented_class] as CPython does: there the
   class name is a run of word characters, and the signatures of a class
   declaration of C# and of Java match *)
Definition accented_detector : LanguageDetector.Detector :=
  {| LanguageDetector.search_unicode := fun pattern code =>
       Str.eqb code accented_class
       && (Str.eqb pattern (lit "\bpublic\s+class\s+\w+")
           || Str.eqb pattern
                (lit "\bpublic\s+(class|interface|enum)\s+\w+")) |}.

(* {"severity": "urgent", "title": [1]} *)
Definition urgent_record : list (str * json) :=
  [ (lit "severity", JString (lit "urgent"));
    (lit "title", JArray [JInt 1]) ].

(* {"title": "SQL injection", "severity": "high", "file_path": "own.cs"} *)
Definition located_record : list (str * json) :=
  [ (lit "title", JString (lit "SQL injection"));
    (lit "severity", JString (lit "high"));
    (lit "file_path", JString (lit "own.cs")) ].

(* {"title": "Weak hash", "severity": "urgent"} *)
Definition vague_record : list (str * json) :=
  [ (lit "title", JString (lit "Weak hash"));
    (lit "severity", JString (lit "urgent")) ].

(* {"title": "Weak hash", "severity": 3} *)
Definition numeric_record : list (str * json) :=
  [ (lit "title", JString (lit "Weak hash"));
    (lit "severity", JInt 3) ].

Definition example_issue (level : SeverityLevel) : SecurityIssue :=
  {| id := lit "SEC-3f2b8c1d";
     title := lit "Security Issue";
     description := lit "No description provided";
     severity := level;
     line_number := None;
     column_number := None;
     file_path := None;
     code_snippet := None;
     remediation := None;
     references := Some [] |}.

(* the round trip to a model that is not running *)
Definition refused (prompt : str) : M str :=
  raise (mkExc OtherException (lit "All connection attempts failed")).

Definition csharp_analyzer_offline : Self :=
  BaseSecurityAnalyzer example_runtime refused
    (lit "CSharpSecurityAnalyzer") CSHARP
    (lit "You are a C# security expert.").

End Examples.

(** ** Notions used by the further properties *)

Module Notions.

(* the keys of a raw record that [_create_security_issues] reads *)
Definition issue_keys : list string :=
  [ "severity"; "id"; "title"; "description"; "line_number";
    "column_number"; "file_path"; "code_snippet"; "remediation";
    "references" ]%string.

Definition is_object (v : json) : bool :=
  match v with
  | JObject _ => true
  | _ => false
  end.

(* [metadata.get(key)] *)
Fixpoint meta_get (key : str) (md : list (str * meta)) : option meta :=
  match md with
  | [] => None
  | (k, v) :: t => if Str.eqb k key then Some v else meta_get key t
  end.

(* the text holds the character [a] directly followed by [b] *)
Fixpoint has_pair (a b : ascii) (s : str) : bool :=
  match s with
  | x :: ((y :: _) as t) =>
      (Ascii.eqb x a && Ascii.eqb y b) || has_pair a b t
  | _ => false
  end.

(* the failures [json.loads] has on a [str]: the text is not JSON, it is
   nested too deep, or an integer exceeds the digit limit, when there is one *)
Definition decoder_failure (lim : limits) (e : Exception) : Prop :=
  exc_class_of e = JSONDecodeError
  \/ exc_class_of e = RecursionError
  \/ (exc_class_of e = ValueError /\ int_max_str_digits lim <> None).

End Notions.

(** ** src/services/llm_service.py: configuration and health check *)

Module LLMSetup.

Import BaseAnalyzer.

(* [os.getenv(name, default)]; [environ] is the environment of the process *)
Definition getenv (environ : str -> option str) (name default : string)
  : str :=
  match environ (lit name) with
  | Some v => v
  | None => lit default
  end.
Arguments getenv environ (name default)%_string.

(* [a or b] for an optional text [a] *)
Definition or_text (a : option str) (b : str) : str :=
  match a with
  | Some (c :: s) => c :: s
  | _ => b
  end.

(* [s.rstrip(c)] for a one-character set *)
Fixpoint rstrip (s : str) (c : ascii) : str :=
  match s with
  | [] => []
  | x :: t =>
      match rstrip t c with
      | [] => if Ascii.eqb x c then [] else [x]
      | r => x :: r
      end
  end.

Record LLMService := { base_url : str; model : str; api_key : str }.

(* the value of [base_url] before the trailing slashes are removed *)
Definition configured_url (environ : str -> option str)
  (base_url_ : option str) : str :=
  or_text base_url_ (getenv environ "LMSTUDIO_BASE_URL" "http://localhost:1234").

Definition __init__ (environ : str -> option str)
  (base_url_ model_ api_key_ : option str) : LLMService :=
  {| base_url := rstrip (configured_url environ base_url_) "/";
     model := or_text model_
                (getenv environ "LMSTUDIO_MODEL" "qwen/qwen3-coder-30b");
     api_key := or_text api_key_ (getenv environ "LMSTUDIO_API_KEY" "") |}.

(* the dictionary that [health_check] returns: the keys of its two
   literals, an absent key being [None] *)
Record Health := {
  status : str;
  available : bool;
  models : option json;
  error : option str;
  health_base_url : str
}.

Definition models_url (self : LLMService) : str :=
  base_url self ++ lit "/v1/models".

(* [health_check]: [http_get url] stands for [client.get(url)],
   [raise_for_status()] and [response.json()] *)
Definition health_check (self : LLMService) (http_get : str -> M json)
  : M Health :=
  try_except
    (models_ <- http_get (models_url self) ;;
     data <- py_get models_ "data" (JArray []) ;;
     ret {| status := lit "healthy";
            available := true;
            models := Some data;
            error := None;
            health_base_url := base_url self |})%py
    (fun e =>
       ret {| status := lit "unhealthy";
              available := false;
              models := None;
              error := Some (exc_str e);
              health_base_url := base_url self |}).

End LLMSetup.

(** ** src/AeyeGuard_mcp.py *)

Module AnalysisRequest.

Record t := {
  code : str;
  file_path : option str;
  language : option str
}.

End AnalysisRequest.

Module AnalysisResponse.

Record t := {
  language : str;
  summary : str;
  issues : list (list (str * json));
  metadata : list (str * meta);
  completion_status : str
}.

End AnalysisResponse.

Module HealthCheckResponse.

Record t := {
  service : str;
  version : str;
  status : str;
  llm_service : LLMSetup.Health;
  supported_languages : list str
}.

End HealthCheckResponse.

Module LanguageInfo.

Record t := {
  language : str;
  description : str;
  extensions : list str;
  analyzer_available : bool
}.

End LanguageInfo.

Module Service.

Import LanguageDetector BaseAnalyzer.

(* fastapi's HTTPException; [detail] is a text or a dictionary *)
Record HTTPException := { status_code : nat; detail : json }.

(* what the body of a method raises: an HTTPException or another
   exception *)
Inductive raised := Http (h : HTTPException) | Other (e : Exception).

Definition H (A : Type) : Type := (raised + A)%type.

Definition hret {A} (a : A) : H A := inr a.
Definition hraise {A} (status : nat) (detail_ : str) : H A :=
  inl (Http {| status_code := status; detail := JString detail_ |}).
Definition lift {A} (m : M A) : H A :=
  match m with
  | inl e => inl (Other e)
  | inr a => inr a
  end.
Definition hbind {A B} (m : H A) (f : A -> H B) : H B :=
  match m with
  | inl r => inl r
  | inr a => f a
  end.

(* [try: body  except HTTPException: raise
    except Exception as e: raise handler(e)] *)
Definition try_reraise {A} (body : H A) (handler : Exception -> HTTPException)
  : HTTPException + A :=
  match body with
  | inr a => inr a
  | inl (Http h) => inl h
  | inl (Other e) => inl (handler e)
  end.

(* [LanguageType(value)]: the member with that value, or ValueError *)
Definition LanguageType_of_value (v : str) : M LanguageType :=
  match List.find (fun l => Str.eqb (LanguageType_value l) v)
          LanguageType_members with
  | Some l => ret l
  | None =>
      raise (mkExc ValueError
               (lit "'" ++ v ++ lit "' is not a valid LanguageType"))
  end.

(* the service object; [host] and [port] are the values read from the
   environment *)
Record SecurityAnalyzerMCP := {
  server_name : str;
  server_version : str;
  host : str;
  port : Z;
  llm_service : LLMSetup.LLMService;
  language_detector : Detector;
  analyzers : list (LanguageType * Self)
}.

(* what surrounds the service: the environment of the process, the
   conversion [int(text)], the interpreter ([runtime], and [re_unicode],
   the answers of [re.search] on code with characters beyond ASCII), and
   the two round trips to the model server *)
Record World := {
  environ : str -> option str;
  int_of_text : str -> M Z;
  runtime : Runtime;
  re_unicode : str -> str -> bool;
  post : str -> M str;
  http_get : str -> M json
}.

(* [__init__]; [rules] gives the text that [get_security_rules_prompt]
   returns in the analyzer of each language.  JavaSecurityAnalyzer
   overrides [preprocess_code] with the body of the base class. *)
Definition __init__ (w : World) (rules : LanguageType -> str)
  : M SecurityAnalyzerMCP :=
  (let server_name_ :=
     LLMSetup.getenv (environ w) "MCP_SERVER_NAME" "aeyeguard_mcp" in
   let server_version_ :=
     LLMSetup.getenv (environ w) "MCP_SERVER_VERSION" "1.0.0" in
   let host_ := LLMSetup.getenv (environ w) "MCP_HOST" "0.0.0.0" in
   port_ <- int_of_text w (LLMSetup.getenv (environ w) "MCP_PORT" "8000") ;;
   let llm := LLMSetup.__init__ (environ w) None None None in
   let analyzer name lang :=
     BaseSecurityAnalyzer (runtime w) (post w) name lang (rules lang) in
   ret {| server_name := server_name_;
          server_version := server_version_;
          host := host_;
          port := port_;
          llm_service := llm;
          language_detector := {| search_unicode := re_unicode w |};
          analyzers :=
            [ (CSHARP, analyzer (lit "CSharpSecurityAnalyzer") CSHARP);
              (REACT_TYPESCRIPT,
               analyzer (lit "ReactTypeScriptAnalyzer") REACT_TYPESCRIPT);
              (REACT_JAVASCRIPT,
               analyzer (lit "ReactJavaScriptAnalyzer") REACT_JAVASCRIPT);
              (JAVA, analyzer (lit "JavaSecurityAnalyzer") JAVA) ] |})%py.

(* [self.analyzers.get(lang)] *)
Fixpoint analyzer_of (lang : LanguageType) (d : list (LanguageType * Self))
  : option Self :=
  match d with
  | [] => None
  | (l, a) :: t =>
      if LanguageType_eqb l lang then Some a else analyzer_of lang t
  end.

Definition opt_json {A} (f : A -> json) (o : option A) : json :=
  match o with
  | Some a => f a
  | None => JNull
  end.

(* the dictionary made of one issue *)
Definition issue_dict (issue : SecurityIssue) : list (str * json) :=
  [ (lit "id", JString (id issue));
    (lit "title", JString (title issue));
    (lit "description", JString (description issue));
    (lit "severity", JString (SeverityLevel_value (severity issue)));
    (lit "line_number", opt_json JInt (line_number issue));
    (lit "column_number", opt_json JInt (column_number issue));
    (lit "file_path", opt_json JString (Models.file_path issue));
    (lit "code_snippet", opt_json JString (code_snippet issue));
    (lit "remediation", opt_json JString (remediation issue));
    (lit "references",
     opt_json (fun l => JArray (map JString l)) (references issue)) ].

Definition finished_successfully : str :=
  of_codes [226; 156; 133] ++ lit " ANALYSIS FINISHED SUCCESSFULLY".

(* the response made of the result of an analyzer *)
Definition response_of (result : AnalysisResult) : AnalysisResponse.t :=
  {| AnalysisResponse.language := LanguageType_value (Models.language result);
     AnalysisResponse.summary := Models.summary result;
     AnalysisResponse.issues := map issue_dict (Models.issues result);
     AnalysisResponse.metadata := analysis_metadata result;
     AnalysisResponse.completion_status := finished_successfully |}.

Definition unable_to_detect : str :=
  lit "Unable to detect language or unsupported language type.".

(* is [request.language == 'auto' or not request.language] true? *)
Definition wants_detection (language : option str) : bool :=
  match language with
  | Some (c :: s) => Str.eqb (c :: s) (lit "auto")
  | _ => true
  end.

Definition resolve_language (self : SecurityAnalyzerMCP)
  (request : AnalysisRequest.t) : H LanguageType :=
  if wants_detection (AnalysisRequest.language request) then
    hret (detect_language (language_detector self)
            (AnalysisRequest.code request)
            (AnalysisRequest.file_path request))
  else
    match AnalysisRequest.language request with
    | Some hint =>
        match LanguageType_of_value hint with
        | inr lang => hret lang
        | inl e =>
            if isinstance e ValueError then hret UNKNOWN else inl (Other e)
        end
    | None => hret UNKNOWN
    end.

Definition analyze_security (self : SecurityAnalyzerMCP)
  (request : AnalysisRequest.t) : HTTPException + AnalysisResponse.t :=
  try_reraise
    (hbind (resolve_language self request) (fun detected_lang =>
     if LanguageType_eqb detected_lang UNKNOWN then
       hraise 400 unable_to_detect
     else
       match analyzer_of detected_lang (analyzers self) with
       | None =>
           hraise 400 (lit "No analyzer available for "
                       ++ LanguageType_value detected_lang)
       | Some analyzer =>
           hbind (lift (analyze analyzer (AnalysisRequest.code request)
                          (AnalysisRequest.file_path request)))
                 (fun result => hret (response_of result))
       end))
    (fun e => {| status_code := 500;
                 detail := JString (lit "Analysis failed: " ++ exc_str e) |}).

(* [[lang.value for lang in LanguageType if lang != LanguageType.UNKNOWN]] *)
Definition known_languages : list LanguageType :=
  filter (fun lang => negb (LanguageType_eqb lang UNKNOWN))
         LanguageType_members.

Definition health_check (self : SecurityAnalyzerMCP) (w : World)
  : HTTPException + HealthCheckResponse.t :=
  match
    (llm_health <- LLMSetup.health_check (llm_service self) (http_get w) ;;
     let status_ := if LLMSetup.available llm_health
                    then lit "healthy" else lit "degraded" in
     ret {| HealthCheckResponse.service := server_name self;
            HealthCheckResponse.version := server_version self;
            HealthCheckResponse.status := status_;
            HealthCheckResponse.llm_service := llm_health;
            HealthCheckResponse.supported_languages :=
              map LanguageType_value known_languages |})%py
  with
  | inr r => inr r
  | inl e =>
      inl {| status_code := 503;
             detail := JObject
               [ (lit "service", JString (server_name self));
                 (lit "version", JString (server_version self));
                 (lit "status", JString (lit "unhealthy"));
                 (lit "error", JString (exc_str e)) ] |}
  end.

(* [s.replace(a, b)] for one-character [a] and [b] *)
Definition replace (s : str) (a b : ascii) : str :=
  map (fun c => if Ascii.eqb c a then b else c) s.

Definition is_cased (c : ascii) : bool := is_upper c || is_lower c.

(* [s.title()] on ASCII text: a letter is put in upper case when the
   character before it is no letter, in lower case otherwise *)
Fixpoint title_from (previous_is_cased : bool) (s : str) : str :=
  match s with
  | [] => []
  | c :: t =>
      (if previous_is_cased then lower_char c else upper_char c)
      :: title_from (is_cased c) t
  end.

Definition title (s : str) : str := title_from false s.

Definition list_supported_languages (self : SecurityAnalyzerMCP)
  : list LanguageInfo.t :=
  map (fun lang_type =>
         {| LanguageInfo.language := LanguageType_value lang_type;
            LanguageInfo.description :=
              title (replace (LanguageType_value lang_type) "_" " ")
              ++ lit " Security Analysis";
            LanguageInfo.extensions := get_supported_extensions lang_type;
            LanguageInfo.analyzer_available :=
              match analyzer_of lang_type (analyzers self) with
              | Some _ => true
              | None => false
              end |})
      known_languages.

(** *** The handlers of the routes; [service_instance] is the global that
    [lifespan] sets *)

Definition not_initialized : HTTPException :=
  {| status_code := 503; detail := JString (lit "Service not initialized") |}.

Definition health (service_instance : option SecurityAnalyzerMCP) (w : World)
  : HTTPException + HealthCheckResponse.t :=
  match service_instance with
  | None => inl not_initialized
  | Some s => health_check s w
  end.

Definition analyze (service_instance : option SecurityAnalyzerMCP)
  (request : AnalysisRequest.t) : HTTPException + AnalysisResponse.t :=
  match service_instance with
  | None => inl not_initialized
  | Some s => analyze_security s request
  end.

Definition languages (service_instance : option SecurityAnalyzerMCP)
  : HTTPException + list LanguageInfo.t :=
  match service_instance with
  | None => inl not_initialized
  | Some s => inr (list_supported_languages s)
  end.

(* the values that the schema of [mcp_tools] allows for [language] *)
Definition mcp_tools_language_enum : list str :=
  [ lit "auto"; lit "csharp"; lit "react_typescript";
    lit "react_javascript"; lit "java" ].

End Service.

(** ** Concrete surroundings for the examples of the service *)

Module ServiceExamples.

Import BaseAnalyzer Examples Service.

(* no variable is set, the model server is not running *)
Definition offline_world : World :=
  {| environ := fun _ => None;
     int_of_text := fun _ => ret 8000%Z;
     runtime := example_runtime;
     re_unicode := fun _ _ => false;
     post := refused;
     http_get := fun _ =>
       raise (mkExc OtherException (lit "All connection attempts failed")) |}.

Definition example_rules (lang : LanguageType) : str :=
  lit "Analyze the following code for security vulnerabilities.".

(* the service that [__init__] builds in [offline_world] *)
Definition offline_service : SecurityAnalyzerMCP :=
  let analyzer name lang :=
    BaseSecurityAnalyzer example_runtime refused name lang
      (example_rules lang) in
  {| server_name := lit "aeyeguard_mcp";
     server_version := lit "1.0.0";
     host := lit "0.0.0.0";
     port := 8000%Z;
     llm_service :=
       {| LLMSetup.base_url := lit "http://localhost:1234";
          LLMSetup.model := lit "qwen/qwen3-coder-30b";
          LLMSetup.api_key := [] |};
     language_detector := example_detector;
     analyzers :=
       [ (CSHARP, analyzer (lit "CSharpSecurityAnalyzer") CSHARP);
         (REACT_TYPESCRIPT,
          analyzer (lit "ReactTypeScriptAnalyzer") REACT_TYPESCRIPT);
         (REACT_JAVASCRIPT,
          analyzer (lit "ReactJavaScriptAnalyzer") REACT_JAVASCRIPT);
         (JAVA, analyzer (lit "JavaSecurityAnalyzer") JAVA) ] |}.

(* a service whose table of analyzers is empty *)
Definition bare_service : SecurityAnalyzerMCP :=
  {| server_name := lit "aeyeguard_mcp";
     server_version := lit "1.0.0";
     host := lit "0.0.0.0";
     port := 8000%Z;
     llm_service := llm_service offline_service;
     language_detector := example_detector;
     analyzers := [] |}.

(* {"code": "using System;", "file_path": "Program.cs", "language": hint} *)
Definition request_with (hint : option str) : AnalysisRequest.t :=
  {| AnalysisRequest.code := lit "using System;";
     AnalysisRequest.file_path := Some (lit "Program.cs");
     AnalysisRequest.language := hint |}.

End ServiceExamples.

(** * Properties *)

(** ** Text *)

Section StrFacts.

Lemma str_eqb_eq (a b : str) : Str.eqb a b = true <-> a = b.
Proof.
  revert b; induction a as [|x a IH]; intros [|y b]; simpl;
    try (split; [discriminate | intros H; inversion H]); try tauto.
  rewrite andb_true_iff, Ascii.eqb_eq, IH.
  split; [intros [-> ->]; reflexivity | intros H; inversion H; auto].
Qed.

Lemma str_eqb_refl (a : str) : Str.eqb a a = true.
Proof. apply str_eqb_eq; reflexivity. Qed.

Lemma count_nil (c : ascii) : count c [] = 0.
Proof. reflexivity. Qed.

Lemma count_app (c : ascii) (a b : str) :
  count c (a ++ b) = count c a + count c b.
Proof. unfold count; rewrite filter_app, length_app; reflexivity. Qed.

Lemma count_cons (c x : ascii) (a : str) :
  count c (x :: a) = count c [x] + count c a.
Proof. apply (count_app c [x] a). Qed.

Lemma count_zero_iff (c : ascii) (a : str) : count c a = 0 <-> ~ In c a.
Proof.
  induction a as [|x a IH]; simpl.
  - split; auto.
  - rewrite count_cons; unfold count at 1; simpl.
    destruct (Ascii.eqb c x) eqn:E; simpl.
    + apply Ascii.eqb_eq in E; subst; split; [discriminate | intros H; elim H; auto].
    + apply Ascii.eqb_neq in E; rewrite IH; split.
      * intros H [G | G]; [congruence | auto].
      * intros H G; apply H; auto.
Qed.

Lemma count_times_nl (n : nat) : count nl (times [nl] n) = n.
Proof.
  induction n as [|n IH]; [reflexivity|].
  change (times [nl] (S n)) with ([nl] ++ times [nl] n).
  rewrite count_app, IH; reflexivity.
Qed.

(* a suffix test amounts to a decomposition of the text *)
Lemma endswith_iff (s suffix : str) :
  endswith s suffix = true <-> exists pre, s = pre ++ suffix.
Proof.
  unfold endswith; rewrite andb_true_iff, Nat.leb_le, str_eqb_eq; split.
  - intros [Hle Heq]; exists (firstn (length s - length suffix) s).
    rewrite <- Heq at 2; symmetry; apply firstn_skipn.
  - intros [pre ->]; rewrite length_app; split; [lia|].
    replace (length pre + length suffix - length suffix) with (length pre)
      by lia.
    rewrite skipn_app, skipn_all, Nat.sub_diag; reflexivity.
Qed.

Lemma endswith_rev (s suffix : str) :
  endswith s suffix = true -> exists t, List.rev s = List.rev suffix ++ t.
Proof.
  intros H; apply endswith_iff in H; destruct H as [pre ->].
  exists (List.rev pre); apply rev_app_distr.
Qed.

End StrFacts.

(** ** Matching *)

Section ReFacts.

Import Re.

Variable fl : flags.

(* a successful run hands the continuation a suffix of the subject, and
   a pattern that is [nl_free] has consumed no line feed before it *)
Lemma run_consumes (r : re) :
  forall prev s k res,
    run fl r prev s k = Some res ->
    exists c p' s',
      s = c ++ s' /\ k p' s' = Some res
      /\ (nl_free fl r = true -> ~ In nl c).
Proof.
  induction r as [| c0 | | neg items | | | | a IHa b IHb | a IHa b IHb
                 | greedy a IHa]; intros prev s k res H;
    [simpl in H .. | ].
  - exists [], prev, s; auto.
  - destruct s as [|x t]; [discriminate|].
    destruct (Ascii.eqb x c0) eqn:E; [|discriminate].
    exists [x], (Some x), t; repeat split; auto.
    simpl; intros Hn [G | []]; apply Ascii.eqb_eq in E; subst.
    rewrite Ascii.eqb_refl in Hn; discriminate.
  - destruct s as [|x t]; [discriminate|].
    destruct (dotall fl || negb (Ascii.eqb x nl)) eqn:E; [|discriminate].
    exists [x], (Some x), t; repeat split; auto.
    simpl; intros Hn [G | []]; subst.
    rewrite Ascii.eqb_refl in E; destruct (dotall fl); discriminate.
  - destruct s as [|x t]; [discriminate|].
    destruct (xorb neg (in_items x items)) eqn:E; [|discriminate].
    exists [x], (Some x), t; repeat split; auto.
    simpl; intros Hn [G | []]; subst.
    rewrite E in Hn; discriminate.
  - destruct (xorb _ _); [|discriminate]; exists [], prev, s; auto.
  - exists [], prev, s; repeat split; auto.
    destruct prev as [c|]; auto.
    destruct (multiline fl && Ascii.eqb c nl); [auto | discriminate].
  - exists [], prev, s; repeat split; auto.
    destruct s as [|x t]; auto.
    destruct (_ && _); [auto | discriminate].
  - apply IHa in H; destruct H as (c1 & p1 & s1 & -> & H & N1).
    apply IHb in H; destruct H as (c2 & p2 & s2 & -> & H & N2).
    exists (c1 ++ c2), p2, s2; rewrite app_assoc; repeat split; auto.
    simpl; rewrite andb_true_iff; intros [Ha Hb] G.
    apply in_app_or in G; destruct G; [apply N1 | apply N2]; auto.
  - simpl; destruct (run fl a prev s k) eqn:E.
    + apply IHa in E; destruct E as (c1 & p1 & s1 & -> & E & N1).
      exists c1, p1, s1; repeat split; [congruence|].
      rewrite andb_true_iff; intros [Ha _]; auto.
    + apply IHb in H; destruct H as (c1 & p1 & s1 & -> & E' & N1).
      exists c1, p1, s1; repeat split; auto.
      rewrite andb_true_iff; intros [_ Hb]; auto.
  - change (star_loop (run fl a) greedy k (S (length s)) prev s = Some res)
      in H.
    simpl nl_free.
    revert H; generalize (S (length s)) as n; intros n; revert prev s res.
    induction n as [|n IHn]; intros prev s res H; simpl in H.
    + exists [], prev, s; auto.
    + assert (step : forall o res',
        o = run fl a prev s
              (fun p' s' => if Nat.ltb (length s') (length s)
                            then star_loop (run fl a) greedy k n p' s'
                            else None) ->
        o = Some res' ->
        exists c p' s',
          s = c ++ s' /\ k p' s' = Some res'
          /\ (nl_free fl a = true -> ~ In nl c)).
      { intros o res' -> E.
        apply IHa in E; destruct E as (c1 & p1 & s1 & -> & E & N1).
        destruct (Nat.ltb _ _); [|discriminate].
        apply IHn in E; destruct E as (c2 & p2 & s2 & -> & E & N2).
        exists (c1 ++ c2), p2, s2; rewrite app_assoc; repeat split; auto.
        intros Ha G; apply in_app_or in G.
        destruct G; [apply N1 | apply N2]; auto. }
      destruct greedy.
      * match type of H with
        | match ?x with _ => _ end = _ => destruct x eqn:E
        end.
        -- inversion H; subst; apply (step _ _ eq_refl eq_refl).
        -- exists [], prev, s; auto.
      * destruct (k prev s) eqn:E.
        -- inversion H; subst; exists [], prev, s; auto.
        -- apply (step _ _ eq_refl H).
Qed.

Lemma match_here_suffix (r : re) (prev : option ascii) (s rest : str) :
  match_here fl r prev s = Some rest ->
  exists c, s = c ++ rest /\ (nl_free fl r = true -> ~ In nl c).
Proof.
  intros H; apply run_consumes in H.
  destruct H as (c & p' & s' & -> & H & N); inversion H; subst.
  exists c; auto.
Qed.

(* the text that [sub] takes for a match starting at [s] *)
Lemma matched_text (r : re) (prev : option ascii) (s rest : str) :
  match_here fl r prev s = Some rest ->
  exists c, s = c ++ rest /\ firstn (length s - length rest) s = c
            /\ length s - length rest = length c
            /\ (nl_free fl r = true -> ~ In nl c).
Proof.
  intros H; apply match_here_suffix in H; destruct H as (c & -> & N).
  exists c; rewrite length_app.
  replace (length c + length rest - length rest) with (length c) by lia.
  rewrite firstn_app, Nat.sub_diag, firstn_all; simpl.
  rewrite app_nil_r; auto.
Qed.

Lemma sub_loop_cons (r : re) (repl : str -> str) (prev : option ascii)
  (c : ascii) (t : str) :
  sub_loop fl r repl prev (c :: t) 0 =
  match match_here fl r prev (c :: t) with
  | Some rest =>
      repl (firstn (length (c :: t) - length rest) (c :: t))
      ++ match length (c :: t) - length rest with
         | 0 => c :: sub_loop fl r repl (Some c) t 0
         | S n => sub_loop fl r repl (Some c) t n
         end
  | None => c :: sub_loop fl r repl (Some c) t 0
  end.
Proof. reflexivity. Qed.

(* [sub] keeps the number of line feeds when every replacement does *)
Lemma sub_loop_count (r : re) (repl : str -> str) :
  (forall prev s rest,
      match_here fl r prev s = Some rest ->
      count nl (repl (firstn (length s - length rest) s))
      = count nl (firstn (length s - length rest) s)) ->
  forall s prev skip,
    count nl (sub_loop fl r repl prev s skip) + count nl (firstn skip s)
    = count nl s.
Proof.
  intros Hrepl; induction s as [|c t IH]; intros prev skip.
  - destruct skip; simpl; auto.
    destruct (match_here fl r prev []) as [rest|] eqn:E; auto.
    pose proof (Hrepl _ _ _ E) as H.
    apply matched_text in E; destruct E as (m & Hs & Hm & Hl & _).
    rewrite Hm in H.
    symmetry in Hs; apply app_eq_nil in Hs; destruct Hs; subst.
    rewrite H; reflexivity.
  - destruct skip as [|n].
    + rewrite sub_loop_cons, firstn_O, count_nil, Nat.add_0_r.
      destruct (match_here fl r prev (c :: t)) as [rest|] eqn:E.
      * pose proof (Hrepl _ _ _ E) as H.
        rewrite count_app, H.
        destruct (length (c :: t) - length rest) as [|n] eqn:L.
        -- rewrite firstn_O, count_nil.
           rewrite (count_cons nl c (sub_loop _ _ _ _ _ _)).
           rewrite (count_cons nl c t).
           specialize (IH (Some c) 0); rewrite firstn_O, count_nil in IH.
           lia.
        -- rewrite firstn_cons.
           rewrite (count_cons nl c (firstn n t)), (count_cons nl c t).
           specialize (IH (Some c) n); lia.
      * rewrite (count_cons nl c (sub_loop _ _ _ _ _ _)).
        rewrite (count_cons nl c t).
        specialize (IH (Some c) 0); rewrite firstn_O, count_nil in IH; lia.
    + change (sub_loop fl r repl prev (c :: t) (S n))
        with (sub_loop fl r repl (Some c) t n).
      rewrite firstn_cons.
      rewrite (count_cons nl c (firstn n t)), (count_cons nl c t).
      specialize (IH (Some c) n); lia.
Qed.

Lemma sub_count (r : re) (repl : str -> str) (s : str) :
  (forall prev s rest,
      match_here fl r prev s = Some rest ->
      count nl (repl (firstn (length s - length rest) s))
      = count nl (firstn (length s - length rest) s)) ->
  count nl (sub_loop fl r repl None s 0) = count nl s.
Proof.
  intros H; pose proof (sub_loop_count r repl H s None 0) as G.
  rewrite firstn_O, count_nil in G; lia.
Qed.

End ReFacts.

(** ** Preprocessing *)

Section Preprocess.

Import Re BaseAnalyzer.

(* the two patterns of [preprocess_code], as compiled *)
Lemma line_comment_pattern :
  compile (lit "//.*?$")
  = Some (Seq (Chr "/") (Seq (Chr "/") (Seq (Star false Any) Eol))).
Proof. reflexivity. Qed.

Lemma block_comment_pattern :
  compile (lit "/\*.*?\*/")
  = Some (Seq (Chr "/") (Seq (Chr "*") (Seq (Star false Any)
            (Seq (Chr "*") (Chr "/"))))).
Proof. reflexivity. Qed.

(* a line comment never reaches over a line feed *)
Lemma line_comment_no_newline (prev : option ascii) (s rest : str) :
  match_here MULTILINE (pattern (lit "//.*?$")) prev s = Some rest ->
  count nl (firstn (length s - length rest) s) = 0.
Proof.
  intros H; apply matched_text in H.
  destruct H as (m & _ & -> & _ & N).
  apply count_zero_iff, N; reflexivity.
Qed.

(** C8: for every input code text, [preprocess_code], which strips
    single-line and block comments, returns a text with exactly as many
    newline characters as the input. *)
Theorem preprocess_code_preserves_newlines (code : str) :
  count nl (preprocess_code code) = count nl code.
Proof.
  unfold preprocess_code, sub.
  rewrite sub_count.
  - apply sub_count; intros prev s rest H.
    rewrite (line_comment_no_newline prev s rest H); reflexivity.
  - intros prev s rest _; unfold replace_multiline_comment.
    apply count_times_nl.
Qed.

End Preprocess.

(** ** Language detection *)

Section Detection.

Import LanguageDetector Examples.

(* every pattern of the sources is in the modelled fragment of [re] *)
Lemma patterns_compile :
  forallb (fun p => match Re.compile p with
                    | Some _ => true
                    | None => false
                    end)
          (lit "//.*?$" :: lit "/\*.*?\*/"
             :: concat (map snd LANGUAGE_PATTERNS)) = true.
Proof. reflexivity. Qed.

(* two suffixes of one text agree from the end *)
Ltac clash H1 H2 :=
  let t1 := fresh "t" in
  let t2 := fresh "t" in
  let E1 := fresh "E" in
  let E2 := fresh "E" in
  destruct (endswith_rev _ _ H1) as [t1 E1];
  destruct (endswith_rev _ _ H2) as [t2 E2];
  simpl in E1, E2; rewrite E1 in E2; discriminate E2.

Lemma endswith_nonempty (s suffix : str) :
  endswith s suffix = true -> suffix <> [] -> s <> [].
Proof.
  intros H N ->; apply endswith_iff in H; destruct H as [pre H].
  symmetry in H; apply app_eq_nil in H; destruct H; auto.
Qed.

Lemma _detect_by_extension_registered (path ext : str) (lang : LanguageType) :
  In (ext, lang) EXTENSION_MAP ->
  endswith (lower path) ext = true ->
  _detect_by_extension path = lang.
Proof.
  unfold _detect_by_extension, EXTENSION_MAP; intros HIn H.
  simpl in HIn.
  destruct HIn as [HIn | [HIn | [HIn | [HIn | [HIn | [HIn | []]]]]]];
    inversion HIn; subst; clear HIn; cbn [List.find];
    repeat match goal with
           | |- context [endswith ?a ?b] =>
               let E := fresh "E" in
               destruct (endswith a b) eqn:E;
               [ first [ reflexivity | clash E H ]
               | try (unfold lit in *; simpl list_ascii_of_string in *;
                      congruence) ]
           end.
Qed.

(** C4: for every code text and every file path whose suffix, compared
    case-insensitively, is in the extension table, [detect_language]
    returns the language mapped to that extension, whatever the code is. *)
Theorem detect_language_by_extension
  (self : Detector) (code path ext : str) (lang : LanguageType) :
  In (ext, lang) EXTENSION_MAP ->
  endswith (lower path) ext = true ->
  detect_language self code (Some path) = lang.
Proof.
  intros HIn H.
  pose proof (_detect_by_extension_registered path ext lang HIn H) as D.
  assert (Hl : lang <> UNKNOWN).
  { unfold EXTENSION_MAP in HIn; simpl in HIn.
    repeat (destruct HIn as [HIn | HIn];
            [inversion HIn; discriminate|]); contradiction. }
  assert (Hp : path <> []).
  { intros ->; simpl in H.
    unfold EXTENSION_MAP in HIn; simpl in HIn.
    repeat (destruct HIn as [HIn | HIn];
            [inversion HIn; subst; discriminate H|]); contradiction. }
  destruct path as [|c p]; [congruence|].
  unfold detect_language; rewrite D.
  destruct lang; simpl; congruence.
Qed.

Lemma detect_language_by_extension_witness :
  In (lit ".cs", CSHARP) EXTENSION_MAP
  /\ endswith (lower (lit "Users.CS")) (lit ".cs") = true
  /\ detect_language example_detector (lit "import React from 'react'")
       (Some (lit "Users.CS"))
     = CSHARP.
Proof.
  split; [simpl; auto|].
  split; [reflexivity|].
  apply (detect_language_by_extension example_detector _ (lit "Users.CS")
           (lit ".cs") CSHARP).
  - simpl; auto.
  - reflexivity.
Defined.

End Detection.

Section PatternDetection.

Import LanguageDetector Spec Aux Examples.

Lemma add_score_zero scores lang : add_score scores lang 0 = scores.
Proof.
  unfold add_score; rewrite <- (map_id scores) at 2.
  apply map_ext; intros [l n]; destruct (LanguageType_eqb l lang); reflexivity.
Qed.

Lemma add_score_incr scores lang k :
  add_score (incr scores lang) lang k = add_score scores lang (S k).
Proof.
  unfold add_score, incr; rewrite map_map; apply map_ext; intros [l n].
  destruct (LanguageType_eqb l lang) eqn:E; [|rewrite E; reflexivity].
  rewrite E; f_equal; lia.
Qed.

(* the inner loop adds the number of matching patterns *)
Lemma count_patterns (f : str -> bool) lang patterns :
  forall scores,
    fold_left (fun scores pattern =>
                 if f pattern then incr scores lang else scores)
              patterns scores
    = add_score scores lang (length (filter f patterns)).
Proof.
  induction patterns as [|p t IH]; intros scores; simpl.
  - symmetry; apply add_score_zero.
  - rewrite IH; destruct (f p); simpl; [apply add_score_incr | reflexivity].
Qed.

Lemma count_languages (f : str -> bool) table :
  forall scores,
    fold_left
      (fun scores '(lang, patterns) =>
         fold_left (fun scores pattern =>
                      if f pattern then incr scores lang else scores)
                   patterns scores)
      table scores
    = fold_left
        (fun scores '(lang, patterns) =>
           add_score scores lang (length (filter f patterns)))
        table scores.
Proof.
  induction table as [|[lang patterns] t IH]; intros scores; simpl;
    [reflexivity|].
  rewrite count_patterns; apply IH.
Qed.

(* the table of scores at the end of the loops *)
Lemma _detect_by_patterns_scores (self : Detector) (code : str) :
  _detect_by_patterns self code
  = let max_lang :=
      max_by_score (CSHARP, score self CSHARP code + 0)
        [ (REACT_TYPESCRIPT, score self REACT_TYPESCRIPT code + 0);
          (REACT_JAVASCRIPT, score self REACT_JAVASCRIPT code + 0);
          (JAVA, score self JAVA code + 0) ] in
    if Nat.ltb 0 (snd max_lang) then fst max_lang else UNKNOWN.
Proof.
  unfold _detect_by_patterns.
  rewrite (count_languages (fun p => re_search self p code)).
  reflexivity.
Qed.

Lemma detect_language_falls_back (self : Detector) (code : str)
  (file_path : option str) :
  file_path = None
  \/ (exists p, file_path = Some p /\ _detect_by_extension p = UNKNOWN) ->
  detect_language self code file_path = _detect_by_patterns self code.
Proof.
  intros [-> | (p & -> & H)]; [reflexivity|].
  destruct p as [|c p]; [reflexivity|].
  unfold detect_language; rewrite H; reflexivity.
Qed.

(** C5: for every code text with no file path, or with a path whose
    extension is not registered, detection scores each language other than
    Unknown by the number of its signature patterns that match the code.
    When every score is zero the answer is Unknown; otherwise it is a
    language with the highest score, and among the languages with that
    score the one declared first in the enumeration.  A pattern matches
    the code when [re.search] finds it: the statement holds for every code,
    with characters beyond ASCII or without, and for whatever the [re] of
    the interpreter answers on the former. *)
Theorem detect_language_by_patterns
  (self : Detector) (code : str) (file_path : option str) :
  file_path = None
  \/ (exists p, file_path = Some p /\ _detect_by_extension p = UNKNOWN) ->
  let r := detect_language self code file_path in
  ((forall l, l <> UNKNOWN -> score self l code = 0) -> r = UNKNOWN)
  /\ ((exists l, l <> UNKNOWN /\ 0 < score self l code) ->
      r <> UNKNOWN
      /\ (forall l, l <> UNKNOWN -> score self l code <= score self r code)
      /\ (forall l, l <> UNKNOWN ->
                    score self l code = score self r code ->
                    declaration_index r <= declaration_index l)).
Proof.
  intros H r; subst r.
  rewrite (detect_language_falls_back self code file_path H).
  rewrite _detect_by_patterns_scores.
  unfold max_by_score; cbn [fold_left fst snd].
  split.
  - intros Z.
    rewrite (Z CSHARP), (Z REACT_TYPESCRIPT), (Z REACT_JAVASCRIPT), (Z JAVA)
      by discriminate.
    reflexivity.
  - intros (l0 & N0 & P0).
    assert (Hpos : 0 < score self CSHARP code
                   \/ 0 < score self REACT_TYPESCRIPT code
                   \/ 0 < score self REACT_JAVASCRIPT code
                   \/ 0 < score self JAVA code).
    { destruct l0; try congruence; auto. }
    clear l0 N0 P0.
    repeat match goal with
           | |- context [Nat.ltb (?a + 0) (?b + 0)] =>
               destruct (Nat.ltb_spec (a + 0) (b + 0)); cbn [fst snd]
           end;
      match goal with
      | |- context [Nat.ltb 0 ?b] => destruct (Nat.ltb_spec 0 b)
      end;
      try (exfalso; lia);
      (split; [discriminate|]);
      split; intros l Hl; destruct l; try congruence;
      cbn [declaration_index]; lia.
Qed.

Lemma detect_language_by_patterns_witness :
  let code := accented_class in
  let r := detect_language accented_detector code None in
  (exists l, l <> UNKNOWN /\ 0 < score accented_detector l code)
  /\ r = CSHARP
  /\ score accented_detector CSHARP code = 1
  /\ score accented_detector JAVA code = 1
  /\ (forall l, l <> UNKNOWN ->
                score accented_detector l code
                <= score accented_detector r code)
  /\ (forall l, l <> UNKNOWN ->
                score accented_detector l code
                = score accented_detector r code ->
                declaration_index r <= declaration_index l).
Proof.
  intros code r.
  assert (P : exists l, l <> UNKNOWN /\ 0 < score accented_detector l code).
  { exists JAVA; split; [discriminate | vm_compute; lia]. }
  split; [exact P|].
  split; [vm_compute; reflexivity|].
  split; [vm_compute; reflexivity|].
  split; [vm_compute; reflexivity|].
  exact (proj2 (proj2 (detect_language_by_patterns accented_detector code
                         None (or_introl eq_refl))
                  P)).
Defined.

End PatternDetection.

(** ** Conversion of the raw records *)

Section Conversion.

Import BaseAnalyzer Aux Examples.

Lemma bind_inr {A B} (m : M A) (f : A -> M B) (b : B) :
  bind m f = inr b -> exists a, m = inr a /\ f a = inr b.
Proof. destruct m as [e|a]; simpl; [discriminate | eauto]. Qed.

Lemma create_from_app (rt : Runtime) (file_path : option str) l1 l2 :
  forall n,
    create_from rt n (l1 ++ l2) file_path
    = create_from rt n l1 file_path
      ++ create_from rt (calls_after rt n l1 file_path) l2 file_path.
Proof.
  induction l1 as [|data rest IH]; intros n; simpl; [reflexivity|].
  destruct (convert_record rt n data file_path) as [n' [e|issue]]; simpl;
    rewrite IH; reflexivity.
Qed.

(* a value that is not a string has no method [upper] *)
Lemma py_upper_not_string (rt : Runtime) (v : json) :
  (forall s, v <> JString s) ->
  exists e, py_upper rt v = inl e /\ exc_class_of e = AttributeError.
Proof.
  intros H; destruct v; simpl; unfold no_attribute, raise; eauto.
  elim (H s); reflexivity.
Qed.

(** C10: for every raw issue record whose severity field is present but is
    not a string, such as a number or null, the conversion raises while it
    coerces the severity, and the record is dropped from the output without
    a trace: the batch yields what it yields without that record.  No
    MEDIUM issue stands in for it. *)
Theorem non_string_severity_is_dropped
  (rt : Runtime) (before after : list json) (d : list (str * json))
  (v : json) (file_path : option str) :
  dict_get (lit "severity") d = Some v ->
  (forall s, v <> JString s) ->
  (exists e, parse_severity rt (JObject d) = inl e
             /\ exc_class_of e = AttributeError)
  /\ _create_security_issues rt (before ++ JObject d :: after) file_path
     = _create_security_issues rt (before ++ after) file_path.
Proof.
  intros Hget Hv.
  destruct (py_upper_not_string rt v Hv) as (e & He & Hc).
  assert (Hs : parse_severity rt (JObject d) = inl e).
  { unfold parse_severity, py_get; rewrite Hget; simpl; rewrite He.
    reflexivity. }
  split; [eauto|].
  unfold _create_security_issues; rewrite !create_from_app.
  f_equal; simpl; unfold convert_record; rewrite Hs; reflexivity.
Qed.

Lemma non_string_severity_is_dropped_witness :
  dict_get (lit "severity") numeric_record = Some (JInt 3)
  /\ _create_security_issues example_runtime
       ([JObject located_record] ++ JObject numeric_record
          :: [JObject vague_record]) None
     = _create_security_issues example_runtime
         ([JObject located_record] ++ [JObject vague_record]) None.
Proof.
  split; [reflexivity|].
  apply (non_string_severity_is_dropped example_runtime
           [JObject located_record] [JObject vague_record] numeric_record
           (JInt 3) None).
  - reflexivity.
  - discriminate.
Defined.

Lemma SeverityLevel_of_value_unknown (v : str) :
  (forall level, v <> SeverityLevel_value level) ->
  exists e, SeverityLevel_of_value v = inl e /\ exc_class_of e = ValueError.
Proof.
  intros H; unfold SeverityLevel_of_value, SeverityLevel_members.
  cbn [List.find].
  repeat match goal with
         | |- context [Str.eqb ?a v] =>
             let E := fresh "E" in
             destruct (Str.eqb a v) eqn:E;
             [apply str_eqb_eq in E; symmetry in E | ]
         end;
    try (unfold raise; eauto).
  - elim (H LOW); assumption.
  - elim (H MEDIUM); assumption.
  - elim (H HIGH); assumption.
  - elim (H CRITICAL); assumption.
Qed.

Lemma parse_severity_unknown (rt : Runtime) (d : list (str * json))
  (s : str) :
  dict_get (lit "severity") d = Some (JString s) ->
  (forall level, upper (upper_unicode rt) s <> SeverityLevel_value level) ->
  parse_severity rt (JObject d) = inr MEDIUM.
Proof.
  intros Hget Hs; unfold parse_severity, py_get; rewrite Hget; simpl.
  destruct (SeverityLevel_of_value_unknown (upper (upper_unicode rt) s) Hs)
    as (e & -> & Hc).
  unfold isinstance; rewrite Hc; reflexivity.
Qed.

Lemma SecurityIssue_new_severity to_int a b c sev f g h i j k issue :
  SecurityIssue_new to_int a b c sev f g h i j k = inr issue ->
  severity issue = sev.
Proof.
  unfold SecurityIssue_new; intros H.
  repeat (apply bind_inr in H; destruct H as (? & _ & H)).
  inversion H; reflexivity.
Qed.

Lemma make_issue_severity rt fresh data sev file_path issue :
  make_issue rt fresh data sev file_path = inr issue -> severity issue = sev.
Proof.
  unfold make_issue; intros H.
  repeat (apply bind_inr in H; destruct H as (? & _ & H)).
  inversion H; reflexivity.
Qed.

(* writing one key leaves the others as they were *)
Lemma dict_get_set_other (k k' : str) (v : json) (d : list (str * json)) :
  k <> k' -> dict_get k (dict_set k' v d) = dict_get k d.
Proof.
  intros N; induction d as [|[x y] t IH]; simpl.
  - destruct (Str.eqb k' k) eqn:E; [|reflexivity].
    apply str_eqb_eq in E; congruence.
  - destruct (Str.eqb x k') eqn:E1; simpl.
    + apply str_eqb_eq in E1; subst x.
      destruct (Str.eqb k' k) eqn:E2; [|reflexivity].
      apply str_eqb_eq in E2; congruence.
    + destruct (Str.eqb x k); [reflexivity | exact IH].
Qed.

Lemma dict_get_set_same (k : str) (v : json) (d : list (str * json)) :
  dict_get k (dict_set k v d) = Some v.
Proof.
  induction d as [|[x y] t IH]; simpl.
  - rewrite str_eqb_refl; reflexivity.
  - destruct (Str.eqb x k) eqn:E; simpl; rewrite E; [reflexivity | exact IH].
Qed.

(* the call of [SecurityIssue] does not read the severity of the record *)
Lemma make_issue_ignores_severity rt fresh d v sev file_path :
  make_issue rt fresh (JObject (dict_set (lit "severity") v d)) sev file_path
  = make_issue rt fresh (JObject d) sev file_path.
Proof.
  unfold make_issue, py_get.
  rewrite !dict_get_set_other by discriminate.
  reflexivity.
Qed.

(** C7: for every raw issue record whose severity field is a string that
    names none of the four levels once put in upper case, the coercion of
    the severity does not raise: it gives MEDIUM.  The record then fares
    exactly as the same record with the severity "MEDIUM" written out: it
    is never dropped for its severity.  The issue that [SecurityIssue]
    makes of its fields has severity MEDIUM and is kept in the output, the
    rest of the batch following it. *)
Theorem unrecognized_severity_is_medium
  (rt : Runtime) (n : nat) (d : list (str * json)) (s : str)
  (file_path : option str) (rest : list json) :
  dict_get (lit "severity") d = Some (JString s) ->
  (forall level, upper (upper_unicode rt) s <> SeverityLevel_value level) ->
  parse_severity rt (JObject d) = inr MEDIUM
  /\ convert_record rt n (JObject d) file_path
     = convert_record rt n
         (JObject (dict_set (lit "severity") (JString (lit "MEDIUM")) d))
         file_path
  /\ create_from rt n (JObject d :: rest) file_path
     = create_from rt n
         (JObject (dict_set (lit "severity") (JString (lit "MEDIUM")) d)
            :: rest) file_path
  /\ forall issue,
       make_issue rt (uuid4_hex rt n) (JObject d) MEDIUM file_path
       = inr issue ->
       severity issue = MEDIUM
       /\ create_from rt n (JObject d :: rest) file_path
          = issue :: create_from rt (S n) rest file_path.
Proof.
  intros Hget Hs.
  pose proof (parse_severity_unknown rt d s Hget Hs) as P.
  assert (Q : parse_severity rt
                (JObject (dict_set (lit "severity") (JString (lit "MEDIUM"))
                            d)) = inr MEDIUM).
  { unfold parse_severity, py_get; rewrite dict_get_set_same; reflexivity. }
  assert (C : convert_record rt n (JObject d) file_path
              = convert_record rt n
                  (JObject (dict_set (lit "severity")
                              (JString (lit "MEDIUM")) d)) file_path).
  { unfold convert_record; rewrite P, Q, make_issue_ignores_severity.
    reflexivity. }
  split; [exact P|].
  split; [exact C|].
  split; [cbn [create_from]; rewrite C; reflexivity|].
  intros issue Hmk; split.
  - apply (make_issue_severity _ _ _ _ _ _ Hmk).
  - cbn [create_from]; unfold convert_record; rewrite P, Hmk; reflexivity.
Qed.

Lemma upper_urgent_is_no_level :
  forall level,
    upper (upper_unicode example_runtime) (lit "urgent")
    <> SeverityLevel_value level.
Proof. intros []; discriminate. Qed.

Lemma unrecognized_severity_is_medium_witness :
  dict_get (lit "severity") vague_record = Some (JString (lit "urgent"))
  /\ parse_severity example_runtime (JObject vague_record) = inr MEDIUM
  /\ map severity
         (_create_security_issues example_runtime [JObject vague_record] None)
     = [MEDIUM].
Proof.
  split; [reflexivity|].
  destruct (unrecognized_severity_is_medium example_runtime 0 vague_record
              (lit "urgent") None [] eq_refl upper_urgent_is_no_level)
    as (P & _ & _ & K).
  split; [exact P|].
  destruct (make_issue example_runtime (uuid4_hex example_runtime 0)
              (JObject vague_record) MEDIUM None) as [e|issue] eqn:E;
    [discriminate E|].
  destruct (K issue eq_refl) as [Hsev Hout].
  unfold _create_security_issues; rewrite Hout; simpl; rewrite Hsev.
  reflexivity.
Defined.

(* the path of the issue made from one record *)
Lemma convert_record_file_path
  (rt : Runtime) (n n' : nat) (data : json) (path : option str)
  (issue : SecurityIssue) :
  convert_record rt n data path = (n', inr issue) ->
  match path with
  | Some (c :: p) => file_path issue = Some (c :: p)
  | _ =>
      exists d, data = JObject d
                /\ file_path issue
                   = match dict_get (lit "file_path") d with
                     | Some (JString s) => Some s
                     | _ => None
                     end
  end.
Proof.
  unfold convert_record; intros H.
  destruct (parse_severity rt data) as [e|sev] eqn:Hsev; [discriminate H|].
  inversion H as [[Hn Hmk]]; clear H.
  assert (Hd : exists d, data = JObject d).
  { destruct data; try discriminate Hsev; eauto. }
  destruct Hd as [d ->].
  unfold make_issue, py_get in Hmk; simpl in Hmk.
  unfold SecurityIssue_new in Hmk.
  repeat (apply bind_inr in Hmk; destruct Hmk as (? & ? & Hmk)).
  inversion Hmk; subst; clear Hmk; simpl.
  match goal with
  | H : field_opt_str "file_path" _ = inr _ |- _ => rename H into Hp
  end.
  unfold lit in *; simpl list_ascii_of_string in *.
  destruct path as [[|c p]|]; simpl in Hp;
    try (inversion Hp; reflexivity);
    (exists d; split; [reflexivity|]);
    match type of Hp with
    | context [dict_get ?k d] => destruct (dict_get k d) as [[]|]
    end; simpl in Hp; inversion Hp; reflexivity.
Qed.

(** C3, as amended: for every raw issue record that converts successfully,
    the resulting issue carries the path supplied by the caller whenever
    that path is a non-empty string; the record's own file path is kept
    only when the caller supplies none (no path, or the empty string). *)
Theorem caller_path_takes_precedence
  (rt : Runtime) (issues_data : list json) (path : option str)
  (issue : SecurityIssue) :
  In issue (_create_security_issues rt issues_data path) ->
  match path with
  | Some (c :: p) => file_path issue = Some (c :: p)
  | _ =>
      exists d, In (JObject d) issues_data
                /\ file_path issue
                   = match dict_get (lit "file_path") d with
                     | Some (JString s) => Some s
                     | _ => None
                     end
  end.
Proof.
  unfold _create_security_issues; generalize 0 as n.
  induction issues_data as [|data rest IH]; intros n H; simpl in H;
    [contradiction|].
  destruct (convert_record rt n data path) as [n' [e|made]] eqn:E.
  - specialize (IH n' H).
    destruct path as [[|c p]|]; auto;
      destruct IH as (d & Hd & Hp); exists d; split; simpl; auto.
  - destruct H as [<- | H].
    + pose proof (convert_record_file_path rt n n' data path made E) as P.
      destruct path as [[|c p]|]; auto;
        destruct P as (d & -> & Hp); exists d; split; simpl; auto.
    + specialize (IH n' H).
      destruct path as [[|c p]|]; auto;
        destruct IH as (d & Hd & Hp); exists d; split; simpl; auto.
Qed.

Lemma caller_path_takes_precedence_witness :
  let made := _create_security_issues example_runtime
                [JObject located_record; JObject vague_record]
                (Some (lit "U.cs")) in
  length made = 2
  /\ Forall (fun i => file_path i = Some (lit "U.cs")) made.
Proof.
  intros made; split; [reflexivity|].
  apply Forall_forall; intros i Hi.
  exact (caller_path_takes_precedence example_runtime
           [JObject located_record; JObject vague_record]
           (Some (lit "U.cs")) i Hi).
Defined.

(** C3, the claim as stated fails: the record carries the path "own.cs",
    the caller supplies "U.cs", and the issue carries "U.cs". *)
Lemma own_path_overridden_example :
  dict_get (lit "file_path") located_record = Some (JString (lit "own.cs"))
  /\ map file_path
         (_create_security_issues example_runtime [JObject located_record]
            (Some (lit "U.cs")))
     = [Some (lit "U.cs")].
Proof. split; reflexivity. Qed.

End Conversion.

(** ** The summary *)

Section Summary.

Import BaseAnalyzer Spec Examples.

(* every issue has exactly one of the four severities *)
Lemma count_severity_total (issues : list SecurityIssue) :
  count_severity CRITICAL issues + count_severity HIGH issues
  + count_severity MEDIUM issues + count_severity LOW issues
  = length issues.
Proof.
  unfold count_severity; induction issues as [|i t IH]; simpl;
    [reflexivity|].
  destruct (severity i); simpl; lia.
Qed.

Lemma generate_summary_nonempty
  (language : LanguageType) (name : str) (issues : list SecurityIssue) :
  issues <> [] ->
  _generate_summary language name issues
  = summary_head issues ++ completion_text language name.
Proof.
  intros Hne.
  pose proof (count_severity_total issues) as Htotal.
  assert (Hlen : 0 < length issues)
    by (destruct issues; [congruence | simpl; lia]).
  unfold _generate_summary, summary_head, counts_text, highest_first.
  destruct issues as [|i t]; [congruence|].
  remember (i :: t) as l eqn:El; clear El.
  cbv zeta; cbn [filter].
  destruct (Nat.ltb_spec 0 (count_severity CRITICAL l));
  destruct (Nat.ltb_spec 0 (count_severity HIGH l));
  destruct (Nat.ltb_spec 0 (count_severity MEDIUM l));
  destruct (Nat.ltb_spec 0 (count_severity LOW l));
    try (exfalso; lia);
    cbn [map join app severity_word]; reflexivity.
Qed.

(** C9: for every non-empty issue list the generated summary begins with
    the total count followed by the counts of the severities that occur,
    highest severity first; for a list with one CRITICAL, two HIGH and one
    LOW issue it begins "Found 4 security issue(s): 1 critical, 2 high,
    1 low severity."; for the empty list it begins with the fixed sentence
    "No security issues detected.". *)
Theorem generate_summary_begins
  (language : LanguageType) (name : str) :
  (forall issues, issues <> [] ->
     exists rest,
       _generate_summary language name issues = summary_head issues ++ rest)
  /\ (forall issues,
        count_severity CRITICAL issues = 1 ->
        count_severity HIGH issues = 2 ->
        count_severity MEDIUM issues = 0 ->
        count_severity LOW issues = 1 ->
        exists rest,
          _generate_summary language name issues
          = lit "Found 4 security issue(s): 1 critical, 2 high, 1 low severity."
            ++ rest)
  /\ (exists rest,
        _generate_summary language name []
        = lit "No security issues detected." ++ rest).
Proof.
  split; [|split].
  - intros issues Hne; exists (completion_text language name).
    apply generate_summary_nonempty; assumption.
  - intros issues Hc Hh Hm Hl; exists (completion_text language name).
    pose proof (count_severity_total issues) as Htotal.
    rewrite generate_summary_nonempty
      by (intros ->; discriminate Hc).
    rewrite Hc, Hh, Hm, Hl in Htotal.
    unfold summary_head, counts_text, highest_first; cbn [filter].
    rewrite Hc, Hh, Hm, Hl; cbn [Nat.ltb Nat.leb map].
    rewrite Hc, Hh, Hl, <- Htotal.
    reflexivity.
  - exists (completion_text language name); reflexivity.
Qed.

Lemma generate_summary_begins_witness :
  let found := [example_issue HIGH; example_issue CRITICAL;
                example_issue LOW; example_issue HIGH] in
  found <> []
  /\ count_severity CRITICAL found = 1
  /\ (exists rest,
        _generate_summary JAVA (lit "JavaSecurityAnalyzer") found
        = summary_head found ++ rest)
  /\ (exists rest,
        _generate_summary JAVA (lit "JavaSecurityAnalyzer") found
        = lit "Found 4 security issue(s): 1 critical, 2 high, 1 low severity."
          ++ rest).
Proof.
  intros found.
  destruct (generate_summary_begins JAVA (lit "JavaSecurityAnalyzer"))
    as (Hany & Hfour & _).
  split; [discriminate|].
  split; [reflexivity|].
  split.
  - apply Hany; discriminate.
  - apply Hfour; reflexivity.
Defined.

End Summary.

(** ** The analyze boundary *)

Section Analyze.

Import BaseAnalyzer Spec Examples.

Lemma analyze_returns (self : Self) (code : str) (path : option str) :
  exists r, analyze self code path = inr r.
Proof.
  unfold analyze, try_except.
  destruct (analyze_body self code path); eauto.
Qed.

Lemma analyze_body_raises (self : Self) (code : str) (path : option str)
  (e : Exception) :
  stage_raises self code path e -> analyze_body self code path = inl e.
Proof.
  unfold analyze_body.
  intros [H | ? H1 H | ? ? H1 H2 H | ? ? ? H1 H2 H3 H
          | ? ? ? ? H1 H2 H3 H4 H | ? ? ? ? ? H1 H2 H3 H4 H5 H];
    repeat match goal with
           | E : _ = inr _ |- _ => rewrite E; clear E; cbn [bind]
           end;
    rewrite H; reflexivity.
Qed.

(** C1: for every code text and optional file path, and for every
    behaviour of the preprocess, prompt-lookup, gateway and normalization
    stages, raising included, [analyze] returns an AnalysisResult and
    propagates no exception; when a stage raises, the result has an empty
    issue list, a summary that names the failure and metadata that carry the
    error text. *)
Theorem analyze_never_raises
  (self : Self) (code : str) (path : option str) :
  (exists r, analyze self code path = inr r)
  /\ (forall e,
        stage_raises self code path e ->
        exists r,
          analyze self code path = inr r
          /\ issues r = []
          /\ summary r = lit "Analysis failed: " ++ exc_str e
          /\ analysis_metadata r
             = [ (lit "error", MStr (exc_str e));
                 (lit "analyzer", MStr (class_name self)) ]
          /\ language r = get_language_type self).
Proof.
  split; [apply analyze_returns|].
  intros e H; exists (error_result self e).
  unfold analyze; rewrite (analyze_body_raises self code path e H).
  repeat split.
Qed.

Lemma analyze_never_raises_witness :
  let code := lit "SELECT * FROM Users WHERE Id = '" in
  let e := mkExc OtherException
             (lit "LLM analysis failed: All connection attempts failed") in
  stage_raises csharp_analyzer_offline code (Some (lit "U.cs")) e
  /\ exists r,
       analyze csharp_analyzer_offline code (Some (lit "U.cs")) = inr r
       /\ issues r = []
       /\ summary r = lit "Analysis failed: " ++ exc_str e
       /\ analysis_metadata r
          = [ (lit "error", MStr (exc_str e));
              (lit "analyzer", MStr (class_name csharp_analyzer_offline)) ]
       /\ language r = get_language_type csharp_analyzer_offline.
Proof.
  intros code e.
  assert (H : stage_raises csharp_analyzer_offline code (Some (lit "U.cs")) e).
  { eapply raises_in_gateway; reflexivity. }
  split; [exact H|].
  exact (proj2 (analyze_never_raises csharp_analyzer_offline code
                  (Some (lit "U.cs"))) e H).
Defined.

End Analyze.

(** ** The decoder *)

Section JsonFacts.

Import Json Aux.

Lemma skip_ws_length (s : str) : length (skip_ws s) <= length s.
Proof.
  induction s as [|c t IH]; simpl; [lia|].
  destruct (is_ws c); simpl; lia.
Qed.

Lemma prepend_ok (bytes : str) (r : res (str * str)) :
  (r <> Fuel -> prepend bytes r <> Fuel)
  /\ forall text rest,
       prepend bytes r = Ok (text, rest) -> exists text', r = Ok (text', rest).
Proof.
  destruct r as [[text' rest']| |]; simpl; split; try congruence.
  intros text rest H; inversion H; eauto.
Qed.

Lemma scanstring_loop_spec (s : str) :
  forall skip,
    scanstring_loop s skip <> Fuel
    /\ forall text rest,
         scanstring_loop s skip = Ok (text, rest) -> length rest < length s.
Proof.
  induction s as [|c t IH]; intros skip.
  - split; [discriminate|]; intros text rest H; discriminate H.
  - cbn [scanstring_loop]; destruct skip as [|k].
    + destruct (Ascii.eqb c dquote).
      { split; [discriminate|].
        intros text rest H; inversion H; simpl; lia. }
      destruct (Ascii.eqb c "\").
      { destruct (escape t) as [[bytes k]|].
        - destruct (IH k) as [F L]; split.
          + apply prepend_ok; exact F.
          + intros text rest H; apply prepend_ok in H; destruct H as [x H].
            apply L in H; simpl; lia.
        - split; [discriminate|]; intros text rest H; discriminate H. }
      destruct (Nat.ltb (code c) 32).
      { split; [discriminate|]; intros text rest H; discriminate H. }
      destruct (IH 0) as [F L]; split.
      * apply prepend_ok; exact F.
      * intros text rest H; apply prepend_ok in H; destruct H as [x H].
        apply L in H; simpl; lia.
    + destruct (IH k) as [F L]; split; [exact F|].
      intros text rest H; apply L in H; simpl; lia.
Qed.

Lemma scanstring_spec (s : str) :
  scanstring s <> Fuel
  /\ forall text rest,
       scanstring s = Ok (text, rest) -> length rest < length s.
Proof. apply scanstring_loop_spec. Qed.

Lemma starts_with_length (p s rest : str) :
  starts_with p s = Some rest -> length rest <= length s.
Proof.
  revert s; induction p as [|x p IH]; intros [|y s] H; simpl in H;
    try discriminate; try (inversion H; subst; simpl; lia).
  destruct (Ascii.eqb x y); [|discriminate].
  apply IH in H; simpl; lia.
Qed.

Lemma span_digits_length (s : str) :
  length (snd (span_digits s)) <= length s.
Proof.
  induction s as [|c t IH]; simpl; [lia|].
  destruct (is_digit c); simpl; [|lia].
  destruct (span_digits t); simpl in *; lia.
Qed.

Lemma sign_part_length (s : str) : length (snd (sign_part s)) <= length s.
Proof.
  destruct s as [|c t]; simpl; [lia|].
  destruct (Ascii.eqb c "-"); simpl; lia.
Qed.

Lemma int_part_length (s digits rest : str) :
  int_part s = Some (digits, rest) -> length rest <= length s.
Proof.
  destruct s as [|c t]; simpl; [discriminate|].
  destruct (Ascii.eqb c "0"); [intros H; inversion H; simpl; lia|].
  destruct (is_digit c); [|discriminate].
  pose proof (span_digits_length t) as L.
  destruct (span_digits t); intros H; inversion H; subst; simpl in *; lia.
Qed.

Lemma frac_part_length (s : str) : length (snd (frac_part s)) <= length s.
Proof.
  destruct s as [|p [|c t]]; simpl; try lia.
  destruct (Ascii.eqb p "." && is_digit c); simpl; [|lia].
  pose proof (span_digits_length t) as L.
  destruct (span_digits t); simpl in *; lia.
Qed.

Lemma exp_part_length (s : str) : length (snd (exp_part s)) <= length s.
Proof.
  destruct s as [|e u]; simpl; [lia|].
  destruct (Ascii.eqb e "e" || Ascii.eqb e "E"); simpl; [|lia].
  destruct u as [|c u1]; simpl; [lia|].
  destruct (Ascii.eqb c "+" || Ascii.eqb c "-"); simpl.
  - destruct u1 as [|c' t]; simpl; [lia|].
    destruct (is_digit c'); simpl; [|lia].
    pose proof (span_digits_length t) as L.
    destruct (span_digits t); simpl in *; lia.
  - destruct (is_digit c); simpl; [|lia].
    pose proof (span_digits_length u1) as L.
    destruct (span_digits u1); simpl in *; lia.
Qed.

Lemma match_number_length (s : str) neg digits tail rest :
  match_number s = Some (neg, digits, tail, rest) ->
  length rest <= length s.
Proof.
  unfold match_number.
  pose proof (sign_part_length s) as L0.
  destruct (sign_part s) as [n s1]; simpl in L0.
  destruct (int_part s1) as [[d r1]|] eqn:E1; [|discriminate].
  apply int_part_length in E1.
  pose proof (frac_part_length r1) as L2.
  destruct (frac_part r1) as [f r2]; simpl in L2.
  pose proof (exp_part_length r2) as L3.
  destruct (exp_part r2) as [x r3]; simpl in L3.
  intros H; inversion H; subst; lia.
Qed.

Lemma make_int_has_fuel (lim : limits) (neg : bool) (digits : str) :
  make_int lim neg digits <> Fuel.
Proof.
  unfold make_int; destruct (int_max_str_digits lim) as [n|];
    [destruct (Nat.ltb n (length digits))|]; discriminate.
Qed.

Lemma scan_atom_well_behaved (lim : limits) : well_behaved (scan_atom lim).
Proof.
  intros s; unfold scan_atom.
  destruct (starts_with (lit "null") s) as [r|] eqn:E1.
  { split; [discriminate|]; intros v rest H; inversion H; subst.
    apply (starts_with_length _ _ _ E1). }
  destruct (starts_with (lit "true") s) as [r|] eqn:E2.
  { split; [discriminate|]; intros v rest H; inversion H; subst.
    apply (starts_with_length _ _ _ E2). }
  destruct (starts_with (lit "false") s) as [r|] eqn:E3.
  { split; [discriminate|]; intros v rest H; inversion H; subst.
    apply (starts_with_length _ _ _ E3). }
  destruct (match_number s) as [[[[neg digits] tail] r]|] eqn:E4.
  { apply match_number_length in E4.
    destruct tail as [|x tail].
    - pose proof (make_int_has_fuel lim neg digits) as F.
      destruct (make_int lim neg digits) as [v'| |];
        (split; [congruence|]); intros v rest H; inversion H; subst; exact E4.
    - split; [discriminate|]; intros v rest H; inversion H; subst; exact E4. }
  destruct (starts_with (lit "NaN") s) as [r|] eqn:E5.
  { split; [discriminate|]; intros v rest H; inversion H; subst.
    apply (starts_with_length _ _ _ E5). }
  destruct (starts_with (lit "Infinity") s) as [r|] eqn:E6.
  { split; [discriminate|]; intros v rest H; inversion H; subst.
    apply (starts_with_length _ _ _ E6). }
  destruct (starts_with (lit "-Infinity") s) as [r|] eqn:E7.
  { split; [discriminate|]; intros v rest H; inversion H; subst.
    apply (starts_with_length _ _ _ E7). }
  split; [discriminate|]; intros v rest H; discriminate H.
Qed.

Lemma elements_spec (scan_once : str -> res (json * str)) :
  well_behaved scan_once ->
  forall n s,
    length s < n ->
    elements scan_once n s <> Fuel
    /\ forall l rest,
         elements scan_once n s = Ok (l, rest) -> length rest <= length s.
Proof.
  intros W; induction n as [|n IH]; intros s Hn; [lia|].
  cbn [elements].
  destruct (W s) as [F L].
  destruct (scan_once s) as [[v s1]| |]; [| split; discriminate | congruence].
  specialize (L v s1 eq_refl).
  pose proof (skip_ws_length s1) as L1.
  destruct (skip_ws s1) as [|c s2]; [split; discriminate|].
  simpl in L1.
  destruct (Ascii.eqb c "]").
  { split; [discriminate|]; intros l rest H; inversion H; subst; lia. }
  destruct (Ascii.eqb c ","); [|split; discriminate].
  pose proof (skip_ws_length s2) as L2.
  destruct (IH (skip_ws s2)) as [F' L']; [lia|].
  destruct (elements scan_once n (skip_ws s2)) as [[l' s3]| |];
    [| split; discriminate | congruence].
  split; [discriminate|].
  intros l rest H; inversion H; subst.
  specialize (L' l' rest eq_refl); lia.
Qed.

Lemma members_spec (scan_once : str -> res (json * str)) :
  well_behaved scan_once ->
  forall n s d,
    length s < n ->
    members scan_once n s d <> Fuel
    /\ forall v rest,
         members scan_once n s d = Ok (v, rest) -> length rest <= length s.
Proof.
  intros W; induction n as [|n IH]; intros s d Hn; [lia|].
  cbn [members].
  destruct s as [|q s1]; [split; discriminate|].
  destruct (Ascii.eqb q dquote); [|split; discriminate].
  destruct (scanstring_spec s1) as [F1 L1].
  destruct (scanstring s1) as [[key s2]| |];
    [| split; discriminate | congruence].
  specialize (L1 key s2 eq_refl).
  pose proof (skip_ws_length s2) as L2.
  destruct (skip_ws s2) as [|colon s3]; [split; discriminate|].
  simpl in L2.
  destruct (Ascii.eqb colon ":"); [|split; discriminate].
  pose proof (skip_ws_length s3) as L3.
  destruct (W (skip_ws s3)) as [F4 L4].
  destruct (scan_once (skip_ws s3)) as [[v s4]| |];
    [| split; discriminate | congruence].
  specialize (L4 v s4 eq_refl).
  pose proof (skip_ws_length s4) as L5.
  cbv zeta.
  destruct (skip_ws s4) as [|c s5]; [split; discriminate|].
  simpl in L5.
  destruct (Ascii.eqb c "}").
  { split; [discriminate|]; intros v' rest H; inversion H; subst.
    simpl; lia. }
  destruct (Ascii.eqb c ","); [|split; discriminate].
  pose proof (skip_ws_length s5) as L6.
  destruct (IH (skip_ws s5) (dict_set key v d)) as [F' L']; [simpl in Hn; lia|].
  split; [exact F'|].
  intros v' rest H; apply L' in H; simpl; lia.
Qed.

Lemma scan_well_behaved (lim : limits) :
  forall depth, well_behaved (scan lim depth).
Proof.
  assert (step : forall depth,
            (forall d, depth = S d -> well_behaved (scan lim d)) ->
            well_behaved (scan lim depth)).
  { intros depth IH s.
    destruct depth as [|d]; (destruct s as [|c t]; cbn [scan];
      [split; [discriminate | intros v r H; discriminate H]|]).
    - destruct (Ascii.eqb c dquote).
      { destruct (scanstring_spec t) as [F L].
        destruct (scanstring t) as [[text rest]| |];
          [| split; discriminate | congruence].
        split; [discriminate|]; intros v r H; inversion H; subst.
        specialize (L text r eq_refl); simpl; lia. }
      destruct (Ascii.eqb c "{"); [split; discriminate|].
      destruct (Ascii.eqb c "["); [split; discriminate|].
      apply scan_atom_well_behaved.
    - specialize (IH d eq_refl).
      destruct (Ascii.eqb c dquote).
      { destruct (scanstring_spec t) as [F L].
        destruct (scanstring t) as [[text rest]| |];
          [| split; discriminate | congruence].
        split; [discriminate|]; intros v r H; inversion H; subst.
        specialize (L text r eq_refl); simpl; lia. }
      pose proof (skip_ws_length t) as Lt.
      destruct (Ascii.eqb c "{").
      { destruct (skip_ws t) as [|c' rest]; [split; discriminate|].
        simpl in Lt.
        destruct (Ascii.eqb c' "}").
        - split; [discriminate|]; intros v r H; inversion H; subst.
          simpl; lia.
        - destruct (members_spec _ IH (S (length t)) (c' :: rest) [])
            as [F L]; [simpl; lia|].
          split; [exact F|].
          intros v r H; apply L in H; simpl in *; lia. }
      destruct (Ascii.eqb c "[").
      { destruct (skip_ws t) as [|c' rest]; [split; discriminate|].
        simpl in Lt.
        destruct (Ascii.eqb c' "]").
        - split; [discriminate|]; intros v r H; inversion H; subst.
          simpl; lia.
        - destruct (elements_spec _ IH (S (length t)) (c' :: rest))
            as [F L]; [simpl; lia|].
          destruct (elements (scan lim d) (S (length t)) (c' :: rest))
            as [[l rest']| |]; [| split; discriminate | congruence].
          split; [discriminate|]; intros v r H; inversion H; subst.
          specialize (L l r eq_refl); simpl in *; lia. }
      apply scan_atom_well_behaved. }
  induction depth as [|d IH]; apply step.
  - intros d H; discriminate H.
  - intros d' H; inversion H; subst; exact IH.
Qed.

(* the decoder never runs out of fuel: [json_loads] returns or raises as
   [json.loads] does *)
Lemma loads_has_fuel (lim : limits) (s : str) : loads lim s <> Fuel.
Proof.
  unfold loads.
  destruct (starts_with _ s); [discriminate|].
  destruct (scan_well_behaved lim (recursion_limit lim) (skip_ws s)) as [F _].
  destruct (scan lim (recursion_limit lim) (skip_ws s)) as [[v rest]| |];
    [| discriminate | congruence].
  destruct (skip_ws rest); discriminate.
Qed.

End JsonFacts.

(** ** The normalizer's parse *)

Section Parse.

Import LLMService Spec.

Lemma find_from_spec (c : ascii) (s : str) :
  forall i,
    (~ In c s /\ find_from c s i = (-1)%Z)
    \/ (exists pre post,
          s = pre ++ c :: post /\ ~ In c pre
          /\ find_from c s i = (i + Z.of_nat (length pre))%Z).
Proof.
  induction s as [|x t IH]; intros i; simpl.
  - left; auto.
  - destruct (Ascii.eqb x c) eqn:E.
    + apply Ascii.eqb_eq in E; subst x; right; exists [], t; simpl.
      repeat split; auto; lia.
    + apply Ascii.eqb_neq in E.
      destruct (IH (i + 1)%Z) as [[N H] | (pre & post & -> & N & H)].
      * left; split; [intros [G | G]; auto | exact H].
      * right; exists (x :: pre), post; repeat split; auto.
        -- intros [G | G]; auto.
        -- rewrite H; simpl length; lia.
Qed.

Lemma rfind_from_spec (c : ascii) (s : str) :
  forall i last,
    (~ In c s /\ rfind_from c s i last = last)
    \/ (exists pre post,
          s = pre ++ c :: post /\ ~ In c post
          /\ rfind_from c s i last = (i + Z.of_nat (length pre))%Z).
Proof.
  induction s as [|x t IH]; intros i last; simpl.
  - left; auto.
  - destruct (IH (i + 1)%Z (if Ascii.eqb x c then i else last))
      as [[N H] | (pre & post & -> & N & H)].
    + destruct (Ascii.eqb x c) eqn:E.
      * apply Ascii.eqb_eq in E; subst x; right; exists [], t; simpl.
        repeat split; auto; rewrite H; lia.
      * apply Ascii.eqb_neq in E; left; split; [intros [G | G]; auto | exact H].
    + right; exists (x :: pre), post; repeat split; auto.
      rewrite H; simpl length; lia.
Qed.

(* two decompositions of one text: the shorter head is a head of the
   longer one *)
Lemma app_eq_prefix (a b x y : str) :
  a ++ x = b ++ y -> length a <= length b -> exists m, b = a ++ m.
Proof.
  revert b; induction a as [|c a IH]; intros b H L; [exists b; reflexivity|].
  destruct b as [|d b]; [simpl in L; lia|].
  simpl in H; inversion H; subst d.
  destruct (IH b) as [m ->]; [assumption | simpl in L; lia|].
  exists m; reflexivity.
Qed.

(* when the test of [parse_llm_response] succeeds, the slice runs from the
   first opening bracket to the last closing bracket *)
Lemma bracket_slice (response : str) :
  let json_start := find response "[" in
  let json_end := (rfind response "]" + 1)%Z in
  ((json_start >=? 0) && (json_end >? json_start))%Z = true ->
  exists pre mid post,
    response = pre ++ "[" :: mid ++ "]" :: post
    /\ ~ In "[" pre /\ ~ In "]" post
    /\ slice response json_start json_end = "[" :: mid ++ ["]"].
Proof.
  intros json_start json_end H.
  apply andb_true_iff in H; destruct H as [H1 H2].
  apply Z.geb_le in H1; apply Z.gtb_lt in H2.
  subst json_start json_end; unfold find, rfind in *.
  destruct (find_from_spec "[" response 0)
    as [[_ F] | (p1 & q1 & E1 & N1 & F)]; rewrite F in *; [lia|].
  destruct (rfind_from_spec "]" response 0 (-1))
    as [[_ R] | (p2 & q2 & E2 & N2 & R)]; rewrite R in *; [lia|].
  assert (L : length p1 <= length p2) by lia.
  pose proof E1 as E; rewrite E2 in E; symmetry in E.
  destruct (app_eq_prefix _ _ _ _ E L) as [m Hm]; subst p2.
  rewrite <- app_assoc in E; apply app_inv_head in E.
  destruct m as [|x m]; [simpl in E; discriminate E|].
  simpl in E; inversion E; subst x q1.
  assert (Hr : response = p1 ++ ("[" :: m ++ ["]"]) ++ q2).
  { rewrite E2; rewrite <- !app_assoc; simpl; rewrite <- app_assoc.
    reflexivity. }
  exists p1, m, q2.
  split; [rewrite E2, <- app_assoc; reflexivity|].
  split; [exact N1|]. split; [exact N2|].
  unfold slice.
  replace (Z.to_nat (0 + Z.of_nat (length p1))) with (length p1) by lia.
  replace (Z.to_nat (0 + Z.of_nat (length (p1 ++ "[" :: m)) + 1
                     - (0 + Z.of_nat (length p1))))
    with (length ("[" :: m ++ ["]"])).
  - rewrite Hr, skipn_app, skipn_all, Nat.sub_diag.
    rewrite app_nil_l, skipn_O.
    rewrite firstn_app, Nat.sub_diag, firstn_all; cbn [firstn].
    apply app_nil_r.
  - rewrite length_app; cbn [length]; rewrite length_app; cbn [length]; lia.
Qed.

Lemma find_from_app (c : ascii) (pre t : str) :
  ~ In c pre ->
  forall i, find_from c (pre ++ c :: t) i = (i + Z.of_nat (length pre))%Z.
Proof.
  induction pre as [|x pre IH]; intros N i; simpl.
  - rewrite Ascii.eqb_refl; lia.
  - destruct (Ascii.eqb x c) eqn:E.
    + apply Ascii.eqb_eq in E; subst x; elim N; left; reflexivity.
    + rewrite IH by (intros G; apply N; right; exact G); lia.
Qed.

Lemma rfind_from_absent (c : ascii) (s : str) :
  ~ In c s -> forall i last, rfind_from c s i last = last.
Proof.
  induction s as [|x s IH]; intros N i last; simpl; [reflexivity|].
  destruct (Ascii.eqb x c) eqn:E.
  - apply Ascii.eqb_eq in E; subst x; elim N; left; reflexivity.
  - apply IH; intros G; apply N; right; exact G.
Qed.

Lemma rfind_from_app (c : ascii) (pre post : str) :
  ~ In c post ->
  forall i last,
    rfind_from c (pre ++ c :: post) i last = (i + Z.of_nat (length pre))%Z.
Proof.
  intros N; induction pre as [|x pre IH]; intros i last; simpl.
  - rewrite Ascii.eqb_refl, rfind_from_absent by exact N; lia.
  - rewrite IH; lia.
Qed.

Lemma slice_middle (p m q : str) :
  slice (p ++ m ++ q) (Z.of_nat (length p))
        (Z.of_nat (length p) + Z.of_nat (length m)) = m.
Proof.
  unfold slice.
  replace (Z.to_nat (Z.of_nat (length p) + Z.of_nat (length m)
                     - Z.of_nat (length p))) with (length m) by lia.
  rewrite Nat2Z.id, skipn_app, skipn_all, Nat.sub_diag, app_nil_l, skipn_O.
  rewrite firstn_app, Nat.sub_diag, firstn_all; cbn [firstn].
  apply app_nil_r.
Qed.

(* the first opening and the last closing bracket of a text that holds
   an array between other text *)
Lemma brackets_found (pre mid post : str) :
  ~ In "[" pre -> ~ In "]" post ->
  let response := pre ++ "[" :: mid ++ "]" :: post in
  find response "[" = Z.of_nat (length pre)
  /\ rfind response "]" = Z.of_nat (length (pre ++ "[" :: mid))
  /\ slice response (find response "[") (rfind response "]" + 1)
     = "[" :: mid ++ ["]"].
Proof.
  intros N1 N2 response; subst response.
  assert (F : find (pre ++ "[" :: mid ++ "]" :: post) "["
              = Z.of_nat (length pre))
    by (unfold find; rewrite find_from_app by exact N1; lia).
  assert (R : rfind (pre ++ "[" :: mid ++ "]" :: post) "]"
              = Z.of_nat (length (pre ++ "[" :: mid))).
  { unfold rfind.
    replace (pre ++ "[" :: mid ++ "]" :: post)
      with ((pre ++ "[" :: mid) ++ "]" :: post)
      by (rewrite <- app_assoc; reflexivity).
    rewrite rfind_from_app by exact N2; lia. }
  split; [exact F|]. split; [exact R|].
  rewrite F, R.
  replace (Z.of_nat (length (pre ++ "[" :: mid)) + 1)%Z
    with (Z.of_nat (length pre) + Z.of_nat (length ("[" :: mid ++ ["]"])))%Z.
  - replace (pre ++ "[" :: mid ++ "]" :: post)
      with (pre ++ ("[" :: mid ++ ["]"]) ++ post).
    + apply slice_middle.
    + simpl; rewrite <- app_assoc; reflexivity.
  - rewrite length_app; cbn [length]; rewrite length_app; cbn [length]; lia.
Qed.

(* what [parse_llm_response] does with an array surrounded by text *)
Lemma parse_bracketed (lim : limits) (pre mid post : str) :
  ~ In "[" pre -> ~ In "]" post ->
  parse_llm_response lim (pre ++ "[" :: mid ++ "]" :: post)
  = try_except_class JSONDecodeError
      (bind (json_loads lim ("[" :: mid ++ ["]"]))
            (fun issues => ret (list_or_empty issues)))
      (ret []).
Proof.
  intros N1 N2; unfold parse_llm_response.
  destruct (brackets_found pre mid post N1 N2) as (F & R & S).
  cbv zeta; rewrite S, F, R.
  assert (C : ((Z.of_nat (length pre) >=? 0)
               && (Z.of_nat (length (pre ++ "[" :: mid)) + 1
                   >? Z.of_nat (length pre)))%Z = true).
  { apply andb_true_iff; split; [apply Z.geb_le; lia|].
    apply Z.gtb_lt; rewrite length_app; lia. }
  rewrite C; reflexivity.
Qed.

(* the procedure of the claim on such a text *)
Lemma extraction_bracketed (lim : limits) (pre mid post : str) :
  ~ In "[" pre -> ~ In "]" post ->
  extraction lim (pre ++ "[" :: mid ++ "]" :: post)
  = match attempt lim ("[" :: mid ++ ["]"]) with
    | Some l => l
    | None =>
        match attempt lim (pre ++ "[" :: mid ++ "]" :: post) with
        | Some l => l
        | None => []
        end
    end.
Proof.
  intros N1 N2; unfold extraction.
  destruct (brackets_found pre mid post N1 N2) as (F & R & S).
  cbv zeta; rewrite S, F, R.
  assert (C : ((Z.of_nat (length pre) >=? 0)
               && (Z.of_nat (length (pre ++ "[" :: mid))
                   >? Z.of_nat (length pre)))%Z = true).
  { apply andb_true_iff; split; [apply Z.geb_le; lia|].
    apply Z.gtb_lt; rewrite length_app; cbn [length]; lia. }
  rewrite C; reflexivity.
Qed.

Lemma settled_by_intro (lim : limits) (response text : str) :
  parse_llm_response lim response
  = try_except_class JSONDecodeError
      (bind (json_loads lim text)
            (fun issues => ret (list_or_empty issues)))
      (ret []) ->
  settled_by lim response text.
Proof.
  intros H; unfold settled_by; rewrite H.
  unfold try_except_class, bind, ret.
  destruct (json_loads lim text) as [e|v]; [|reflexivity].
  destruct (isinstance e JSONDecodeError); reflexivity.
Qed.

(* text nested deeper than the recursion limit, whatever follows it *)
Lemma scan_deep_then (lim : limits) (t : str) :
  forall depth,
    Json.scan lim depth (repeat "[" (S depth) ++ t)
    = Json.recursion_error "array".
Proof.
  induction depth as [|d IH]; [reflexivity|].
  change (repeat "[" (S (S d)) ++ t) with ("[" :: "[" :: repeat "[" d ++ t).
  cbn [Json.scan Ascii.eqb Bool.eqb dquote andb Json.skip_ws Json.is_ws orb].
  change ("[" :: repeat "[" d ++ t) with (repeat "[" (S d) ++ t).
  cbn [Json.elements].
  rewrite IH; reflexivity.
Qed.

Lemma json_loads_deep (lim : limits) (t : str) :
  json_loads lim (repeat "[" (S (recursion_limit lim)) ++ t)
  = inl (mkExc RecursionError
           (lit "maximum recursion depth exceeded while decoding a JSON array from a unicode string")).
Proof.
  unfold json_loads, Json.loads.
  change (Json.starts_with (of_codes [239; 187; 191])
            (repeat "[" (S (recursion_limit lim)) ++ t)) with (@None str).
  change (Json.skip_ws (repeat "[" (S (recursion_limit lim)) ++ t))
    with (repeat "[" (S (recursion_limit lim)) ++ t).
  rewrite scan_deep_then; reflexivity.
Qed.

(** C2, where the code departs from the claim.  For every raw response
    the outcome of [parse_llm_response] is settled by one decoding: of the
    text from the first '[' to the last ']' when the one lies before the
    other, of the entire text otherwise; it is the decoded list, the empty
    list for another value and for a text that is not JSON, and the
    exception of the decoder in every other case.  Every list that is not
    empty and that the code returns is the list that the procedure of the
    claim returns.  That procedure returns an empty sequence when every
    attempt fails; the code does not: on an array nested deeper than the
    recursion limit, and on an integer with more digits than the limit of
    the conversion, the attempts of the procedure fail and it gives the
    empty sequence, while [parse_llm_response] raises. *)
Theorem parse_llm_response_against_extraction :
  (forall lim response,
     let json_start := find response "[" in
     let json_end := (rfind response "]" + 1)%Z in
     if ((json_start >=? 0) && (json_end >? json_start))%Z then
       exists pre mid post,
         response = pre ++ "[" :: mid ++ "]" :: post
         /\ ~ In "[" pre /\ ~ In "]" post
         /\ settled_by lim response ("[" :: mid ++ ["]"])
     else settled_by lim response response)
  /\ (forall lim response l,
        parse_llm_response lim response = inr l -> l <> [] ->
        extraction lim response = l)
  /\ (forall lim,
        let response := repeat "[" (S (recursion_limit lim)) ++ lit "]" in
        extraction lim response = []
        /\ exists e,
             parse_llm_response lim response = inl e
             /\ exc_class_of e = RecursionError)
  /\ (let response :=
        lit "Total: [" ++ repeat "1" 4301 ++ lit "] issues" in
      extraction default_limits response = []
      /\ exists e,
           parse_llm_response default_limits response = inl e
           /\ exc_class_of e = ValueError).
Proof.
  split; [|split; [|split]].
  - intros lim response json_start json_end.
    destruct ((json_start >=? 0) && (json_end >? json_start))%Z eqn:C.
    + destruct (bracket_slice response C)
        as (pre & mid & post & E & N1 & N2 & S).
      exists pre, mid, post.
      split; [exact E|]. split; [exact N1|]. split; [exact N2|].
      apply settled_by_intro; rewrite E at 1.
      apply parse_bracketed; assumption.
    + apply settled_by_intro; unfold parse_llm_response.
      fold json_start json_end; rewrite C; reflexivity.
  - intros lim response l P Hne.
    assert (A : forall text,
              try_except_class JSONDecodeError
                (bind (json_loads lim text)
                      (fun issues => ret (list_or_empty issues)))
                (ret []) = inr l ->
              attempt lim text = Some l).
    { intros text; unfold try_except_class, bind, ret, attempt.
      destruct (json_loads lim text) as [e|v].
      - destruct (isinstance e JSONDecodeError); intros H; inversion H.
        congruence.
      - intros H; inversion H; subst l.
        destruct v; simpl in *; congruence. }
    destruct ((find response "[" >=? 0)
              && (rfind response "]" + 1 >? find response "["))%Z eqn:C.
    + destruct (bracket_slice response C)
        as (pre & mid & post & E & N1 & N2 & S).
      rewrite E in P |- *.
      rewrite parse_bracketed in P by assumption.
      rewrite extraction_bracketed, (A _ P) by assumption.
      reflexivity.
    + unfold parse_llm_response in P; cbv zeta in P; rewrite C in P.
      unfold extraction; cbv zeta.
      replace ((find response "[" >=? 0)
               && (rfind response "]" >? find response "["))%Z
        with false.
      * rewrite (A _ P); reflexivity.
      * symmetry; apply andb_false_iff.
        apply andb_false_iff in C; destruct C as [C | C]; [left; exact C|].
        right; rewrite Z.gtb_ltb in C |- *.
        apply Z.ltb_ge in C; apply Z.ltb_ge; lia.
  - intros lim response; subst response.
    set (n := recursion_limit lim).
    assert (L : json_loads lim (repeat "[" (S n) ++ lit "]")
                = inl (mkExc RecursionError
                         (lit "maximum recursion depth exceeded while decoding a JSON array from a unicode string")))
      by apply json_loads_deep.
    assert (P : repeat "[" (S n) ++ lit "]"
                = [] ++ "[" :: repeat "[" n ++ "]" :: [])
      by reflexivity.
    split.
    + rewrite P at 1.
      rewrite extraction_bracketed by (intros []).
      change ([] ++ "[" :: repeat "[" n ++ "]" :: [])
        with (repeat "[" (S n) ++ lit "]").
      change ("[" :: repeat "[" n ++ ["]"])
        with (repeat "[" (S n) ++ lit "]").
      unfold attempt; rewrite L; reflexivity.
    + eexists; split.
      * rewrite P at 1.
        rewrite parse_bracketed by (intros []).
        change ("[" :: repeat "[" n ++ ["]"])
          with (repeat "[" (S n) ++ lit "]").
        rewrite L; reflexivity.
      * reflexivity.
  - intros response; split; [vm_compute; reflexivity|].
    eexists; split; vm_compute; reflexivity.
Qed.

Lemma parse_llm_response_against_extraction_witness :
  parse_llm_response default_limits (lit "Found: [1, 2] done")
  = inr [JInt 1; JInt 2]
  /\ extraction default_limits (lit "Found: [1, 2] done")
     = [JInt 1; JInt 2].
Proof.
  split; [reflexivity|].
  apply (proj1 (proj2 parse_llm_response_against_extraction) default_limits
           (lit "Found: [1, 2] done") [JInt 1; JInt 2]);
    [reflexivity | discriminate].
Defined.

(* where the bracketed text is not JSON, the code and the procedure of the
   claim both give the empty list *)
Example parse_llm_response_trailing_comma :
  parse_llm_response default_limits (lit "x[1,]y") = inr []
  /\ extraction default_limits (lit "x[1,]y") = [].
Proof. split; reflexivity. Qed.

(* a decoded value that is not an array yields the empty list *)
Lemma parse_llm_response_not_a_list :
  parse_llm_response default_limits
    (lit "{" ++ [dquote] ++ lit "issues" ++ [dquote] ++ lit ": 0}")
  = inr [].
Proof. reflexivity. Qed.

(* text nested deeper than the recursion limit *)
Lemma scan_deep (lim : limits) :
  forall depth,
    Json.scan lim depth (repeat "[" (S depth)) = Json.recursion_error "array".
Proof.
  induction depth as [|d IH]; [reflexivity|].
  change (repeat "[" (S (S d))) with ("[" :: "[" :: repeat "[" d).
  cbn [Json.scan Ascii.eqb Bool.eqb dquote andb Json.skip_ws Json.is_ws orb].
  change ("[" :: repeat "[" d) with (repeat "[" (S d)).
  cbn [Json.elements].
  rewrite IH; reflexivity.
Qed.

(** C6, where the code departs from the claim: a text of opening brackets
    nested deeper than the interpreter's recursion limit makes [json.loads]
    raise RecursionError, which [parse_llm_response] does not catch; the
    same holds for an integer literal with more digits than the limit of
    the integer conversion, which raises ValueError. *)
Theorem parse_llm_response_raises :
  (forall lim,
     exists e,
       parse_llm_response lim (repeat "[" (S (recursion_limit lim))) = inl e
       /\ exc_class_of e = RecursionError)
  /\ (exists e,
        parse_llm_response default_limits (repeat "[" 1001) = inl e
        /\ exc_class_of e = RecursionError)
  /\ (exists e,
        parse_llm_response default_limits
          (lit "[" ++ repeat "1" 4301 ++ lit "]") = inl e
        /\ exc_class_of e = ValueError).
Proof.
  assert (G : forall lim,
     exists e,
       parse_llm_response lim (repeat "[" (S (recursion_limit lim))) = inl e
       /\ exc_class_of e = RecursionError).
  { intros lim.
    set (n := recursion_limit lim).
    assert (F : find (repeat "[" (S n)) "[" = 0%Z) by reflexivity.
    assert (R : rfind (repeat "[" (S n)) "]" = (-1)%Z).
    { unfold rfind.
      destruct (rfind_from_spec "]" (repeat "[" (S n)) 0 (-1))
        as [[_ R] | (p & q & E & _)]; [exact R|].
      assert (I : In "]" (repeat "[" (S n)))
        by (rewrite E; apply in_or_app; right; left; reflexivity).
      apply repeat_spec in I; discriminate I. }
    assert (L : json_loads lim (repeat "[" (S n))
                = inl (mkExc RecursionError
                         (lit "maximum recursion depth exceeded while decoding a JSON array from a unicode string"))).
    { unfold json_loads, Json.loads.
      change (Json.starts_with (of_codes [239; 187; 191]) (repeat "[" (S n)))
        with (@None str).
      change (Json.skip_ws (repeat "[" (S n))) with (repeat "[" (S n)).
      fold n; rewrite scan_deep; reflexivity. }
    eexists; split.
    - unfold parse_llm_response.
      rewrite F, R; cbn [Z.geb Z.gtb Z.compare Z.add andb Z.opp Z.pos_sub].
      rewrite L; reflexivity.
    - reflexivity. }
  split; [exact G|].
  split; [exact (G default_limits)|].
  eexists; split; vm_compute; reflexivity.
Qed.

End Parse.

(** ** Runs on concrete inputs *)

Section Runs.

Import LanguageDetector LLMService BaseAnalyzer Examples.

Example preprocess_code_run :
  preprocess_code
    (lit "int a = 1; // This is a single-line comment
/* This is a
   multi-line comment */
public class Test { }")
  = lit "int a = 1; 


public class Test { }".
Proof. reflexivity. Qed.

Example preprocess_code_unterminated_block :
  preprocess_code (lit "a/*/b*/c/* open") = lit "ac/* open".
Proof. reflexivity. Qed.

Example detect_language_by_suffix_run (self : Detector) :
  detect_language self (lit "SELECT * FROM Users") (Some (lit "U.cs"))
  = CSHARP
  /\ detect_language self [] (Some (lit "App.TSX")) = REACT_TYPESCRIPT
  /\ detect_language self [] (Some (lit "index.js")) = REACT_JAVASCRIPT
  /\ detect_language self [] (Some (lit "Main.java")) = JAVA.
Proof. repeat split. Qed.

Example detect_language_by_content_run (self : Detector) :
  detect_language self (lit "import java.util.List;
public class A { }") None = JAVA
  /\ detect_language self (lit "plain text") None = UNKNOWN
  /\ detect_language self (lit "plain text") (Some (lit "notes.txt"))
     = UNKNOWN.
Proof. repeat split; vm_compute; reflexivity. Qed.

(* "using System" and "public class" against "public class" and an import
   of java: two hits each, and the language declared first is returned *)
Example detect_language_tie_run (self : Detector) :
  detect_language self (lit "using System;
import java.util.List;
public class A { }") None = CSHARP.
Proof. vm_compute; reflexivity. Qed.

(* a class name with accents: the interpreter finds the signatures of a
   class declaration, those of module [Re] alone would not *)
Example detect_language_accented_run :
  detect_language accented_detector accented_class None = CSHARP
  /\ Re.search (Re.pattern (lit "\bpublic\s+class\s+\w+")) accented_class
       Re.MULTILINE = false.
Proof. split; vm_compute; reflexivity. Qed.

Example parse_llm_response_run :
  parse_llm_response default_limits
    (lit "Here are the issues: [{}, 7] Hope this helps.")
  = inr [JObject []; JInt 7].
Proof. reflexivity. Qed.

Example _create_security_issues_run :
  map (fun i => (title i, severity i, file_path i))
      (_create_security_issues example_runtime
         [ JObject located_record; JInt 5; JObject numeric_record;
           JObject urgent_record; JObject vague_record ] None)
  = [ (lit "SQL injection", HIGH, Some (lit "own.cs"));
      (lit "Weak hash", MEDIUM, None) ].
Proof. reflexivity. Qed.

End Runs.

(** * Further properties of the code *)

(** ** Extension lookup *)

Section ExtensionLookup.

Import LanguageDetector Examples.

Lemma registered_language_known (ext : str) (lang : LanguageType) :
  In (ext, lang) EXTENSION_MAP -> lang <> UNKNOWN.
Proof.
  unfold EXTENSION_MAP; simpl; intros H.
  repeat (destruct H as [H | H]; [inversion H; discriminate|]).
  contradiction.
Qed.

Lemma registered_extension_lowercase (ext : str) (lang : LanguageType) :
  In (ext, lang) EXTENSION_MAP -> lower ext = ext /\ ext <> [].
Proof.
  unfold EXTENSION_MAP; simpl; intros H.
  repeat (destruct H as [H | H];
          [inversion H; split; [reflexivity | discriminate]|]).
  contradiction.
Qed.

(** X1: [_detect_by_extension] answers UNKNOWN exactly when no registered
    extension is a suffix of the lowered path. *)
Theorem _detect_by_extension_unknown_iff (path : str) :
  _detect_by_extension path = UNKNOWN
  <-> forall ext lang,
        In (ext, lang) EXTENSION_MAP -> endswith (lower path) ext = false.
Proof.
  split.
  - intros U ext lang HIn.
    destruct (endswith (lower path) ext) eqn:E; [|reflexivity].
    pose proof (_detect_by_extension_registered path ext lang HIn E) as D.
    elim (registered_language_known ext lang HIn); congruence.
  - intros H; unfold _detect_by_extension, EXTENSION_MAP; cbn [List.find].
    rewrite (H (lit ".cs") CSHARP), (H (lit ".tsx") REACT_TYPESCRIPT),
      (H (lit ".ts") REACT_TYPESCRIPT), (H (lit ".jsx") REACT_JAVASCRIPT),
      (H (lit ".js") REACT_JAVASCRIPT), (H (lit ".java") JAVA);
      solve [reflexivity | unfold EXTENSION_MAP; simpl; tauto].
Qed.

Lemma lower_char_upper_char (c : ascii) :
  lower_char (upper_char c) = lower_char c.
Proof. destruct c as [[] [] [] [] [] [] [] []]; reflexivity. Qed.

Lemma lower_char_idempotent (c : ascii) :
  lower_char (lower_char c) = lower_char c.
Proof. destruct c as [[] [] [] [] [] [] [] []]; reflexivity. Qed.

Lemma lower_upper_ascii (s : str) : lower (upper_ascii s) = lower s.
Proof.
  unfold lower, upper_ascii; rewrite map_map; apply map_ext.
  exact lower_char_upper_char.
Qed.

Lemma lower_lower (s : str) : lower (lower s) = lower s.
Proof.
  unfold lower; rewrite map_map; apply map_ext; exact lower_char_idempotent.
Qed.

(* on ASCII text [upper] is the ASCII mapping, whatever the interpreter
   does beyond ASCII *)
Lemma upper_isascii (beyond : str -> str) (s : str) :
  isascii s = true -> upper beyond s = upper_ascii s.
Proof.
  unfold upper; induction s as [|c t IH]; [reflexivity|].
  cbn [isascii forallb upper_runs upper_ascii map].
  intros H; apply andb_true_iff in H; destruct H as [Hc Ht].
  rewrite Hc; cbn [upper_of_run]; rewrite app_nil_l.
  f_equal; apply IH; exact Ht.
Qed.

(** X2: for a path of ASCII characters, detection does not depend on the
    letter case of the path: the path put in upper case, or in lower case,
    is classified as the path itself, whatever the code. *)
Theorem detect_language_ignores_case
  (self : Detector) (beyond : str -> str) (code path : str) :
  isascii path = true ->
  detect_language self code (Some (upper beyond path))
  = detect_language self code (Some path)
  /\ detect_language self code (Some (lower path))
     = detect_language self code (Some path).
Proof.
  intros A; rewrite (upper_isascii beyond path A).
  assert (U : _detect_by_extension (upper_ascii path)
              = _detect_by_extension path)
    by (unfold _detect_by_extension; rewrite lower_upper_ascii; reflexivity).
  assert (L : _detect_by_extension (lower path) = _detect_by_extension path)
    by (unfold _detect_by_extension; rewrite lower_lower; reflexivity).
  destruct path as [|c p]; [split; reflexivity|].
  split.
  - change (upper_ascii (c :: p)) with (upper_char c :: upper_ascii p) in *.
    unfold detect_language; rewrite U; reflexivity.
  - change (lower (c :: p)) with (lower_char c :: lower p) in *.
    unfold detect_language; rewrite L; reflexivity.
Qed.

Lemma detect_language_ignores_case_witness :
  isascii (lit "src/Users.Cs") = true
  /\ upper (fun run => run) (lit "src/Users.Cs") = lit "SRC/USERS.CS"
  /\ detect_language example_detector (lit "plain text")
       (Some (lit "SRC/USERS.CS"))
     = detect_language example_detector (lit "plain text")
         (Some (lit "src/Users.Cs"))
  /\ detect_language example_detector (lit "plain text")
       (Some (lower (lit "src/Users.Cs")))
     = detect_language example_detector (lit "plain text")
         (Some (lit "src/Users.Cs")).
Proof.
  split; [reflexivity|].
  split; [reflexivity|].
  exact (detect_language_ignores_case example_detector (fun run => run)
           (lit "plain text") (lit "src/Users.Cs") eq_refl).
Defined.

Lemma get_supported_extensions_registered
  (language : LanguageType) (ext : str) :
  In ext (get_supported_extensions language)
  <-> In (ext, language) EXTENSION_MAP.
Proof.
  unfold get_supported_extensions; rewrite in_map_iff; split.
  - intros ([e l] & <- & H); apply filter_In in H; destruct H as [H E].
    destruct l, language; try discriminate E; exact H.
  - intros H; exists (ext, language); split; [reflexivity|].
    apply filter_In; split; [exact H | destruct language; reflexivity].
Qed.

(** X3: the extensions advertised for a language are honoured by
    detection: a path that ends in one of them is classified as that
    language, whatever precedes the extension and whatever the code is.
    UNKNOWN is the one language without extensions. *)
Theorem advertised_extension_is_detected
  (self : Detector) (language : LanguageType) (ext stem code : str) :
  In ext (get_supported_extensions language) ->
  detect_language self code (Some (stem ++ ext)) = language
  /\ language <> UNKNOWN.
Proof.
  intros H; apply get_supported_extensions_registered in H.
  pose proof (registered_language_known ext language H) as K.
  destruct (registered_extension_lowercase ext language H) as [Hl Hn].
  split; [|exact K].
  assert (E : endswith (lower (stem ++ ext)) ext = true).
  { apply endswith_iff; exists (lower stem).
    rewrite <- Hl at 2; unfold lower; apply map_app. }
  pose proof (_detect_by_extension_registered _ ext language H E) as D.
  destruct (stem ++ ext) as [|c p] eqn:P.
  - apply app_eq_nil in P; destruct P; contradiction.
  - unfold detect_language; rewrite D.
    destruct language; simpl; congruence.
Qed.

Lemma advertised_extension_is_detected_witness :
  In (lit ".tsx") (get_supported_extensions REACT_TYPESCRIPT)
  /\ detect_language example_detector (lit "public class A { }")
       (Some (lit "src/App" ++ lit ".tsx")) = REACT_TYPESCRIPT
  /\ REACT_TYPESCRIPT <> UNKNOWN.
Proof.
  split; [simpl; auto|].
  apply (advertised_extension_is_detected example_detector
           REACT_TYPESCRIPT (lit ".tsx")
           (lit "src/App") (lit "public class A { }")).
  simpl; auto.
Defined.

Lemma _detect_by_extension_unknown_iff_witness :
  _detect_by_extension (lit "notes.txt") = UNKNOWN
  /\ endswith (lower (lit "notes.txt")) (lit ".ts") = false.
Proof.
  split; [reflexivity|].
  apply (proj1 (_detect_by_extension_unknown_iff (lit "notes.txt")) eq_refl
           (lit ".ts") REACT_TYPESCRIPT).
  simpl; auto.
Defined.

End ExtensionLookup.

(** ** More on the conversion of raw records *)

Section ConversionMore.

Import BaseAnalyzer Aux Examples Notions.

(* a record whose severity cannot be read leaves the loop as it found it *)
Lemma skipped_before_uuid
  (rt : Runtime) (before after : list json) (data : json) (e : Exception)
  (path : option str) :
  parse_severity rt data = inl e ->
  _create_security_issues rt (before ++ data :: after) path
  = _create_security_issues rt (before ++ after) path.
Proof.
  intros Hs; unfold _create_security_issues; rewrite !create_from_app.
  f_equal; simpl; unfold convert_record; rewrite Hs; reflexivity.
Qed.

(** X4: an element of the decoded array that is not an object (a number,
    a string, null, a list) has no method [get]: it is skipped, and the
    batch yields what it yields without that element. *)
Theorem non_object_record_is_skipped
  (rt : Runtime) (before after : list json) (data : json)
  (path : option str) :
  is_object data = false ->
  _create_security_issues rt (before ++ data :: after) path
  = _create_security_issues rt (before ++ after) path.
Proof.
  intros H.
  assert (E : exists e, parse_severity rt data = inl e).
  { destruct data; try discriminate H;
      unfold parse_severity, py_get, no_attribute, raise; simpl; eauto. }
  destruct E as [e E]; apply (skipped_before_uuid rt before after data e path E).
Qed.

Lemma non_object_record_is_skipped_witness :
  _create_security_issues example_runtime
    ([JObject located_record] ++ JString (lit "no issues found")
       :: [JObject vague_record]) None
  = _create_security_issues example_runtime
      ([JObject located_record] ++ [JObject vague_record]) None.
Proof.
  apply (non_object_record_is_skipped example_runtime
           [JObject located_record] [JObject vague_record]
           (JString (lit "no issues found")) None).
  reflexivity.
Defined.

(** X5: a record that carries none of the keys the conversion reads is
    kept, with every default of the code: a generated identifier "SEC-"
    and eight digits of a fresh uuid, the title "Security Issue", the
    description "No description provided", severity MEDIUM, no line,
    column, snippet or remediation, no references, and the caller's path
    when that is a non-empty string. *)
Theorem record_without_keys_gets_defaults
  (rt : Runtime) (n : nat) (d : list (str * json)) (path : option str) :
  (forall key, In key issue_keys -> dict_get (lit key) d = None) ->
  convert_record rt n (JObject d) path
  = (S n,
     inr {| id := lit "SEC-" ++ firstn 8 (uuid4_hex rt n);
            title := lit "Security Issue";
            description := lit "No description provided";
            severity := MEDIUM;
            line_number := None;
            column_number := None;
            file_path := match path with
                         | Some (c :: p) => Some (c :: p)
                         | _ => None
                         end;
            code_snippet := None;
            remediation := None;
            references := Some [] |}).
Proof.
  intros H.
  assert (K : forall key, In key issue_keys ->
                          forall default,
                            py_get (JObject d) key default = ret default).
  { intros key Hk default; unfold py_get; rewrite (H key Hk); reflexivity. }
  unfold convert_record, parse_severity, make_issue.
  rewrite !K by (unfold issue_keys; simpl; tauto).
  destruct path as [[|c p]|]; reflexivity.
Qed.

Lemma record_without_keys_gets_defaults_witness :
  map (fun i => (id i, title i, severity i, file_path i))
      (_create_security_issues example_runtime
         [JObject [(lit "note", JString (lit "n/a"))]] (Some (lit "U.cs")))
  = [ (lit "SEC-3f2b8c1d", lit "Security Issue", MEDIUM, Some (lit "U.cs")) ].
Proof.
  unfold _create_security_issues; cbn [create_from].
  rewrite (record_without_keys_gets_defaults example_runtime 0
             [(lit "note", JString (lit "n/a"))] (Some (lit "U.cs")));
    [reflexivity|].
  intros key Hk; unfold issue_keys in Hk; simpl in Hk.
  repeat (destruct Hk as [<- | Hk]; [reflexivity|]); contradiction.
Defined.

Lemma field_str_inr (field : string) (v : json) (s : str) :
  field_str field v = inr s -> v = JString s.
Proof. destruct v; simpl; intros H; inversion H; reflexivity. Qed.

(* the three fields of type [str] *)
Lemma make_issue_required_strings
  (rt : Runtime) (fresh : str) (d : list (str * json)) (sev : SeverityLevel)
  (path : option str) (issue : SecurityIssue) :
  make_issue rt fresh (JObject d) sev path = inr issue ->
  forall key v,
    In key ["id"; "title"; "description"]%string ->
    dict_get (lit key) d = Some v -> exists s, v = JString s.
Proof.
  unfold make_issue, py_get; intros H key v Hk Hv.
  cbn [bind ret] in H; unfold SecurityIssue_new in H.
  apply bind_inr in H; destruct H as (i & Hi & H).
  apply bind_inr in H; destruct H as (t & Ht & H).
  apply bind_inr in H; destruct H as (ds & Hd & _).
  apply field_str_inr in Hi, Ht, Hd.
  simpl in Hk; destruct Hk as [<- | [<- | [<- | []]]];
    rewrite Hv in *; eauto.
Qed.

(** X6: a record in which the key "id", "title" or "description" is
    present with a value that is not a string (null included) yields no
    issue, although the same record without that key would get the
    default: the loop goes on with the rest of the batch. *)
Theorem non_string_required_field_is_dropped
  (rt : Runtime) (n : nat) (d : list (str * json)) (key : string) (v : json)
  (rest : list json) (path : option str) :
  In key ["id"; "title"; "description"]%string ->
  dict_get (lit key) d = Some v ->
  (forall s, v <> JString s) ->
  exists n',
    create_from rt n (JObject d :: rest) path = create_from rt n' rest path.
Proof.
  intros Hk Hv Hs; cbn [create_from].
  destruct (convert_record rt n (JObject d) path) as [n' [e|issue]] eqn:E;
    [exists n'; reflexivity|].
  exfalso; unfold convert_record in E.
  destruct (parse_severity rt (JObject d)) as [e|sev]; [discriminate E|].
  inversion E as [[Hn Hmk]].
  destruct (make_issue_required_strings _ _ _ _ _ _ Hmk key v Hk Hv)
    as [s ->].
  elim (Hs s); reflexivity.
Qed.

Lemma non_string_required_field_is_dropped_witness :
  exists n',
    create_from example_runtime 0
      (JObject [(lit "title", JNull)] :: [JObject vague_record]) None
    = create_from example_runtime n' [JObject vague_record] None.
Proof.
  apply (non_string_required_field_is_dropped example_runtime 0
           [(lit "title", JNull)] "title" JNull [JObject vague_record] None).
  - simpl; auto.
  - reflexivity.
  - discriminate.
Defined.

(* looking a member up by its value gives the member back *)
Lemma SeverityLevel_of_value_value (level : SeverityLevel) :
  SeverityLevel_of_value (SeverityLevel_value level) = inr level.
Proof. destruct level; reflexivity. Qed.

(** X7: the severity of a record is read without regard to letter case:
    when the upper-cased severity string is the value of a level, every
    issue made from the record has that level; a record without the key
    "severity" gets MEDIUM. *)
Theorem recognized_severity_is_kept
  (rt : Runtime) (n n' : nat) (d : list (str * json)) (path : option str)
  (issue : SecurityIssue) :
  convert_record rt n (JObject d) path = (n', inr issue) ->
  (forall s level,
     dict_get (lit "severity") d = Some (JString s) ->
     upper (upper_unicode rt) s = SeverityLevel_value level ->
     severity issue = level)
  /\ (dict_get (lit "severity") d = None -> severity issue = MEDIUM).
Proof.
  unfold convert_record; intros H.
  destruct (parse_severity rt (JObject d)) as [e|sev] eqn:P;
    [discriminate H|].
  inversion H as [[Hn Hmk]]; clear H.
  apply make_issue_severity in Hmk; rewrite Hmk; clear Hmk.
  unfold parse_severity, py_get in P; split.
  - intros s level Hget Hup; rewrite Hget in P; simpl in P.
    rewrite Hup, SeverityLevel_of_value_value in P.
    inversion P; reflexivity.
  - intros Hget; rewrite Hget in P; inversion P; reflexivity.
Qed.

Lemma recognized_severity_is_kept_witness :
  exists n' issue,
    convert_record example_runtime 0 (JObject located_record) None
    = (n', inr issue)
    /\ severity issue = HIGH.
Proof.
  destruct (convert_record example_runtime 0 (JObject located_record) None)
    as [n' [e|issue]] eqn:E; [discriminate E|].
  exists n', issue; split; [reflexivity|].
  apply (proj1 (recognized_severity_is_kept example_runtime 0 n'
                  located_record None issue E) (lit "high") HIGH);
    reflexivity.
Defined.

(** X8: the conversion makes at most one issue for each object of the
    batch and none for anything else; the empty batch gives no issue. *)
Theorem issues_bounded_by_objects
  (rt : Runtime) (issues_data : list json) (path : option str) :
  length (_create_security_issues rt issues_data path)
  <= length (filter is_object issues_data)
  /\ length (filter is_object issues_data) <= length issues_data.
Proof.
  split; [|apply filter_length_le].
  unfold _create_security_issues; generalize 0 as n.
  induction issues_data as [|data rest IH]; intros n; simpl; [lia|].
  destruct (convert_record rt n data path) as [n' [e|issue]] eqn:E.
  - specialize (IH n'); destruct (is_object data); simpl; lia.
  - assert (O : is_object data = true).
    { unfold convert_record in E.
      destruct (parse_severity rt data) eqn:P; [discriminate E|].
      destruct data; try discriminate P; reflexivity. }
    rewrite O; specialize (IH n'); simpl; lia.
Qed.

End ConversionMore.

(** ** More on the normalizer's parse *)

Section ParseMore.

Import LLMService Notions Json.

(** X9: text before the first '[' and after the last ']' does not count:
    a response that wraps an array in prose, or in a code fence, is parsed
    as the array alone, with the same result and the same failure. *)
Theorem parse_llm_response_ignores_wrapping
  (lim : limits) (pre mid post : str) :
  ~ In "[" pre -> ~ In "]" post ->
  parse_llm_response lim (pre ++ "[" :: mid ++ "]" :: post)
  = parse_llm_response lim ("[" :: mid ++ ["]"]).
Proof.
  intros N1 N2.
  rewrite (parse_bracketed lim pre mid post N1 N2).
  pose proof (parse_bracketed lim [] mid []) as H.
  change ([] ++ "[" :: mid ++ ["]"]) with ("[" :: mid ++ ["]"]) in H.
  rewrite H; [reflexivity | intros [] | intros []].
Qed.

Lemma parse_llm_response_ignores_wrapping_witness :
  parse_llm_response default_limits
    (lit "```json" ++ "[" :: lit "1, 2" ++ "]" :: lit "``` Done.")
  = parse_llm_response default_limits ("[" :: lit "1, 2" ++ ["]"])
  /\ parse_llm_response default_limits ("[" :: lit "1, 2" ++ ["]"])
     = inr [JInt 1; JInt 2].
Proof.
  split; [|reflexivity].
  apply (parse_llm_response_ignores_wrapping default_limits
           (lit "```json") (lit "1, 2") (lit "``` Done."));
    intros H; simpl in H;
    repeat (destruct H as [H | H]; [discriminate H|]); exact H.
Defined.

(* the failures of the parts of the decoder *)
Lemma prepend_raise (bytes : str) (r : res (str * str)) (e : Exception) :
  prepend bytes r = Raise e -> r = Raise e.
Proof. destruct r as [[text rest]| |]; simpl; congruence. Qed.

Lemma scanstring_loop_raises (s : str) :
  forall skip e,
    scanstring_loop s skip = Raise e -> exc_class_of e = JSONDecodeError.
Proof.
  induction s as [|c t IH]; intros skip e H; cbn [scanstring_loop] in H.
  - inversion H; reflexivity.
  - destruct skip as [|k]; [|apply (IH k e H)].
    destruct (Ascii.eqb c dquote); [discriminate H|].
    destruct (Ascii.eqb c "\").
    { destruct (escape t) as [[bytes k]|].
      - apply prepend_raise in H; apply (IH k e H).
      - inversion H; reflexivity. }
    destruct (Nat.ltb (code c) 32); [inversion H; reflexivity|].
    apply prepend_raise in H; apply (IH 0 e H).
Qed.

Lemma make_int_raises (lim : limits) (neg : bool) (digits : str)
  (e : Exception) :
  make_int lim neg digits = Raise e -> decoder_failure lim e.
Proof.
  unfold make_int, decoder_failure.
  destruct (int_max_str_digits lim) as [n|]; [|discriminate].
  destruct (Nat.ltb n (length digits)); [|discriminate].
  intros H; inversion H; right; right; split; [reflexivity | discriminate].
Qed.

Lemma scan_atom_raises (lim : limits) (s : str) (e : Exception) :
  scan_atom lim s = Raise e -> decoder_failure lim e.
Proof.
  unfold scan_atom.
  destruct (starts_with (lit "null") s); [discriminate|].
  destruct (starts_with (lit "true") s); [discriminate|].
  destruct (starts_with (lit "false") s); [discriminate|].
  destruct (match_number s) as [[[[neg digits] tail] r]|].
  { destruct tail; [|discriminate].
    destruct (make_int lim neg digits) eqn:E; try discriminate.
    intros H; inversion H; subst; apply (make_int_raises _ _ _ _ E). }
  destruct (starts_with (lit "NaN") s); [discriminate|].
  destruct (starts_with (lit "Infinity") s); [discriminate|].
  destruct (starts_with (lit "-Infinity") s); [discriminate|].
  intros H; inversion H; left; reflexivity.
Qed.

Lemma elements_raises (lim : limits)
  (scan_once : str -> res (json * str)) :
  (forall s e, scan_once s = Raise e -> decoder_failure lim e) ->
  forall n s e, elements scan_once n s = Raise e -> decoder_failure lim e.
Proof.
  intros W; induction n as [|n IH]; intros s e H; cbn [elements] in H;
    [discriminate H|].
  destruct (scan_once s) as [[v s1]| |] eqn:E; [| | discriminate H].
  - destruct (skip_ws s1) as [|c s2]; [inversion H; left; reflexivity|].
    destruct (Ascii.eqb c "]"); [discriminate H|].
    destruct (Ascii.eqb c ","); [|inversion H; left; reflexivity].
    destruct (elements scan_once n (skip_ws s2)) as [[l s3]| |] eqn:E';
      try discriminate H.
    inversion H; subst; apply (IH _ _ E').
  - inversion H; subst; apply (W _ _ E).
Qed.

Lemma members_raises (lim : limits)
  (scan_once : str -> res (json * str)) :
  (forall s e, scan_once s = Raise e -> decoder_failure lim e) ->
  forall n s d e,
    members scan_once n s d = Raise e -> decoder_failure lim e.
Proof.
  intros W; induction n as [|n IH]; intros s d e H; cbn [members] in H;
    [discriminate H|].
  destruct s as [|q s1]; [inversion H; left; reflexivity|].
  destruct (Ascii.eqb q dquote); [|inversion H; left; reflexivity].
  destruct (scanstring s1) as [[key s2]| |] eqn:E; [| | discriminate H].
  - destruct (skip_ws s2) as [|colon s3]; [inversion H; left; reflexivity|].
    destruct (Ascii.eqb colon ":"); [|inversion H; left; reflexivity].
    destruct (scan_once (skip_ws s3)) as [[v s4]| |] eqn:E';
      [| inversion H; subst; apply (W _ _ E') | discriminate H].
    cbv zeta in H.
    destruct (skip_ws s4) as [|c s5]; [inversion H; left; reflexivity|].
    destruct (Ascii.eqb c "}"); [discriminate H|].
    destruct (Ascii.eqb c ","); [|inversion H; left; reflexivity].
    apply (IH _ _ _ H).
  - inversion H; subst; left; apply (scanstring_loop_raises _ _ _ E).
Qed.

Lemma scan_raises (lim : limits) :
  forall depth s e, scan lim depth s = Raise e -> decoder_failure lim e.
Proof.
  assert (string_case : forall t e,
            match scanstring t with
            | Ok (text, rest) => Ok (JString text, rest)
            | Raise e => Raise e
            | Fuel => Fuel
            end = Raise e -> decoder_failure lim e).
  { intros t e H; destruct (scanstring t) as [[text rest]| |] eqn:E;
      try discriminate H.
    inversion H; subst; left; apply (scanstring_loop_raises _ _ _ E). }
  induction depth as [|d IH]; intros s e H;
    (destruct s as [|c t]; cbn [scan] in H;
     [inversion H; left; reflexivity|]);
    (destruct (Ascii.eqb c dquote); [apply (string_case t e H)|]).
  - destruct (Ascii.eqb c "{"); [inversion H; right; left; reflexivity|].
    destruct (Ascii.eqb c "["); [inversion H; right; left; reflexivity|].
    apply (scan_atom_raises _ _ _ H).
  - destruct (Ascii.eqb c "{").
    { destruct (skip_ws t) as [|c' rest]; [inversion H; left; reflexivity|].
      destruct (Ascii.eqb c' "}"); [discriminate H|].
      apply (members_raises lim _ IH _ _ _ _ H). }
    destruct (Ascii.eqb c "[").
    { destruct (skip_ws t) as [|c' rest]; [inversion H; left; reflexivity|].
      destruct (Ascii.eqb c' "]"); [discriminate H|].
      destruct (elements (scan lim d) (S (length t)) (c' :: rest))
        as [[l rest']| |] eqn:E; try discriminate H.
      inversion H; subst; apply (elements_raises lim _ IH _ _ _ E). }
    apply (scan_atom_raises _ _ _ H).
Qed.

Lemma json_loads_raises (lim : limits) (s : str) (e : Exception) :
  json_loads lim s = inl e -> decoder_failure lim e.
Proof.
  unfold json_loads; pose proof (loads_has_fuel lim s) as F.
  destruct (loads lim s) as [v|e'|] eqn:L; [discriminate | | congruence].
  intros H; inversion H; subst e'; clear H.
  unfold loads in L.
  destruct (starts_with _ s); [inversion L; left; reflexivity|].
  destruct (scan lim (recursion_limit lim) (skip_ws s)) as [[v rest]| |] eqn:E;
    [| inversion L; subst; apply (scan_raises _ _ _ _ E) | discriminate L].
  destruct (skip_ws rest); [discriminate L | inversion L; left; reflexivity].
Qed.

(** X10: when [parse_llm_response] raises, the exception is never the
    JSONDecodeError of a text that is not JSON: it is the RecursionError of
    a text nested too deep or the ValueError of an integer over the digit
    limit; where the interpreter has no digit limit, only the
    RecursionError is left. *)
Theorem parse_llm_response_escaping_failures
  (lim : limits) (response : str) (e : Exception) :
  parse_llm_response lim response = inl e ->
  exc_class_of e = RecursionError
  \/ (exc_class_of e = ValueError /\ int_max_str_digits lim <> None).
Proof.
  unfold parse_llm_response.
  set (json_start := find response "[").
  set (json_end := (rfind response "]" + 1)%Z).
  assert (G : forall text,
            try_except_class JSONDecodeError
              (bind (json_loads lim text)
                    (fun issues => ret (list_or_empty issues)))
              (ret []) = inl e ->
            exc_class_of e = RecursionError
            \/ (exc_class_of e = ValueError
                /\ int_max_str_digits lim <> None)).
  { intros text; unfold try_except_class, bind, ret.
    destruct (json_loads lim text) as [e'|v] eqn:L; [|discriminate].
    destruct (isinstance e' JSONDecodeError) eqn:I; [discriminate|].
    simpl; intros H; inversion H; subst e'.
    destruct (json_loads_raises lim text e L) as [C | [C | C]]; auto.
    unfold isinstance in I; rewrite C in I; discriminate I. }
  destruct ((json_start >=? 0) && (json_end >? json_start))%Z; apply G.
Qed.

Lemma parse_llm_response_escaping_failures_witness :
  exists e,
    parse_llm_response default_limits (repeat "[" 1001) = inl e
    /\ (exc_class_of e = RecursionError
        \/ (exc_class_of e = ValueError
            /\ int_max_str_digits default_limits <> None)).
Proof.
  destruct (parse_llm_response default_limits (repeat "[" 1001))
    as [e|l] eqn:E; [|vm_compute in E; discriminate E].
  exists e; split; [reflexivity|].
  exact (parse_llm_response_escaping_failures default_limits
           (repeat "[" 1001) e E).
Defined.

End ParseMore.

(** ** More on preprocessing *)

Section PreprocessMore.

Import Re BaseAnalyzer Notions.

(* [sub] does not lengthen a text when no replacement is longer than the
   match it stands for *)
Lemma sub_loop_length (fl : flags) (r : re) (repl : str -> str) :
  (forall m, length (repl m) <= length m) ->
  forall s prev skip,
    length (sub_loop fl r repl prev s skip) + length (firstn skip s)
    <= length s.
Proof.
  intros Hrepl; induction s as [|c t IH]; intros prev skip.
  - destruct skip; simpl; [|lia].
    destruct (match_here fl r prev []); simpl; [|lia].
    pose proof (Hrepl []); simpl in *; lia.
  - destruct skip as [|n].
    + rewrite sub_loop_cons, firstn_O.
      destruct (match_here fl r prev (c :: t)) as [rest|] eqn:E.
      * apply matched_text in E; destruct E as (m & Hs & Hm & Hl & _).
        rewrite Hl in Hm; rewrite Hl, Hm, length_app.
        pose proof (Hrepl m) as Hr.
        destruct (length m) as [|k] eqn:Lm.
        -- specialize (IH (Some c) 0); rewrite firstn_O in IH.
           simpl in *; lia.
        -- specialize (IH (Some c) k).
           assert (length (firstn k t) = k).
           { apply firstn_length_le.
             assert (length (c :: t) = length m + length rest)
               by (rewrite Hs, length_app; reflexivity).
             simpl in *; lia. }
           simpl in *; lia.
      * specialize (IH (Some c) 0); rewrite firstn_O in IH; simpl in *; lia.
    + change (sub_loop fl r repl prev (c :: t) (S n))
        with (sub_loop fl r repl (Some c) t n).
      specialize (IH (Some c) n); simpl in *; lia.
Qed.

Lemma sub_length (fl : flags) (r : re) (repl : str -> str) (s : str) :
  (forall m, length (repl m) <= length m) ->
  length (sub r repl s fl) <= length s.
Proof.
  intros H; pose proof (sub_loop_length fl r repl H s None 0) as G.
  unfold sub; rewrite firstn_O in G; simpl in G; lia.
Qed.

Lemma replace_multiline_comment_length (m : str) :
  length (replace_multiline_comment m) <= length m.
Proof.
  unfold replace_multiline_comment.
  assert (L : forall n, length (times [nl] n) = n).
  { induction n as [|n IH]; [reflexivity|].
    change (times [nl] (S n)) with (nl :: times [nl] n).
    simpl; rewrite IH; reflexivity. }
  rewrite L; unfold count; apply filter_length_le.
Qed.

(** X11: preprocessing never lengthens the code: the output has at most
    as many characters as the input. *)
Theorem preprocess_code_never_longer (code : str) :
  length (preprocess_code code) <= length code.
Proof.
  unfold preprocess_code.
  etransitivity;
    [apply sub_length; exact replace_multiline_comment_length|].
  apply sub_length; intros m; simpl; lia.
Qed.

(* a match of the first pattern starts with two slashes, a match of the
   second with a slash and a star *)
Lemma line_comment_starts (fl : flags) (prev : option ascii) (s rest : str) :
  match_here fl (pattern (lit "//.*?$")) prev s = Some rest ->
  exists t, s = "/" :: "/" :: t.
Proof.
  change (pattern (lit "//.*?$"))
    with (Seq (Chr "/") (Seq (Chr "/") (Seq (Star false Any) Eol))).
  unfold match_here; cbn [run].
  destruct s as [|x [|y t]]; try discriminate;
    (destruct (Ascii.eqb x "/") eqn:E1; [|discriminate]); [discriminate|].
  destruct (Ascii.eqb y "/") eqn:E2; [|discriminate].
  apply Ascii.eqb_eq in E1, E2; subst; eauto.
Qed.

Lemma block_comment_starts (fl : flags) (prev : option ascii) (s rest : str) :
  match_here fl (pattern (lit "/\*.*?\*/")) prev s = Some rest ->
  exists t, s = "/" :: "*" :: t.
Proof.
  change (pattern (lit "/\*.*?\*/"))
    with (Seq (Chr "/") (Seq (Chr "*") (Seq (Star false Any)
            (Seq (Chr "*") (Chr "/"))))).
  unfold match_here; cbn [run].
  destruct s as [|x [|y t]]; try discriminate;
    (destruct (Ascii.eqb x "/") eqn:E1; [|discriminate]); [discriminate|].
  destruct (Ascii.eqb y "*") eqn:E2; [|discriminate].
  apply Ascii.eqb_eq in E1, E2; subst; eauto.
Qed.

(* [sub] leaves a text alone when the pattern has no place to start *)
Lemma sub_loop_untouched (fl : flags) (r : re) (repl : str -> str)
  (a b : ascii) :
  (forall prev s rest,
      match_here fl r prev s = Some rest -> exists t, s = a :: b :: t) ->
  forall s prev,
    has_pair a b s = false -> sub_loop fl r repl prev s 0 = s.
Proof.
  intros Hstart; induction s as [|c t IH]; intros prev Hp.
  - simpl; destruct (match_here fl r prev []) eqn:E; [|reflexivity].
    apply Hstart in E; destruct E as [t E]; discriminate E.
  - rewrite sub_loop_cons.
    destruct (match_here fl r prev (c :: t)) as [rest|] eqn:E.
    + apply Hstart in E; destruct E as [t' E]; inversion E; subst.
      simpl in Hp; rewrite !Ascii.eqb_refl in Hp; discriminate Hp.
    + f_equal; apply IH.
      destruct t as [|y t']; [reflexivity|].
      cbn [has_pair] in Hp; apply orb_false_iff in Hp; apply Hp.
Qed.

(** X12: code that holds neither "//" nor "/*" comes back from
    preprocessing unchanged. *)
Theorem preprocess_code_without_comment_marks (code : str) :
  has_pair "/" "/" code = false ->
  has_pair "/" "*" code = false ->
  preprocess_code code = code.
Proof.
  intros H1 H2; unfold preprocess_code, sub.
  rewrite (sub_loop_untouched MULTILINE _ _ "/" "/"
             (line_comment_starts MULTILINE) code None H1).
  apply (sub_loop_untouched DOTALL _ _ "/" "*"
           (block_comment_starts DOTALL) code None H2).
Qed.

Lemma preprocess_code_without_comment_marks_witness :
  preprocess_code (lit "int ratio = a / b * c;") = lit "int ratio = a / b * c;".
Proof.
  apply (preprocess_code_without_comment_marks
           (lit "int ratio = a / b * c;")); reflexivity.
Defined.

End PreprocessMore.

(** ** More on the analyze boundary *)

Section AnalyzeMore.

Import LLMService BaseAnalyzer Examples Notions.

Lemma analyze_cases (self : Self) (code : str) (path : option str)
  (r : AnalysisResult) :
  analyze self code path = inr r ->
  (exists e, r = error_result self e)
  \/ (exists summary_,
        r = {| language := get_language_type self;
               issues := issues r;
               summary := summary_;
               analysis_metadata := success_metadata self (issues r) |}).
Proof.
  unfold analyze, try_except, analyze_body, bind.
  destruct (self_preprocess_code self code) as [e|pre];
    [intros H; inversion H; eauto|].
  destruct (get_security_rules_prompt self) as [e|prompt];
    [intros H; inversion H; eauto|].
  destruct (self_analyze_code self pre prompt) as [e|response];
    [intros H; inversion H; eauto|].
  destruct (self_parse_llm_response self response) as [e|data];
    [intros H; inversion H; eauto|].
  destruct (self_create_security_issues self data path) as [e|found];
    [intros H; inversion H; eauto|].
  destruct (self_generate_summary self found) as [e|text];
    intros H; inversion H; eauto.
Qed.

Lemma analyze_language (self : Self) (code : str) (path : option str)
  (r : AnalysisResult) :
  analyze self code path = inr r -> language r = get_language_type self.
Proof.
  intros H; destruct (analyze_cases self code path r H) as [[e ->] | [s ->]];
    reflexivity.
Qed.

(** X13: the metadata of a result agree with its issue list.  Either the
    result reports a failure: it has no issues, an "error" entry whose text
    the summary repeats, and no counts; or it has status COMPLETED, no
    "error" entry, "total_issues" is the length of the issue list and the
    four severity counts add up to it. *)
Theorem analyze_metadata_agree_with_issues
  (self : Self) (code : str) (path : option str) (r : AnalysisResult) :
  analyze self code path = inr r ->
  let md := analysis_metadata r in
  (issues r = []
   /\ meta_get (lit "total_issues") md = None
   /\ meta_get (lit "status") md = None
   /\ exists m, meta_get (lit "error") md = Some (MStr m)
                /\ summary r = lit "Analysis failed: " ++ m)
  \/ (meta_get (lit "error") md = None
      /\ meta_get (lit "status") md = Some (MStr (lit "COMPLETED"))
      /\ meta_get (lit "total_issues") md = Some (MInt (length (issues r)))
      /\ exists c h m l,
           meta_get (lit "critical_count") md = Some (MInt c)
           /\ meta_get (lit "high_count") md = Some (MInt h)
           /\ meta_get (lit "medium_count") md = Some (MInt m)
           /\ meta_get (lit "low_count") md = Some (MInt l)
           /\ c + h + m + l = length (issues r)).
Proof.
  intros H md; subst md.
  destruct (analyze_cases self code path r H) as [[e ->] | [s E]].
  - left; repeat split; exists (exc_str e); split; reflexivity.
  - right; rewrite E; cbn [analysis_metadata issues].
    repeat split.
    exists (count_severity CRITICAL (issues r)),
           (count_severity HIGH (issues r)),
           (count_severity MEDIUM (issues r)),
           (count_severity LOW (issues r)).
    repeat split; apply count_severity_total.
Qed.

Lemma analyze_metadata_agree_with_issues_witness :
  let r := error_result csharp_analyzer_offline
             (mkExc OtherException
                (lit "LLM analysis failed: All connection attempts failed")) in
  analyze csharp_analyzer_offline (lit "int x;") None = inr r
  /\ ((issues r = []
       /\ meta_get (lit "total_issues") (analysis_metadata r) = None
       /\ meta_get (lit "status") (analysis_metadata r) = None
       /\ exists m, meta_get (lit "error") (analysis_metadata r)
                    = Some (MStr m)
                    /\ summary r = lit "Analysis failed: " ++ m)
      \/ (meta_get (lit "error") (analysis_metadata r) = None
          /\ meta_get (lit "status") (analysis_metadata r)
             = Some (MStr (lit "COMPLETED"))
          /\ meta_get (lit "total_issues") (analysis_metadata r)
             = Some (MInt (length (issues r)))
          /\ exists c h m l,
               meta_get (lit "critical_count") (analysis_metadata r)
               = Some (MInt c)
               /\ meta_get (lit "high_count") (analysis_metadata r)
                  = Some (MInt h)
               /\ meta_get (lit "medium_count") (analysis_metadata r)
                  = Some (MInt m)
               /\ meta_get (lit "low_count") (analysis_metadata r)
                  = Some (MInt l)
               /\ c + h + m + l = length (issues r))).
Proof.
  intros r; split; [reflexivity|].
  apply (analyze_metadata_agree_with_issues csharp_analyzer_offline
           (lit "int x;") None r).
  reflexivity.
Defined.

(** X14: a reply of the model that yields no records is reported as a
    clean analysis.  When [parse_llm_response] turns the reply into the
    empty list, as it does for a reply that holds no JSON at all, [analyze]
    returns a result whose summary starts "No security issues detected.",
    with status COMPLETED and a total of 0: nothing in the result tells an
    unreadable reply from an empty array. *)
Theorem reply_without_records_reads_as_clean
  (rt : Runtime) (post : str -> M str) (name : str) (lang : LanguageType)
  (rules code response : str) (path : option str) :
  (forall prompt, post prompt = inr response) ->
  parse_llm_response (rt_limits rt) response = inr [] ->
  exists r,
    analyze (BaseSecurityAnalyzer rt post name lang rules) code path = inr r
    /\ issues r = []
    /\ summary r
       = lit "No security issues detected." ++ completion_text lang name
    /\ meta_get (lit "status") (analysis_metadata r)
       = Some (MStr (lit "COMPLETED"))
    /\ meta_get (lit "total_issues") (analysis_metadata r) = Some (MInt 0)
    /\ meta_get (lit "error") (analysis_metadata r) = None.
Proof.
  intros Hpost Hparse.
  eexists; split.
  - unfold analyze, try_except, analyze_body, BaseSecurityAnalyzer;
      cbn [self_preprocess_code get_security_rules_prompt self_analyze_code
           self_parse_llm_response self_create_security_issues
           self_generate_summary get_language_type bind ret].
    unfold analyze_code; rewrite Hpost; cbn [try_except bind].
    rewrite Hparse; cbn [bind ret]; reflexivity.
  - repeat split.
Qed.

Lemma reply_without_records_reads_as_clean_witness :
  let reply := lit "I am sorry, I cannot review this file." in
  parse_llm_response default_limits reply = inr []
  /\ exists r,
       analyze (BaseSecurityAnalyzer example_runtime (fun _ => inr reply)
                  (lit "JavaSecurityAnalyzer") JAVA (lit "rules"))
               (lit "class A { }") (Some (lit "A.java")) = inr r
       /\ issues r = []
       /\ summary r
          = lit "No security issues detected."
            ++ completion_text JAVA (lit "JavaSecurityAnalyzer")
       /\ meta_get (lit "status") (analysis_metadata r)
          = Some (MStr (lit "COMPLETED"))
       /\ meta_get (lit "total_issues") (analysis_metadata r)
          = Some (MInt 0)
       /\ meta_get (lit "error") (analysis_metadata r) = None.
Proof.
  intros reply; split; [vm_compute; reflexivity|].
  apply (reply_without_records_reads_as_clean example_runtime
           (fun _ => inr reply) (lit "JavaSecurityAnalyzer") JAVA
           (lit "rules") (lit "class A { }") reply (Some (lit "A.java"))).
  - intros prompt; reflexivity.
  - vm_compute; reflexivity.
Defined.

End AnalyzeMore.

(** ** Configuration and health of the model gateway *)

Section Setup.

Import BaseAnalyzer LLMSetup.

Lemma rstrip_last (c : ascii) (s pre : str) : rstrip s c <> pre ++ [c].
Proof.
  revert pre; induction s as [|x t IH]; intros pre; simpl.
  - destruct pre; discriminate.
  - destruct (rstrip t c) as [|y r] eqn:E.
    + destruct (Ascii.eqb_spec x c) as [->|N].
      * destruct pre; discriminate.
      * destruct pre as [|p [|q pre]]; simpl; try discriminate.
        intros H; inversion H; contradiction.
    + destruct pre as [|p pre]; simpl.
      * discriminate.
      * intros H; inversion H as [[Hx Hr]].
        exact (IH pre Hr).
Qed.

Lemma rstrip_app (c : ascii) (s : str) :
  exists n, s = rstrip s c ++ times [c] n.
Proof.
  induction s as [|x t [n IH]]; simpl.
  - exists 0; reflexivity.
  - destruct (rstrip t c) as [|y r] eqn:E.
    + destruct (Ascii.eqb_spec x c) as [->|N].
      * exists (S n); simpl in IH; rewrite IH at 1; reflexivity.
      * exists n; simpl in IH; rewrite IH at 1; reflexivity.
    + exists n; rewrite IH at 1; reflexivity.
Qed.

(** X15: the base URL that the gateway keeps never ends in a slash: it is
    the configured URL (the argument, else LMSTUDIO_BASE_URL, else the
    default) less all its trailing slashes, so that joining it with
    "/v1/models" or "/v1/chat/completions" never doubles the slash. *)
Theorem base_url_has_no_trailing_slash
  (environ : str -> option str) (base_url_ model_ api_key_ : option str) :
  let self := __init__ environ base_url_ model_ api_key_ in
  endswith (base_url self) (lit "/") = false
  /\ (exists n,
        configured_url environ base_url_
        = base_url self ++ times (lit "/") n)
  /\ forall given,
       base_url_ = Some given -> given <> [] ->
       exists n, given = base_url self ++ times (lit "/") n.
Proof.
  intros self; subst self; cbn [__init__ base_url].
  split; [|split].
  - destruct (endswith _ _) eqn:E; [|reflexivity].
    apply endswith_iff in E; destruct E as [pre E].
    elim (rstrip_last "/" _ pre E).
  - apply rstrip_app.
  - intros given -> Hne.
    destruct given as [|c g]; [congruence|].
    apply (rstrip_app "/" (c :: g)).
Qed.

(** X16: the health check of the gateway always returns a report and
    never raises.  The report says available exactly when the models
    endpoint answered with a JSON object; the models listed are then the
    "data" entry of the answer, or the empty list without one.  Every
    other outcome, an answer that is a JSON list or number included, gives
    an unhealthy report that carries the text of the exception. *)
Theorem llm_health_check_reports
  (self : LLMService) (http_get : str -> M json) :
  exists h,
    health_check self http_get = inr h
    /\ health_base_url h = base_url self
    /\ (available h = true
        <-> exists d, http_get (models_url self) = inr (JObject d))
    /\ (forall d,
          http_get (models_url self) = inr (JObject d) ->
          status h = lit "healthy" /\ error h = None
          /\ models h = Some (match dict_get (lit "data") d with
                              | Some v => v
                              | None => JArray []
                              end))
    /\ (forall e,
          http_get (models_url self) = inl e ->
          status h = lit "unhealthy" /\ available h = false
          /\ models h = None /\ error h = Some (exc_str e))
    /\ (forall v,
          http_get (models_url self) = inr v ->
          (forall d, v <> JObject d) ->
          status h = lit "unhealthy" /\ available h = false
          /\ models h = None
          /\ error h = Some (lit "'" ++ type_name v
                             ++ lit "' object has no attribute 'get'")).
Proof.
  unfold health_check, try_except, bind.
  destruct (http_get (models_url self)) as [e|v] eqn:G.
  - eexists; split; [reflexivity|]; cbn.
    split; [reflexivity|].
    split; [split; [discriminate | intros [d D]; discriminate]|].
    split; [intros d D; discriminate|].
    split; [|intros v E N; discriminate].
    intros e' E; inversion E; subst; repeat split; reflexivity.
  - destruct v as [ |b|z|t|s|l|d]; cbn;
      (eexists; split; [reflexivity|]; cbn;
       split; [reflexivity|]);
      try (split; [split; [discriminate | intros [d D]; discriminate]|];
           split; [intros d D; discriminate|];
           split; [intros e E; discriminate|];
           intros v E N; inversion E; subst; repeat split; reflexivity).
    split; [split; [intros _; eauto | reflexivity]|].
    split; [intros d' D; inversion D; subst; repeat split; reflexivity|].
    split; [intros e E; discriminate|].
    intros v E N; inversion E; subst v; elim (N d); reflexivity.
Qed.

End Setup.

(** ** The service *)

Section ServiceFacts.

Import LanguageDetector BaseAnalyzer Examples Service ServiceExamples
  Notions.

Lemma LanguageType_eqb_eq (a b : LanguageType) :
  LanguageType_eqb a b = true <-> a = b.
Proof. destruct a, b; simpl; split; congruence. Qed.

Lemma resolve_language_returns (self : SecurityAnalyzerMCP)
  (request : AnalysisRequest.t) :
  exists lang, resolve_language self request = inr lang.
Proof.
  unfold resolve_language, hret.
  destruct (wants_detection _); [eauto|].
  destruct (AnalysisRequest.language request) as [hint|]; [|eauto].
  unfold LanguageType_of_value, ret, raise.
  destruct (List.find _ _); simpl; eauto.
Qed.

(* the outcomes of [analyze_security], by the language it settles on *)
Lemma analyze_security_outcome (self : SecurityAnalyzerMCP)
  (request : AnalysisRequest.t) (lang : LanguageType) :
  resolve_language self request = inr lang ->
  analyze_security self request
  = if LanguageType_eqb lang UNKNOWN then
      inl {| status_code := 400; detail := JString unable_to_detect |}
    else
      match analyzer_of lang (analyzers self) with
      | None =>
          inl {| status_code := 400;
                 detail := JString (lit "No analyzer available for "
                                    ++ LanguageType_value lang) |}
      | Some analyzer =>
          match BaseAnalyzer.analyze analyzer (AnalysisRequest.code request)
                  (AnalysisRequest.file_path request) with
          | inr result => inr (response_of result)
          | inl e =>
              inl {| status_code := 500;
                     detail := JString (lit "Analysis failed: "
                                        ++ exc_str e) |}
          end
      end.
Proof.
  intros R; unfold analyze_security; rewrite R; cbn [hbind].
  destruct (LanguageType_eqb lang UNKNOWN); [reflexivity|].
  destruct (analyzer_of lang (analyzers self)) as [a|]; [|reflexivity].
  destruct (BaseAnalyzer.analyze a _ _); reflexivity.
Qed.

Lemma init_analyzers (w : World) (rules : LanguageType -> str)
  (svc : SecurityAnalyzerMCP) (lang : LanguageType) :
  __init__ w rules = inr svc -> lang <> UNKNOWN ->
  exists name,
    analyzer_of lang (analyzers svc)
    = Some (BaseSecurityAnalyzer (runtime w) (post w) name lang (rules lang)).
Proof.
  unfold __init__, bind, ret.
  destruct (int_of_text w _) as [e|p]; [discriminate|].
  intros H N; inversion H; subst svc; clear H.
  destruct lang; cbn; eauto; congruence.
Qed.

Lemma LanguageType_of_value_value (lang : LanguageType) :
  LanguageType_of_value (LanguageType_value lang) = inr lang.
Proof. destruct lang; reflexivity. Qed.

Lemma hint_resolves (self : SecurityAnalyzerMCP) (code : str)
  (path : option str) (lang : LanguageType) :
  lang <> UNKNOWN ->
  resolve_language self
    {| AnalysisRequest.code := code;
       AnalysisRequest.file_path := path;
       AnalysisRequest.language := Some (LanguageType_value lang) |}
  = inr lang.
Proof. destruct lang; intros N; try reflexivity; congruence. Qed.

Lemma unknown_is_no_language (lang : LanguageType) :
  lang <> UNKNOWN -> LanguageType_eqb lang UNKNOWN = false.
Proof. destruct lang; simpl; congruence. Qed.

(** X17: the handler of POST /analyze fails in two ways only.  It raises
    status 503 exactly when the service is not initialised; otherwise an
    error is a 400, whose detail is either the fixed "Unable to detect
    language ..." text or names a language without analyzer.  The 500 of
    the last except clause never occurs, since [analyze] of an analyzer
    returns a result for every failure of its stages. *)
Theorem analyze_fails_with_400_or_503
  (service_instance : option SecurityAnalyzerMCP)
  (request : AnalysisRequest.t) (h : HTTPException) :
  Service.analyze service_instance request = inl h ->
  (service_instance = None /\ h = not_initialized)
  \/ (exists self,
        service_instance = Some self
        /\ status_code h = 400
        /\ (detail h = JString unable_to_detect
            \/ exists lang,
                 lang <> UNKNOWN
                 /\ analyzer_of lang (analyzers self) = None
                 /\ detail h
                    = JString (lit "No analyzer available for "
                               ++ LanguageType_value lang))).
Proof.
  destruct service_instance as [self|]; cbn [Service.analyze].
  - intros E; right; exists self; split; [reflexivity|].
    destruct (resolve_language_returns self request) as [lang R].
    rewrite (analyze_security_outcome self request lang R) in E.
    destruct (LanguageType_eqb lang UNKNOWN) eqn:U.
    + inversion E; subst h; cbn [status_code detail]; auto.
    + destruct (analyzer_of lang (analyzers self)) as [a|] eqn:A.
      * destruct (analyze_returns a (AnalysisRequest.code request)
                    (AnalysisRequest.file_path request)) as [r Hr].
        rewrite Hr in E; discriminate.
      * inversion E; subst h; cbn [status_code detail].
        split; [reflexivity|].
        right; exists lang.
        split; [intros ->; discriminate | split; [exact A | reflexivity]].
  - intros E; inversion E; auto.
Qed.

Lemma analyze_fails_with_400_or_503_witness :
  let h := {| status_code := 400;
              detail := JString (lit "No analyzer available for java") |} in
  Service.analyze (Some bare_service) (request_with (Some (lit "java")))
  = inl h
  /\ ((Some bare_service = None /\ h = not_initialized)
      \/ (exists self,
            Some bare_service = Some self
            /\ status_code h = 400
            /\ (detail h = JString unable_to_detect
                \/ exists lang,
                     lang <> UNKNOWN
                     /\ analyzer_of lang (analyzers self) = None
                     /\ detail h
                        = JString (lit "No analyzer available for "
                                   ++ LanguageType_value lang)))).
Proof.
  intros h; split; [reflexivity|].
  apply (analyze_fails_with_400_or_503 (Some bare_service)
           (request_with (Some (lit "java"))) h).
  reflexivity.
Defined.

(** X18: in the service that [__init__] builds, every language other than
    UNKNOWN has an analyzer, so the only error of [analyze_security] is
    status 400 with the detail "Unable to detect language or unsupported
    language type."; the "No analyzer available" answer cannot occur. *)
Theorem constructed_service_fails_only_on_unknown_language
  (w : World) (rules : LanguageType -> str) (svc : SecurityAnalyzerMCP)
  (request : AnalysisRequest.t) (h : HTTPException) :
  __init__ w rules = inr svc ->
  analyze_security svc request = inl h ->
  h = {| status_code := 400; detail := JString unable_to_detect |}
  /\ resolve_language svc request = inr UNKNOWN.
Proof.
  intros I E.
  destruct (resolve_language_returns svc request) as [lang R].
  rewrite (analyze_security_outcome svc request lang R) in E.
  destruct (LanguageType_eqb lang UNKNOWN) eqn:U.
  - apply LanguageType_eqb_eq in U; subst lang.
    inversion E; auto.
  - assert (N : lang <> UNKNOWN) by (intros ->; discriminate).
    destruct (init_analyzers w rules svc lang I N) as [name A].
    rewrite A in E.
    destruct (analyze_returns
                (BaseSecurityAnalyzer (runtime w) (post w) name lang
                   (rules lang))
                (AnalysisRequest.code request)
                (AnalysisRequest.file_path request)) as [r Hr].
    rewrite Hr in E; discriminate.
Qed.

Lemma constructed_service_fails_only_on_unknown_language_witness :
  let h := {| status_code := 400; detail := JString unable_to_detect |} in
  __init__ offline_world example_rules = inr offline_service
  /\ analyze_security offline_service (request_with (Some (lit "python")))
     = inl h
  /\ h = {| status_code := 400; detail := JString unable_to_detect |}
  /\ resolve_language offline_service (request_with (Some (lit "python")))
     = inr UNKNOWN.
Proof.
  intros h; split; [reflexivity|]; split; [reflexivity|].
  apply (constructed_service_fails_only_on_unknown_language offline_world
           example_rules offline_service
           (request_with (Some (lit "python"))) h); reflexivity.
Defined.

(** X19: a language hint that is not "auto", not empty and not the value
    of a language other than UNKNOWN is never replaced by detection: the
    request is refused with status 400, whatever the file path and the
    code say.  The comparison is exact, so "CSharp" or "Java" are refused
    even for a path ending in .cs or .java. *)
Theorem unrecognized_hint_is_refused
  (self : SecurityAnalyzerMCP) (code hint : str) (path : option str) :
  hint <> [] -> hint <> lit "auto" ->
  (forall lang, lang <> UNKNOWN -> LanguageType_value lang <> hint) ->
  analyze_security self
    {| AnalysisRequest.code := code;
       AnalysisRequest.file_path := path;
       AnalysisRequest.language := Some hint |}
  = inl {| status_code := 400; detail := JString unable_to_detect |}.
Proof.
  intros Hne Hauto Hno.
  assert (R : resolve_language self
                {| AnalysisRequest.code := code;
                   AnalysisRequest.file_path := path;
                   AnalysisRequest.language := Some hint |} = inr UNKNOWN).
  { unfold resolve_language; cbn [AnalysisRequest.language wants_detection].
    destruct hint as [|c s]; [congruence|].
    destruct (Str.eqb (c :: s) (lit "auto")) eqn:A;
      [apply str_eqb_eq in A; congruence|].
    unfold LanguageType_of_value, LanguageType_members; cbn [List.find].
    repeat match goal with
           | |- context [Str.eqb (LanguageType_value ?l) ?v] =>
               let E := fresh "E" in
               destruct (Str.eqb (LanguageType_value l) v) eqn:E;
               [apply str_eqb_eq in E;
                try (elim (Hno l); [discriminate | exact E]) |]
           end; reflexivity. }
  rewrite (analyze_security_outcome self _ UNKNOWN R); reflexivity.
Qed.

Lemma unrecognized_hint_is_refused_witness :
  analyze_security offline_service
    {| AnalysisRequest.code := lit "using System;";
       AnalysisRequest.file_path := Some (lit "Program.cs");
       AnalysisRequest.language := Some (lit "CSharp") |}
  = inl {| status_code := 400; detail := JString unable_to_detect |}.
Proof.
  apply (unrecognized_hint_is_refused offline_service (lit "using System;")
           (lit "CSharp") (Some (lit "Program.cs"))).
  - discriminate.
  - discriminate.
  - intros lang N; destruct lang; discriminate.
Defined.

(** X20: a hint that is the value of a language other than UNKNOWN
    selects the analyzer of that language, whatever the file path and the
    code say: the answer is the response made of the result of that
    analyzer, and its language is the hint. *)
Theorem language_hint_overrides_detection
  (w : World) (rules : LanguageType -> str) (svc : SecurityAnalyzerMCP)
  (code : str) (path : option str) (lang : LanguageType) :
  __init__ w rules = inr svc ->
  lang <> UNKNOWN ->
  exists analyzer result,
    In (lang, analyzer) (analyzers svc)
    /\ get_language_type analyzer = lang
    /\ BaseAnalyzer.analyze analyzer code path = inr result
    /\ analyze_security svc
         {| AnalysisRequest.code := code;
            AnalysisRequest.file_path := path;
            AnalysisRequest.language := Some (LanguageType_value lang) |}
       = inr (response_of result)
    /\ AnalysisResponse.language (response_of result)
       = LanguageType_value lang.
Proof.
  intros I N.
  destruct (init_analyzers w rules svc lang I N) as [name A].
  set (a := BaseSecurityAnalyzer (runtime w) (post w) name lang (rules lang))
    in *.
  destruct (analyze_returns a code path) as [r Hr].
  exists a, r.
  split; [|split; [reflexivity|split; [exact Hr|split]]].
  - clear Hr; revert A; generalize (analyzers svc) as d.
    induction d as [|[l b] d IH]; cbn [analyzer_of]; [discriminate|].
    destruct (LanguageType_eqb l lang) eqn:E.
    + apply LanguageType_eqb_eq in E; subst l.
      intros H; inversion H; left; reflexivity.
    + intros H; right; exact (IH H).
  - rewrite (analyze_security_outcome svc _ lang
               (hint_resolves svc code path lang N)).
    rewrite (unknown_is_no_language lang N), A.
    cbn [AnalysisRequest.code AnalysisRequest.file_path].
    rewrite Hr; reflexivity.
  - unfold response_of; cbn [AnalysisResponse.language].
    rewrite (analyze_language a code path r Hr); reflexivity.
Qed.

Lemma language_hint_overrides_detection_witness :
  __init__ offline_world example_rules = inr offline_service
  /\ JAVA <> UNKNOWN
  /\ exists analyzer result,
       In (JAVA, analyzer) (analyzers offline_service)
       /\ get_language_type analyzer = JAVA
       /\ BaseAnalyzer.analyze analyzer (lit "using System;")
            (Some (lit "Program.cs")) = inr result
       /\ analyze_security offline_service
            {| AnalysisRequest.code := lit "using System;";
               AnalysisRequest.file_path := Some (lit "Program.cs");
               AnalysisRequest.language := Some (LanguageType_value JAVA) |}
          = inr (response_of result)
       /\ AnalysisResponse.language (response_of result)
          = LanguageType_value JAVA.
Proof.
  split; [reflexivity|]; split; [discriminate|].
  apply (language_hint_overrides_detection offline_world example_rules
           offline_service (lit "using System;") (Some (lit "Program.cs"))
           JAVA); [reflexivity | discriminate].
Defined.

(** X21: without a hint (the language is absent, empty or "auto") the
    request is settled by [detect_language] on the code and the path: it
    is refused with status 400 when detection gives UNKNOWN, and answered
    by the analyzer of the detected language otherwise. *)
Theorem request_without_hint_uses_detection
  (w : World) (rules : LanguageType -> str) (svc : SecurityAnalyzerMCP)
  (code : str) (path : option str) (hint : option str) :
  __init__ w rules = inr svc ->
  hint = None \/ hint = Some [] \/ hint = Some (lit "auto") ->
  let request := {| AnalysisRequest.code := code;
                    AnalysisRequest.file_path := path;
                    AnalysisRequest.language := hint |} in
  let lang := detect_language (language_detector svc) code path in
  (lang = UNKNOWN ->
   analyze_security svc request
   = inl {| status_code := 400; detail := JString unable_to_detect |})
  /\ (lang <> UNKNOWN ->
      exists analyzer result,
        analyzer_of lang (analyzers svc) = Some analyzer
        /\ BaseAnalyzer.analyze analyzer code path = inr result
        /\ analyze_security svc request = inr (response_of result)
        /\ AnalysisResponse.language (response_of result)
           = LanguageType_value lang).
Proof.
  intros I Hh request lang.
  assert (R : resolve_language svc request = inr lang).
  { subst request lang; unfold resolve_language;
      cbn [AnalysisRequest.language AnalysisRequest.code
           AnalysisRequest.file_path].
    destruct Hh as [-> | [-> | ->]]; reflexivity. }
  rewrite (analyze_security_outcome svc request lang R).
  split.
  - intros ->; reflexivity.
  - intros N.
    destruct (init_analyzers w rules svc lang I N) as [name A].
    set (a := BaseSecurityAnalyzer (runtime w) (post w) name lang
                (rules lang)) in *.
    destruct (analyze_returns a code path) as [r Hr].
    exists a, r.
    split; [exact A|split; [exact Hr|split]].
    + rewrite (unknown_is_no_language lang N), A.
      subst request; cbn [AnalysisRequest.code AnalysisRequest.file_path].
      rewrite Hr; reflexivity.
    + unfold response_of; cbn [AnalysisResponse.language].
      rewrite (analyze_language a code path r Hr); reflexivity.
Qed.

Lemma request_without_hint_uses_detection_witness :
  __init__ offline_world example_rules = inr offline_service
  /\ (detect_language (language_detector offline_service) (lit "hello")
        (Some (lit "notes.txt")) = UNKNOWN
      /\ analyze_security offline_service
           {| AnalysisRequest.code := lit "hello";
              AnalysisRequest.file_path := Some (lit "notes.txt");
              AnalysisRequest.language := Some (lit "auto") |}
         = inl {| status_code := 400; detail := JString unable_to_detect |}).
Proof.
  split; [reflexivity|].
  assert (U : detect_language (language_detector offline_service)
                (lit "hello") (Some (lit "notes.txt"))
              = UNKNOWN) by (vm_compute; reflexivity).
  split; [exact U|].
  apply (proj1 (request_without_hint_uses_detection offline_world
                  example_rules offline_service (lit "hello")
                  (Some (lit "notes.txt")) (Some (lit "auto")) eq_refl
                  (or_intror (or_intror eq_refl)))).
  exact U.
Defined.

Lemma analyze_gateway_down (rt : Runtime) (post : str -> M str)
  (name : str) (lang : LanguageType) (rules code : str) (path : option str)
  (e : Exception) :
  (forall prompt, post prompt = inl e) ->
  BaseAnalyzer.analyze (BaseSecurityAnalyzer rt post name lang rules)
    code path
  = inr (error_result (BaseSecurityAnalyzer rt post name lang rules)
           (mkExc OtherException (lit "LLM analysis failed: " ++ exc_str e))).
Proof.
  intros Hpost.
  unfold BaseAnalyzer.analyze, try_except, analyze_body;
    cbn [BaseSecurityAnalyzer self_preprocess_code get_security_rules_prompt
         self_analyze_code bind ret].
  unfold LLMService.analyze_code; rewrite Hpost; reflexivity.
Qed.

(** X22: a failure of the model gateway does not become an HTTP error.
    When every round trip to the model raises, each request that the
    service accepts is answered with a response whose completion status is
    "ANALYSIS FINISHED SUCCESSFULLY", with no issues, and whose summary and
    "error" metadata carry "LLM analysis failed: " and the text of the
    failure. *)
Theorem gateway_failure_is_answered
  (w : World) (rules : LanguageType -> str) (svc : SecurityAnalyzerMCP)
  (request : AnalysisRequest.t) (e : Exception)
  (response : AnalysisResponse.t) :
  __init__ w rules = inr svc ->
  (forall prompt, post w prompt = inl e) ->
  analyze_security svc request = inr response ->
  AnalysisResponse.issues response = []
  /\ AnalysisResponse.summary response
     = lit "Analysis failed: LLM analysis failed: " ++ exc_str e
  /\ meta_get (lit "error") (AnalysisResponse.metadata response)
     = Some (MStr (lit "LLM analysis failed: " ++ exc_str e))
  /\ meta_get (lit "status") (AnalysisResponse.metadata response) = None
  /\ AnalysisResponse.completion_status response = finished_successfully.
Proof.
  intros I Hpost E.
  destruct (resolve_language_returns svc request) as [lang R].
  rewrite (analyze_security_outcome svc request lang R) in E.
  destruct (LanguageType_eqb lang UNKNOWN) eqn:U; [discriminate|].
  assert (N : lang <> UNKNOWN) by (intros ->; discriminate).
  destruct (init_analyzers w rules svc lang I N) as [name A].
  rewrite A in E.
  rewrite (analyze_gateway_down (runtime w) (post w) name lang (rules lang)
             _ _ e Hpost) in E.
  inversion E; subst response; clear E.
  repeat split.
Qed.

Lemma gateway_failure_is_answered_witness :
  let e := mkExc OtherException (lit "All connection attempts failed") in
  let response :=
    response_of
      (error_result
         (BaseSecurityAnalyzer example_runtime refused
            (lit "CSharpSecurityAnalyzer") CSHARP (example_rules CSHARP))
         (mkExc OtherException
            (lit "LLM analysis failed: All connection attempts failed"))) in
  analyze_security offline_service (request_with None) = inr response
  /\ AnalysisResponse.issues response = []
  /\ AnalysisResponse.summary response
     = lit "Analysis failed: LLM analysis failed: " ++ exc_str e
  /\ meta_get (lit "error") (AnalysisResponse.metadata response)
     = Some (MStr (lit "LLM analysis failed: " ++ exc_str e))
  /\ meta_get (lit "status") (AnalysisResponse.metadata response) = None
  /\ AnalysisResponse.completion_status response = finished_successfully.
Proof.
  intros e response.
  assert (E : analyze_security offline_service (request_with None)
              = inr response) by (vm_compute; reflexivity).
  split; [exact E|].
  apply (gateway_failure_is_answered offline_world example_rules
           offline_service (request_with None) e response).
  - reflexivity.
  - intros prompt; reflexivity.
  - exact E.
Defined.

(** X23: the handler of GET /health raises status 503 only when the
    service is not initialised.  An initialised service always answers:
    the status is "healthy" exactly when the models endpoint of the gateway
    answered with a JSON object and "degraded" in every other case, so the
    "unhealthy" answer of the except clause never occurs; the languages
    listed are the four languages other than UNKNOWN. *)
Theorem health_is_healthy_or_degraded
  (self : SecurityAnalyzerMCP) (w : World) :
  Service.health None w = inl not_initialized
  /\ exists r,
       Service.health (Some self) w = inr r
       /\ (HealthCheckResponse.status r = lit "healthy"
           <-> exists d,
                 http_get w (LLMSetup.models_url (llm_service self))
                 = inr (JObject d))
       /\ (HealthCheckResponse.status r = lit "healthy"
           \/ HealthCheckResponse.status r = lit "degraded")
       /\ LLMSetup.available (HealthCheckResponse.llm_service r)
          = Str.eqb (HealthCheckResponse.status r) (lit "healthy")
       /\ HealthCheckResponse.service r = server_name self
       /\ HealthCheckResponse.version r = server_version self
       /\ HealthCheckResponse.supported_languages r
          = [ lit "csharp"; lit "react_typescript"; lit "react_javascript";
              lit "java" ].
Proof.
  split; [reflexivity|].
  cbn [Service.health]; unfold health_check.
  destruct (llm_health_check_reports (llm_service self) (http_get w))
    as (h & Hh & _ & Hav & _).
  rewrite Hh; cbn [bind ret].
  eexists; split; [reflexivity|].
  cbn [HealthCheckResponse.status HealthCheckResponse.llm_service
       HealthCheckResponse.service HealthCheckResponse.version
       HealthCheckResponse.supported_languages].
  destruct (LLMSetup.available h) eqn:Av.
  - split; [split; [intros _; apply Hav; reflexivity | reflexivity]|].
    repeat split; auto.
  - split; [split; [discriminate|]|].
    + intros D; apply Hav in D; discriminate.
    + repeat split; auto.
Qed.

Lemma listed_language (self : SecurityAnalyzerMCP) (info : LanguageInfo.t) :
  In info (list_supported_languages self) ->
  exists lang,
    lang <> UNKNOWN
    /\ LanguageInfo.language info = LanguageType_value lang
    /\ LanguageInfo.extensions info = get_supported_extensions lang
    /\ LanguageInfo.analyzer_available info
       = match analyzer_of lang (analyzers self) with
         | Some _ => true
         | None => false
         end.
Proof.
  unfold list_supported_languages; rewrite in_map_iff.
  intros (lang & <- & HIn); exists lang.
  split; [|repeat split].
  unfold known_languages in HIn; apply filter_In in HIn.
  destruct HIn as [_ HIn]; intros ->; discriminate.
Qed.

(** X24: what the service advertises, it accepts.  Every entry of
    [list_supported_languages] has an analyzer available and at least one
    extension, its name is allowed by the schema of [mcp_tools], and a
    request that gives this name as its language is answered, in that
    language, for every code and path; every name the schema allows, "auto"
    apart, is listed. *)
Theorem advertised_language_is_accepted
  (w : World) (rules : LanguageType -> str) (svc : SecurityAnalyzerMCP) :
  __init__ w rules = inr svc ->
  (forall info,
     In info (list_supported_languages svc) ->
     LanguageInfo.analyzer_available info = true
     /\ LanguageInfo.extensions info <> []
     /\ In (LanguageInfo.language info) mcp_tools_language_enum
     /\ forall code path,
          exists response,
            analyze_security svc
              {| AnalysisRequest.code := code;
                 AnalysisRequest.file_path := path;
                 AnalysisRequest.language :=
                   Some (LanguageInfo.language info) |}
            = inr response
            /\ AnalysisResponse.language response
               = LanguageInfo.language info)
  /\ (forall name,
        In name mcp_tools_language_enum ->
        name = lit "auto"
        \/ exists info,
             In info (list_supported_languages svc)
             /\ LanguageInfo.language info = name).
Proof.
  intros I; split.
  - intros info HIn.
    destruct (listed_language svc info HIn) as (lang & N & Hl & He & Ha).
    destruct (init_analyzers w rules svc lang I N) as [name A].
    rewrite A in Ha.
    split; [exact Ha|].
    split; [rewrite He; destruct lang; try discriminate; congruence|].
    split; [rewrite Hl; destruct lang; cbn; auto 10; congruence|].
    intros code path.
    set (a := BaseSecurityAnalyzer (runtime w) (post w) name lang
                (rules lang)) in *.
    destruct (analyze_returns a code path) as [r Hr].
    exists (response_of r); rewrite Hl.
    rewrite (analyze_security_outcome svc _ lang
               (hint_resolves svc code path lang N)).
    rewrite (unknown_is_no_language lang N), A.
    cbn [AnalysisRequest.code AnalysisRequest.file_path].
    rewrite Hr; split; [reflexivity|].
    unfold response_of; cbn [AnalysisResponse.language].
    rewrite (analyze_language a code path r Hr); reflexivity.
  - assert (L : forall lang,
                lang <> UNKNOWN ->
                exists info,
                  In info (list_supported_languages svc)
                  /\ LanguageInfo.language info = LanguageType_value lang).
    { intros lang N; unfold list_supported_languages.
      match goal with
      | |- exists info, In info (map ?f ?l) /\ _ =>
          exists (f lang); split; [apply (in_map f) | reflexivity]
      end.
      apply filter_In; split; destruct lang; cbn; auto 10; congruence. }
    intros name HIn.
    unfold mcp_tools_language_enum in HIn; cbn [In] in HIn.
    destruct HIn as [<- | [<- | [<- | [<- | [<- | []]]]]];
      [left; reflexivity | right ..].
    + apply (L CSHARP); discriminate.
    + apply (L REACT_TYPESCRIPT); discriminate.
    + apply (L REACT_JAVASCRIPT); discriminate.
    + apply (L JAVA); discriminate.
Qed.

Lemma advertised_language_is_accepted_witness :
  __init__ offline_world example_rules = inr offline_service
  /\ (exists info,
        In info (list_supported_languages offline_service)
        /\ LanguageInfo.language info = lit "react_typescript").
Proof.
  split; [reflexivity|].
  destruct (proj2 (advertised_language_is_accepted offline_world
                     example_rules offline_service eq_refl)
              (lit "react_typescript")) as [H | H].
  - cbn; auto.
  - discriminate H.
  - exact H.
Defined.

End ServiceFacts.
